(** * nekro-plugin-webapp: the local compiler services

    A shallow embedding of [src/services/local_compiler/build.js] (the
    bundle pipeline with its virtual file system plugin) and of
    [src/services/local_compiler/check.js] (the type-validation pipeline),
    together with the properties the specification states about them.

    Conventions of the embedding.
    - A JavaScript string is a [string]; one character stands for one
      UTF-16 code unit (the development covers code units below 256).
    - The request's [files] and [env_vars] objects are finite maps from
      strings to strings ([gmap string string]): own properties only, all
      values text, as the request payload is specified.
    - Node's [path] module is the POSIX one.
    - The bundler, the file system, the child process and [JSON.parse] are
      outside the repository.  The bundler is an arbitrary interaction tree
      calling the plugin's callbacks; the others are oracles collected in a
      record, over which every statement quantifies. *)

From Stdlib Require Import Ascii String List Bool Arith Lia DecimalString.
From stdpp Require Import base option list gmap strings.

Set Default Proof Using "Type".

(* ===================================================================== *)
(** * JavaScript strings *)
(* ===================================================================== *)

Module JS.

(** [s.length] *)
Definition length (s : string) : nat := String.length s.

(** [s.startsWith(p)] *)
Definition startsWith (s p : string) : bool := String.prefix p s.

(** [s.substring(n)]: the characters from index [n] on. *)
Fixpoint substring_from (n : nat) (s : string) : string :=
  match n, s with
  | 0, _ => s
  | S _, EmptyString => EmptyString
  | S n', String _ s' => substring_from n' s'
  end.

(** [s.substring(0, n)]: the first [n] characters (all of [s] when it is
    shorter). *)
Fixpoint substring_to (n : nat) (s : string) : string :=
  match n, s with
  | 0, _ => EmptyString
  | S _, EmptyString => EmptyString
  | S n', String c s' => String c (substring_to n' s')
  end.

(** [s.endsWith(p)]: some suffix of [s] is [p]. *)
Fixpoint endsWith (s p : string) : bool :=
  String.eqb s p ||
  match s with
  | EmptyString => false
  | String _ s' => endsWith s' p
  end.

(** [s.includes(p)]: [p] is a prefix of some suffix of [s]. *)
Fixpoint includes (s p : string) : bool :=
  String.prefix p s ||
  match s with
  | EmptyString => false
  | String _ s' => includes s' p
  end.

(** White space and line terminators of ECMAScript among the code units
    below 256: TAB, LF, VT, FF, CR, SP and NBSP. *)
Definition is_white_space (c : ascii) : bool :=
  match nat_of_ascii c with
  | 9 | 10 | 11 | 12 | 13 | 32 | 160 => true
  | _ => false
  end.

Fixpoint trimStart (s : string) : string :=
  match s with
  | EmptyString => EmptyString
  | String c s' => if is_white_space c then trimStart s' else s
  end.

Fixpoint trimEnd (s : string) : string :=
  match s with
  | EmptyString => EmptyString
  | String c s' =>
      match trimEnd s' with
      | EmptyString => if is_white_space c then EmptyString else String c EmptyString
      | r => String c r
      end
  end.

(** [s.trim()] *)
Definition trim (s : string) : string := trimEnd (trimStart s).

(** Truthiness of a string: [!s] is [true] exactly for the empty string. *)
Definition truthy (s : string) : bool := negb (String.eqb s "").

(** [s.split(sep)] for a one-character separator. *)
Fixpoint split (sep : ascii) (s : string) : list string :=
  match s with
  | EmptyString => [EmptyString]
  | String c s' =>
      if Ascii.eqb c sep then EmptyString :: split sep s'
      else match split sep s' with
           | [] => [String c EmptyString]
           | h :: t => String c h :: t
           end
  end.

(** [l.join(sep)] *)
Definition join (sep : string) (l : list string) : string := String.concat sep l.

(** [s.replace(pat, rep)] with a string pattern: only the first
    occurrence of [pat] is replaced ([rep] holds no [$] pattern here). *)
Fixpoint replace (s pat rep : string) : string :=
  if String.prefix pat s then rep +:+ substring_from (String.length pat) s
  else match s with
       | EmptyString => EmptyString
       | String c s' => String c (replace s' pat rep)
       end.

(** The line feed and the double quote, as one-character strings. *)
Definition LF : ascii := ascii_of_nat 10.
Definition nl : string := String LF EmptyString.
Definition dq : string := String (ascii_of_nat 34) EmptyString.

(** Lower-case hexadecimal digit. *)
Definition hex_digit (n : nat) : ascii :=
  ascii_of_nat (if n <? 10 then 48 + n else 87 + n).

(** [QuoteJSONString] of ECMAScript, character by character. *)
Definition quote_char (c : ascii) : string :=
  match nat_of_ascii c with
  | 8 => "\b"
  | 9 => "\t"
  | 10 => "\n"
  | 12 => "\f"
  | 13 => "\r"
  | 34 => "\" +:+ dq
  | 92 => "\\"
  | n => if n <? 32
         then "\u00" +:+ String (hex_digit (n / 16)) (String (hex_digit (n mod 16)) EmptyString)
         else String c EmptyString
  end.

Fixpoint quote_chars (s : string) : string :=
  match s with
  | EmptyString => EmptyString
  | String c s' => quote_char c +:+ quote_chars s'
  end.

(** [JSON.stringify(s)] for a string [s]: its JSON string literal. *)
Definition JSON_stringify (s : string) : string := dq +:+ quote_chars s +:+ dq.

(** The names of the properties of [Object.prototype]: every object that
    [JSON.parse] creates inherits them.  Each of them is a function, but
    [__proto__], which reads as the prototype itself: none is a string and
    all are truthy. *)
Definition Object_prototype : list string :=
  [ "constructor"; "__defineGetter__"; "__defineSetter__"; "hasOwnProperty";
    "__lookupGetter__"; "__lookupSetter__"; "isPrototypeOf"; "propertyIsEnumerable";
    "toString"; "valueOf"; "__proto__"; "toLocaleString" ].

End JS.

(* ===================================================================== *)
(** * Node's [path] module (POSIX) *)
(* ===================================================================== *)

Module Path.

Definition slash : ascii := "/"%char.
Definition dot : ascii := "."%char.

Definition is_slash (c : ascii) : bool := Ascii.eqb c slash.

(** One step of [normalizeString]: [res] is the stack of the segments
    kept so far, the last one first. *)
Definition normalize_step (allowAboveRoot : bool) (res : list string) (seg : string)
  : list string :=
  if String.eqb seg "" || String.eqb seg "." then res
  else if String.eqb seg ".." then
    match res with
    | [] => if allowAboveRoot then [".."] else []
    | top :: rest =>
        if String.eqb top ".." then (if allowAboveRoot then ".." :: res else res)
        else rest
    end
  else seg :: res.

Definition normalize_segments (allowAboveRoot : bool) (segs : list string) : list string :=
  rev (fold_left (normalize_step allowAboveRoot) segs []).

(** [normalizeString(path, allowAboveRoot, '/', isPosixPathSeparator)] *)
Definition normalizeString (path : string) (allowAboveRoot : bool) : string :=
  JS.join "/" (normalize_segments allowAboveRoot (JS.split slash path)).

Definition isAbsolute (path : string) : bool := JS.startsWith path "/".
Definition trailingSeparator (path : string) : bool := JS.endsWith path "/".

(** [path.normalize(path)] *)
Definition normalize (path : string) : string :=
  if String.eqb path "" then "."
  else
    let p := normalizeString path (negb (isAbsolute path)) in
    if String.eqb p "" then
      if isAbsolute path then "/"
      else if trailingSeparator path then "./" else "."
    else
      let p := if trailingSeparator path then p +:+ "/" else p in
      if isAbsolute path then "/" +:+ p else p.

(** [path.join(a, b)]: the non-empty arguments joined by ['/'], then
    normalized. *)
Definition join (a b : string) : string :=
  match JS.truthy a, JS.truthy b with
  | false, false => "."
  | true, false => normalize a
  | false, true => normalize b
  | true, true => normalize (a +:+ "/" +:+ b)
  end.

(** The scan of [path.dirname]: [r] holds the characters at the indices
    [>= 1], the last one first.  Trailing separators are skipped, then
    the last segment; what is left starts at the separator found (index
    [end]), if any. *)
Fixpoint skip_slashes (r : list ascii) : list ascii :=
  match r with
  | c :: r' => if is_slash c then skip_slashes r' else r
  | [] => []
  end.

Fixpoint skip_segment (r : list ascii) : list ascii :=
  match r with
  | c :: r' => if is_slash c then r else skip_segment r'
  | [] => []
  end.

(** [path.dirname(path)] *)
Definition dirname (path : string) : string :=
  match path with
  | EmptyString => "."
  | String c0 rest =>
      let hasRoot := is_slash c0 in
      match skip_segment (skip_slashes (rev (list_ascii_of_string rest))) with
      | [] => if hasRoot then "/" else "."
      | _ :: before =>
          (* [end] is [1 + length before]; the result is [path.slice(0, end)] *)
          if hasRoot && Nat.eqb (List.length before) 0 then "//"
          else String c0 (string_of_list_ascii (rev before))
      end
  end.

(** The last component of [path], trailing separators dropped: the part
    [path.extname] scans. *)
Definition last_component (path : string) : list ascii :=
  let r := skip_slashes (rev (list_ascii_of_string path)) in
  rev (take (List.length r - List.length (skip_segment r)) r).

(** The part of a component from its last dot on, if it has a dot. *)
Fixpoint from_last_dot (cs : list ascii) : option (list ascii) :=
  match cs with
  | [] => None
  | c :: cs' =>
      match from_last_dot cs' with
      | Some e => Some e
      | None => if Ascii.eqb c dot then Some cs else None
      end
  end.

(** [path.extname(path)]: from the last dot of the last component to its
    end; empty when there is no dot, when the only dot is the first
    character of the component, and for the component [..]. *)
Definition extname (path : string) : string :=
  let comp := last_component path in
  match from_last_dot comp with
  | None => ""
  | Some e =>
      if Nat.eqb (List.length e) (List.length comp) then ""
      else if String.eqb (string_of_list_ascii comp) ".." then ""
      else string_of_list_ascii e
  end.

End Path.

(* ===================================================================== *)
(** * Values shared by the two programs *)
(* ===================================================================== *)

(** A location of a bundler message. *)
Record Location := {
  file : string;
  line : nat;
  column : nat;
  lineText : string
}.

(** A bundler message: [{ text, location }]. *)
Record Message := {
  text : string;
  location : option Location
}.

(** A thrown JavaScript error: its [message] and, for a failure of the
    bundler, its [errors] (empty when the property is absent). *)
Record Exc := {
  message : string;
  errors : list Message
}.

Definition Error (msg : string) : Exc := {| message := msg; errors := [] |}.

(** The object written to standard output: the fields absent from the
    object are [None]. *)
Record Envelope := {
  success : bool;
  output : option string;
  error : option string;
  externals : option (list string);
  raw : option string
}.

(** The request after [JSON.parse] and destructuring: [files] is [None]
    when the payload has no such property.  An object of JavaScript lists
    its own keys in an order of its own (the keys that are array indices
    first, then the others as the request has them): [files_keys] are the
    keys of [files] in that order. *)
Record Payload := {
  files : option (gmap string string);
  env_vars : option (gmap string string);
  files_keys : list string
}.

(** Exactly one of [output] (with [success: true]) and [error] (with
    [success: false]) is present. *)
Definition well_formed (e : Envelope) : bool :=
  match success e, output e, error e with
  | true, Some _, None => true
  | false, None, Some _ => true
  | _, _, _ => false
  end.

(* ===================================================================== *)
(** * build.js *)
(* ===================================================================== *)

Module Build.

(** ** The virtual file system plugin *)

Record OnResolveArgs := {
  path : string;
  importer : string;
  kind : string
}.

(** What [onResolve] returns: [{ path, namespace }] or
    [{ path, external: true }]. *)
Record OnResolveResult := {
  res_path : string;
  res_namespace : option string;
  res_external : bool
}.

Definition in_namespace (p ns : string) : OnResolveResult :=
  {| res_path := p; res_namespace := Some ns; res_external := false |}.

Definition as_external (p : string) : OnResolveResult :=
  {| res_path := p; res_namespace := None; res_external := true |}.

(** The [onResolve] callback.  [collectedExternals] is the array the
    callback pushes to; the new array is returned with the result. *)
Definition onResolve (collectedExternals : list string) (args : OnResolveArgs)
  : OnResolveResult * list string :=
  if String.eqb (kind args) "entry-point" then
    (in_namespace (path args) "vfs", collectedExternals)
  else if JS.startsWith (path args) "/" then
    (in_namespace (JS.substring_from 1 (path args)) "vfs", collectedExternals)
  else if JS.startsWith (path args) "@/" then
    let aliasPath := "src/" +:+ JS.substring_from 2 (path args) in
    (in_namespace aliasPath "vfs", collectedExternals)
  else if JS.startsWith (path args) "." then
    let dir := Path.dirname (importer args) in
    let resolved := Path.join dir (path args) in
    let cleanPath :=
      if JS.startsWith resolved "/" then JS.substring_from 1 resolved else resolved in
    (in_namespace cleanPath "vfs", collectedExternals)
  else if JS.endsWith (path args) ".css" then
    (in_namespace (path args) "ignore-css", collectedExternals)
  else
    (as_external (path args), collectedExternals ++ [path args]).

(** [getLoader(filename)] *)
Definition getLoader (filename : string) : string :=
  let ext := Path.extname filename in
  if String.eqb ext ".js" then "jsx"
  else if String.eqb ext ".jsx" then "jsx"
  else if String.eqb ext ".ts" then "ts"
  else if String.eqb ext ".tsx" then "tsx"
  else if String.eqb ext ".css" then "css"
  else if String.eqb ext ".json" then "json"
  else "text".

(** What an [onLoad] callback hands to the bundler: contents with a
    loader, a list of errors, or an exception that escapes the callback.
    The contents are a string, or ([LoadedInherited]) the member of
    [Object.prototype] of the given name, which is no string. *)
Inductive OnLoadResult :=
| Loaded (contents loader : string)
| LoadedInherited (member loader : string)
| LoadErrors (errs : list Message)
| LoadThrew (e : Exc).

(** What the read [files[key]] gives when it gives something: the string
    of an own property, or the member that the object inherits under that
    name. *)
Inductive Property :=
| Own (content : string)
| Inherited (member : string).

(** [files[key]]: an own property is read first; a name that is not an
    own key is looked up in [Object.prototype]; anything else is
    [undefined]. *)
Definition get (fs : gmap string string) (key : string) : option Property :=
  match fs !! key with
  | Some content => Some (Own content)
  | None => if bool_decide (key ∈ JS.Object_prototype) then Some (Inherited key) else None
  end.

(** [files[key]] as a condition: the value read when it is truthy, that
    is, neither [undefined] nor the empty string. *)
Definition truthy_at (fs : gmap string string) (key : string) : option Property :=
  match get fs key with
  | Some (Own content) => if JS.truthy content then Some (Own content) else None
  | Some (Inherited member) => Some (Inherited member)
  | None => None
  end.

(** [{ contents: value, loader }] *)
Definition loaded (value : Property) (loader : string) : OnLoadResult :=
  match value with
  | Own content => Loaded content loader
  | Inherited member => LoadedInherited member loader
  end.

Definition extensions : list string := [".tsx"; ".ts"; ".jsx"; ".js"; ".css"; ".json"].

(** The [for (const ext of extensions)] loop: the first extension whose
    key passes the condition, if any. *)
Fixpoint probe (fs : gmap string string) (p : string) (exts : list string)
  : option OnLoadResult :=
  match exts with
  | [] => None
  | ext :: exts' =>
      match truthy_at fs (p +:+ ext) with
      | Some value => Some (loaded value (getLoader (p +:+ ext)))
      | None => probe fs p exts'
      end
  end.

Definition not_found (p : string) : OnLoadResult :=
  LoadErrors [ {| text := "File not found in VFS: " +:+ p; location := None |} ].

(** The [onLoad] callback of the namespace [vfs].  Without [files] the
    read [files[args.path]] throws a [TypeError]. *)
Definition onLoad_vfs (fs : option (gmap string string)) (p : string) : OnLoadResult :=
  match fs with
  | None =>
      LoadThrew (Error ("Cannot read properties of undefined (reading '" +:+ p +:+ "')"))
  | Some fs =>
      match truthy_at fs p with
      | None =>
          match probe fs p extensions with
          | Some r => r
          | None => not_found p
          end
      | Some value => loaded value (getLoader p)
      end
  end.

(** The [onLoad] callback of the namespace [ignore-css]. *)
Definition onLoad_ignore_css : OnLoadResult := Loaded "" "css".

(** The callback registered for a namespace, run on a path: [None] when
    the plugin registers none for it. *)
Definition onLoad (fs : option (gmap string string)) (ns p : string)
  : option OnLoadResult :=
  if String.eqb ns "ignore-css" then Some onLoad_ignore_css
  else if String.eqb ns "vfs" then Some (onLoad_vfs fs p)
  else None.

(** ** The options of the build *)

Record BuildOptions := {
  entryPoints : list string;
  bundle : bool;
  format : string;
  target : list string;
  outfile : string;
  jsx : string;
  write : bool;
  external : list string;
  define : gmap string string
}.

(** [Object.entries(env_vars || {})] *)
Definition entries (env : option (gmap string string)) : list (string * string) :=
  match env with
  | Some m => map_to_list m
  | None => []
  end.

(** An object built from a list of properties: a later one overrides an
    earlier one of the same name. *)
Definition set_properties (base : gmap string string) (l : list (string * string))
  : gmap string string :=
  fold_left (fun m kv => <[ kv.1 := kv.2 ]> m) l base.

(** The [define] option: the default for [NODE_ENV], then one property
    per entry of [env_vars]. *)
Definition make_define (env : option (gmap string string)) : gmap string string :=
  set_properties
    {[ "process.env.NODE_ENV" := JS.dq +:+ "development" +:+ JS.dq ]}
    (map (fun kv => ("process.env." +:+ kv.1, JS.JSON_stringify kv.2)) (entries env)).

Definition options (env : option (gmap string string)) : BuildOptions :=
  {| entryPoints := ["src/main.tsx"];
     bundle := true;
     format := "esm";
     target := ["es2020"];
     outfile := "bundle.js";
     jsx := "automatic";
     write := false;
     external := ["react"; "react-dom"; "react-dom/client"];
     define := make_define env |}.

(** ** The bundler *)

Record OutputFile := {
  out_path : string;
  out_text : string
}.

(** How [esbuild.build] ends: it resolves to a result with its
    [outputFiles], or it rejects with an error. *)
Inductive BuildOutcome :=
| Built (outputFiles : list OutputFile)
| Rejected (e : Exc).

(** A run of the bundler, as far as the plugin sees it: the bundler asks
    the plugin to resolve an import or to load a path of a namespace, and
    goes on with the answer, until it ends. *)
Inductive Engine :=
| Finish (o : BuildOutcome)
| Resolve (args : OnResolveArgs) (k : OnResolveResult -> Engine)
| Load (ns p : string) (k : option OnLoadResult -> Engine).

(** The bundler run against the plugin's callbacks; the array of
    collected externals is threaded through the calls. *)
Fixpoint run (fs : option (gmap string string)) (e : Engine)
    (collectedExternals : list string) : BuildOutcome * list string :=
  match e with
  | Finish o => (o, collectedExternals)
  | Resolve args k =>
      let '(r, collected) := onResolve collectedExternals args in
      run fs (k r) collected
  | Load ns p k => run fs (k (onLoad fs ns p)) collectedExternals
  end.

(** ** The request handler *)

(** What the handler does not decide: the parser of the request and the
    bundler. *)
Record World := {
  JSON_parse : string -> Exc + Payload;
  esbuild_build : BuildOptions -> Engine
}.

(** The loop over [result.outputFiles]: the text of the last [.js] file
    and of the last [.css] file that is not a [.js] file. *)
Definition pick_outputs (outs : list OutputFile) : string * string :=
  fold_left
    (fun '(jsCode, cssCode) f =>
       if JS.endsWith (out_path f) ".js" then (out_text f, cssCode)
       else if JS.endsWith (out_path f) ".css" then (jsCode, out_text f)
       else (jsCode, cssCode))
    outs ("", "").

Definition injectScript (escapedCss : string) : string :=
  JS.nl +:+ "(function() {" +:+ JS.nl +:+
  "    try {" +:+ JS.nl +:+
  "        const style = document.createElement('style');" +:+ JS.nl +:+
  "        style.textContent = " +:+ escapedCss +:+ ";" +:+ JS.nl +:+
  "        document.head.appendChild(style);" +:+ JS.nl +:+
  "    } catch(e) {" +:+ JS.nl +:+
  "        console.error('Failed to inject CSS:', e);" +:+ JS.nl +:+
  "    }" +:+ JS.nl +:+
  "})();" +:+ JS.nl.

(** [[...new Set(l)]]: the first occurrence of each element, in order. *)
Fixpoint set_spread_from (seen l : list string) : list string :=
  match l with
  | [] => []
  | x :: l' =>
      if bool_decide (x ∈ seen) then set_spread_from seen l'
      else x :: set_spread_from (x :: seen) l'
  end.

Definition set_spread (l : list string) : list string := set_spread_from [] l.

(** Decimal digits of a number. *)
Definition digits (n : nat) : string := NilEmpty.string_of_uint (Nat.to_uint n).

Fixpoint spaces (n : nat) : string :=
  match n with
  | 0 => ""
  | S n' => String " " (spaces n')
  end.

(** The text of one error in the [catch] block. *)
Definition format_error (err : Message) : string :=
  match location err with
  | Some loc =>
      (text err +:+ " at " +:+ file loc +:+ ":" +:+ digits (line loc) +:+ ":" +:+
         digits (column loc))
      +:+ JS.nl +:+ lineText loc +:+ JS.nl +:+ spaces (column loc) +:+ "^"
  | None => text err
  end.

(** The [catch] block: the message reported for a thrown error. *)
Definition errorMsg (e : Exc) : string :=
  match errors e with
  | [] => message e
  | errs => JS.join (JS.nl +:+ JS.nl) (map format_error errs)
  end.

Definition success_envelope (jsCode : string) (collected : list string) : Envelope :=
  {| success := true; output := Some jsCode; error := None;
     externals := Some (set_spread collected); raw := None |}.

Definition failure_envelope (e : Exc) : Envelope :=
  {| success := false; output := None; error := Some (errorMsg e);
     externals := None; raw := None |}.

(** The [try] block: the envelope it logs, or the error it throws. *)
Definition try_block (w : World) (inputData : string) : Exc + Envelope :=
  if negb (JS.truthy (JS.trim inputData)) then inl (Error "No input data received")
  else
    match JSON_parse w inputData with
    | inl e => inl e
    | inr payload =>
        match run (files payload) (esbuild_build w (options (env_vars payload))) [] with
        | (Rejected e, _) => inl e
        | (Built outs, collected) =>
            let '(jsCode, cssCode) := pick_outputs outs in
            let jsCode :=
              if JS.truthy cssCode
              then injectScript (JS.JSON_stringify cssCode) +:+ jsCode
              else jsCode in
            inr (success_envelope jsCode collected)
        end
    end.

(** The handler of the end of the input: the envelopes written to
    standard output, in order. *)
Definition on_end (w : World) (inputData : string) : list Envelope :=
  match try_block w inputData with
  | inr env => [env]
  | inl e => [failure_envelope e]
  end.

End Build.

(* ===================================================================== *)
(** * check.js *)
(* ===================================================================== *)

Module Check.

(** ** The outside world *)

(** What the callback of [exec] receives. *)
Record ExecResult := {
  exec_error : option Exc;
  stdout : string;
  stderr : string
}.

(** The answers of the file system, of the child process and of the
    parser.  A call that can throw answers with the error thrown;
    [mkdtempSync] answers with the random characters it appends to its
    prefix; whether a write succeeds is told by its path; [__dirname] is
    an absolute path. *)
Record World := {
  JSON_parse : string -> Exc + Payload;
  os_tmpdir : string;
  __dirname : string;
  mkdtempSync : string -> Exc + string;
  mkdirSync : string -> option Exc;
  writeFileSync : string -> option Exc;
  existsSync : string -> bool;
  symlinkSync : string -> string -> option Exc;
  rmSync : string -> option Exc;
  exec : string -> string -> Exc + ExecResult
}.

(** The calls the handler makes that change the outside, in the order it
    makes them.  [Mkdtemp] carries the directory that was created. *)
Inductive Event :=
| Mkdtemp (dir : string)
| Mkdir (dir : string)
| WriteFile (p content : string)
| WriteTsconfig (p : string)
| Symlink (target p : string)
| Exec (command cwd : string)
| Rm (dir : string)
| Log (e : Envelope).

(** ** The monad of the handler: the variable [tmpDir], the calls made,
    and exceptions *)

Record State := {
  tmpDir : option string;
  trace : list Event
}.

Definition M (A : Type) : Type := State -> State * (Exc + A).

Definition ret {A} (a : A) : M A := fun s => (s, inr a).

Definition bind {A B} (m : M A) (f : A -> M B) : M B :=
  fun s => match m s with
           | (s', inr a) => f a s'
           | (s', inl e) => (s', inl e)
           end.

#[export] Instance M_ret : MRet M := @ret.
#[export] Instance M_bind : MBind M := fun A B f m => bind m f.

Definition throw {A} (e : Exc) : M A := fun s => (s, inl e).

Definition emit (ev : Event) : M unit :=
  fun s => ({| tmpDir := tmpDir s; trace := trace s ++ [ev] |}, inr tt).

Definition get_tmpDir : M (option string) := fun s => (s, inr (tmpDir s)).

Definition set_tmpDir (d : string) : M unit :=
  fun s => ({| tmpDir := Some d; trace := trace s |}, inr tt).

(** A call that may throw. *)
Definition check (answer : option Exc) : M unit :=
  match answer with
  | Some e => throw e
  | None => ret tt
  end.

Definition of_sum {A} (answer : Exc + A) : M A :=
  match answer with
  | inl e => throw e
  | inr a => ret a
  end.

(** [try { body } catch (e) { handler }] *)
Definition try_catch {A} (body : M A) (handler : Exc -> M A) : M A :=
  fun s => match body s with
           | (s', inr a) => (s', inr a)
           | (s', inl e) => handler e s'
           end.

(** [try { body } catch (_) {}] *)
Definition swallow (body : M unit) : M unit := try_catch body (fun _ => ret tt).

Definition console_log (e : Envelope) : M unit := emit (Log e).

(** [fs.rmSync(tmpDir, { recursive: true, force: true })] on the variable
    [tmpDir]; with [null] the call throws before it reaches the file
    system. *)
Definition rm_tmpDir (w : World) : M unit :=
  d ← get_tmpDir;
  match d with
  | Some dir => emit (Rm dir);; check (rmSync w dir)
  | None => throw (Error "The path argument must be of type string")
  end.

(** [fs.mkdtempSync(prefix)]: the directory created. *)
Definition mkdtemp (w : World) (prefix : string) : M string :=
  suffix ← of_sum (mkdtempSync w prefix);
  ret (prefix +:+ suffix).

(** [path.resolve(__dirname, rel)], for an absolute [__dirname]. *)
Definition resolve (dir rel : string) : string :=
  "/" +:+ Path.normalizeString (dir +:+ "/" +:+ rel) false.

(** ** The diagnostics of the checker *)

(** [a || b] on strings. *)
Definition or_else (a b : string) : string := if JS.truthy a then a else b.

(** The predicate of the [filter]. *)
Definition keep_line (ln : string) : bool :=
  if negb (JS.truthy (JS.trim ln)) then false
  else if JS.includes ln "error TS2307:" then false
  else if JS.includes ln "error TS7016:" then false
  else true.

(** The function of the [map]. *)
Definition rewrite_line (dir : option string) (ln : string) : string :=
  match dir with
  | Some d => if JS.truthy d && JS.includes ln d then JS.replace ln d "vfs:" else ln
  | None => ln
  end.

Definition cleaned (dir : option string) (rawOutput : string) : string :=
  JS.join JS.nl (map (rewrite_line dir) (List.filter keep_line (JS.split JS.LF rawOutput))).

Definition limit : nat := 2000.

Definition truncation_marker : string :=
  JS.nl +:+ "... (Status: Truncated due to length)".

Definition truncated (cleanedOutput : string) : string :=
  if limit <? JS.length cleanedOutput
  then JS.substring_to limit cleanedOutput +:+ truncation_marker
  else cleanedOutput.

Definition ok (msg : string) : Envelope :=
  {| success := true; output := Some msg; error := None; externals := None; raw := None |}.

Definition failed (msg : string) (rawOutput : option string) : Envelope :=
  {| success := false; output := None; error := Some msg; externals := None;
     raw := rawOutput |}.

(** [stdout || stderr || error.message] *)
Definition raw_output (err : Exc) (out errout : string) : string :=
  or_else out (or_else errout (message err)).

(** The envelope for a checker that exited with an error. *)
Definition report (dir : option string) (err : Exc) (out errout : string) : Envelope :=
  let rawOutput := raw_output err out errout in
  let cleanedOutput := cleaned dir rawOutput in
  if negb (JS.truthy (JS.trim cleanedOutput))
  then ok "No critical errors found (ignored missing modules)."
  else failed (truncated cleanedOutput) (Some rawOutput).

(** ** The request handler *)

(** What the callback of [exec] logs, [dir] being the value of the
    variable [tmpDir]. *)
Definition verdict (dir : option string) (res : ExecResult) : Envelope :=
  match exec_error res with
  | Some err => report dir err (stdout res) (stderr res)
  | None => ok "No errors found."
  end.

(** The callback of [exec]. *)
Definition exec_callback (w : World) (res : ExecResult) : M unit :=
  swallow (rm_tmpDir w);;
  d ← get_tmpDir;
  console_log (verdict d res).

(** [Object.entries(files)]: the own properties of [files], in the order
    of its keys. *)
Definition Object_entries (fs : gmap string string) (keys : list string)
  : list (string * string) :=
  omap (fun key => pair key <$> fs !! key) keys.

(** The loop that writes the files of the request. *)
Fixpoint write_files (w : World) (dir : string) (l : list (string * string)) : M unit :=
  match l with
  | [] => ret tt
  | (filepath, content) :: l' =>
      let fullPath := Path.join dir filepath in
      let d := Path.dirname fullPath in
      emit (Mkdir d);; check (mkdirSync w d);;
      emit (WriteFile fullPath content);; check (writeFileSync w fullPath);;
      write_files w dir l'
  end.

Definition tsc_missing_warning : string :=
  "Warning: TypeScript compiler (tsc) not found in local_compiler. Skipping strict type check.".

(** Where [tsc] is looked for: [None] when it is in neither place. *)
Definition find_tsc (w : World) : option string :=
  let tscPath := resolve (__dirname w) "node_modules/.bin/tsc" in
  if existsSync w tscPath then Some tscPath
  else
    let directPath := resolve (__dirname w) "node_modules/typescript/bin/tsc" in
    if existsSync w directPath then Some directPath else None.

Definition command (tscPath : string) : string :=
  "node " +:+ JS.dq +:+ tscPath +:+ JS.dq +:+ " -p . --noEmit --pretty false".

(** The [try] block.  It ends with the child process started ([Some]:
    what its callback will receive) or without one ([None]). *)
Definition try_block (w : World) (inputData : string) : M (option ExecResult) :=
  (if negb (JS.truthy (JS.trim inputData))
   then throw (Error "No input data received") else ret tt);;
  payload ← of_sum (JSON_parse w inputData);
  dir ← mkdtemp w (Path.join (os_tmpdir w) "nekro-check-");
  emit (Mkdtemp dir);;
  set_tmpDir dir;;
  match files payload with
  | None => throw (Error "Cannot convert undefined or null to object")
  | Some fs =>
      write_files w dir (Object_entries fs (files_keys payload));;
      emit (WriteTsconfig (Path.join dir "tsconfig.json"));;
      check (writeFileSync w (Path.join dir "tsconfig.json"));;
      match find_tsc w with
      | None =>
          console_log (ok tsc_missing_warning);;
          swallow (rm_tmpDir w);;
          ret None
      | Some tscPath =>
          swallow (emit (Symlink (Path.join (__dirname w) "node_modules")
                                 (Path.join dir "node_modules"));;
                   check (symlinkSync w (Path.join (__dirname w) "node_modules")
                                        (Path.join dir "node_modules")));;
          emit (Exec (command tscPath) dir);;
          res ← of_sum (exec w (command tscPath) dir);
          ret (Some res)
      end
  end.

(** The [catch] block. *)
Definition catch_block (w : World) (e : Exc) : M (option ExecResult) :=
  d ← get_tmpDir;
  (match d with
   | Some dir => if JS.truthy dir then swallow (rm_tmpDir w) else ret tt
   | None => ret tt
   end);;
  console_log (failed (message e) None);;
  ret None.

(** The handler of the end of the input, followed by the callback of the
    child process when one was started. *)
Definition handler (w : World) (inputData : string) : M unit :=
  started ← try_catch (try_block w inputData) (catch_block w);
  match started with
  | Some res => exec_callback w res
  | None => ret tt
  end.

Definition initial : State := {| tmpDir := None; trace := [] |}.

(** The calls made for a request, in order. *)
Definition on_end (w : World) (inputData : string) : list Event :=
  trace (handler w inputData initial).1.

(** The envelopes written to standard output, in order. *)
Definition logged (t : list Event) : list Envelope :=
  omap (fun ev => match ev with Log e => Some e | _ => None end) t.

End Check.

(* ===================================================================== *)
(** * The statements of the specification *)
(* ===================================================================== *)

Module Spec.

Import Build.

(** [s] starts with [p]; [s] ends with [p]. *)
Definition starts_with (s p : string) : Prop := ∃ rest, s = p +:+ rest.
Definition ends_with (s p : string) : Prop := ∃ stem, s = stem +:+ p.

(** A path without its leading separator, if it has one. *)
Definition strip_separator (p : string) : string :=
  match p with
  | String "/" rest => rest
  | _ => p
  end.

(** The resolution policy, rule by rule in its order: the entry point;
    a root-absolute specifier; the alias prefix; a relative specifier; a
    stylesheet; anything else is external.  A key of the virtual file
    set is a path in the namespace [vfs], an ignored stylesheet a path in
    the namespace [ignore-css]. *)
Inductive Resolution (a : OnResolveArgs) : OnResolveResult -> Prop :=
| entry_point :
    kind a = "entry-point" ->
    Resolution a (in_namespace (path a) "vfs")
| root_absolute rest :
    kind a ≠ "entry-point" ->
    path a = "/" +:+ rest ->
    Resolution a (in_namespace rest "vfs")
| aliased rest :
    kind a ≠ "entry-point" ->
    path a = "@/" +:+ rest ->
    Resolution a (in_namespace ("src/" +:+ rest) "vfs")
| relative :
    kind a ≠ "entry-point" ->
    starts_with (path a) "." ->
    Resolution a
      (in_namespace (strip_separator (Path.join (Path.dirname (importer a)) (path a))) "vfs")
| stylesheet :
    kind a ≠ "entry-point" ->
    ¬ starts_with (path a) "/" -> ¬ starts_with (path a) "@/" ->
    ¬ starts_with (path a) "." ->
    ends_with (path a) ".css" ->
    Resolution a (in_namespace (path a) "ignore-css")
| bare :
    kind a ≠ "entry-point" ->
    ¬ starts_with (path a) "/" -> ¬ starts_with (path a) "@/" ->
    ¬ starts_with (path a) "." ->
    ¬ ends_with (path a) ".css" ->
    Resolution a (as_external (path a)).

(** A segment that is neither empty nor [.] nor [..], and holds no
    separator. *)
Definition ordinary (seg : string) : Prop :=
  seg ≠ "" ∧ seg ≠ "." ∧ seg ≠ ".." ∧ JS.includes seg "/" = false.


(** The imports the bundler asks the plugin to resolve during a run, in
    order. *)
Fixpoint requests (fs : option (gmap string string)) (e : Engine)
    (collectedExternals : list string) : list OnResolveArgs :=
  match e with
  | Finish _ => []
  | Resolve args k =>
      let '(r, collected) := onResolve collectedExternals args in
      args :: requests fs (k r) collected
  | Load ns p k => requests fs (k (onLoad fs ns p)) collectedExternals
  end.

(** What is assumed of the bundler where a statement is about a whole
    build: it resolves its entry point with the kind [entry-point] and
    loads what the plugin answers, and when that load reports errors the
    build is rejected with an error that holds their texts. *)
Definition starts_at_entry (engine : BuildOptions -> Engine) : Prop :=
  ∀ opts entry, entryPoints opts = [entry] ->
    ∃ k, engine opts
         = Resolve {| path := entry; importer := ""; kind := "entry-point" |} k ∧
      ∀ p ns, ∃ k', k (in_namespace p ns) = Load ns p k' ∧
        ∀ m ms, ∃ e, k' (Some (LoadErrors (m :: ms))) = Finish (Rejected e) ∧
          ∀ m', m' ∈ m :: ms -> ∃ m'', m'' ∈ errors e ∧ text m'' = text m'.

(** A line of the checker that is not reported: a blank line, or a line
    that holds the code of a module that cannot be found or of a missing
    declaration file. *)
Definition suppressed (ln : string) : bool :=
  String.eqb (JS.trim ln) "" || JS.includes ln "error TS2307:"
  || JS.includes ln "error TS7016:".

(** The lines of a text that are reported, in their order. *)
Definition reported_lines (output : string) : list string :=
  List.filter (fun ln => negb (suppressed ln)) (JS.split JS.LF output).

(** In a sequence of calls, every envelope logged once a scope exists
    comes after a call that removes this scope.  [created] is the scope
    in existence, [removed] whether its removal has been called. *)
Fixpoint removed_before_response (created : option string) (removed : bool)
    (t : list Check.Event) : bool :=
  match t with
  | [] => true
  | Check.Mkdtemp d :: t' => removed_before_response (Some d) false t'
  | Check.Rm d :: t' =>
      removed_before_response created
        (removed || bool_decide (created = Some d)) t'
  | Check.Log _ :: t' =>
      match created with
      | Some _ => removed && removed_before_response created removed t'
      | None => removed_before_response created removed t'
      end
  | _ :: t' => removed_before_response created removed t'
  end.

Definition cleanup_before_response (t : list Check.Event) : bool :=
  removed_before_response None false t.

End Spec.

(* ===================================================================== *)
(** * Sample requests, bundlers and machines *)
(* ===================================================================== *)

Module Sample.

Import Build.

(** A bundler that resolves its entry point, loads the answer and stops. *)
Definition single_file (opts : BuildOptions) : Engine :=
  Resolve {| path := hd "" (entryPoints opts); importer := ""; kind := "entry-point" |}
    (fun r =>
       match res_namespace r with
       | Some ns =>
           Load ns (res_path r)
             (fun answer =>
                match answer with
                | Some (Loaded contents _) =>
                    Finish (Built [ {| out_path := outfile opts; out_text := contents |} ])
                | Some (LoadedInherited _ _) =>
                    Finish (Rejected (Error "The contents must be a string or a Uint8Array"))
                | Some (LoadErrors errs) =>
                    Finish (Rejected {| message := "Build failed"; errors := errs |})
                | Some (LoadThrew e) => Finish (Rejected e)
                | None => Finish (Rejected (Error "No loader"))
                end)
       | None => Finish (Built [])
       end).

(** A bundler that makes the given resolve calls and emits the given
    files. *)
Fixpoint scripted (calls : list OnResolveArgs) (outs : list OutputFile) : Engine :=
  match calls with
  | [] => Finish (Built outs)
  | a :: calls' => Resolve a (fun _ => scripted calls' outs)
  end.

Definition import_from (from specifier : string) : OnResolveArgs :=
  {| path := specifier; importer := from; kind := "import-statement" |}.

(** A request with the given files and no variables. *)
Definition request (fs : gmap string string) : Payload :=
  {| files := Some fs; env_vars := None; files_keys := (map_to_list fs).*1 |}.

(** A request whose files are given in their order. *)
Definition request_in_order (l : list (string * string)) : Payload :=
  {| files := Some (list_to_map l); env_vars := None; files_keys := l.*1 |}.

(** A request without files. *)
Definition no_files : Payload :=
  {| files := None; env_vars := None; files_keys := [] |}.

(** A request as the parser returns it, whatever the text. *)
Definition parsed (fs : gmap string string) (_ : string) : Exc + Payload :=
  inr (request fs).

(** The text of a request with one file. *)
Definition request_text : string :=
  "{" +:+ JS.JSON_stringify "files" +:+ ": {" +:+ JS.JSON_stringify "src/main.tsx" +:+ ": "
      +:+ JS.JSON_stringify "export {}" +:+ "}}".

(** A machine on which no call fails; [installed] tells whether [tsc]
    is there, [result] what the checker answers. *)
Definition machine (installed : bool) (result : Check.ExecResult) : Check.World :=
  {| Check.JSON_parse := parsed {[ "src/main.tsx" := "export {}" ]};
     Check.os_tmpdir := "/tmp";
     Check.__dirname := "/app/local_compiler";
     Check.mkdtempSync := fun _ => inr "Ab12Cd";
     Check.mkdirSync := fun _ => None;
     Check.writeFileSync := fun _ => None;
     Check.existsSync := fun _ => installed;
     Check.symlinkSync := fun _ _ => None;
     Check.rmSync := fun _ => None;
     Check.exec := fun _ _ => inr result |}.

(** The same machine for another request. *)
Definition machine_for (payload : Payload) (result : Check.ExecResult) : Check.World :=
  {| Check.JSON_parse := fun _ => inr payload;
     Check.os_tmpdir := "/tmp";
     Check.__dirname := "/app/local_compiler";
     Check.mkdtempSync := fun _ => inr "Ab12Cd";
     Check.mkdirSync := fun _ => None;
     Check.writeFileSync := fun _ => None;
     Check.existsSync := fun _ => true;
     Check.symlinkSync := fun _ _ => None;
     Check.rmSync := fun _ => None;
     Check.exec := fun _ _ => inr result |}.

Definition no_errors : Check.ExecResult :=
  {| Check.exec_error := None; Check.stdout := ""; Check.stderr := "" |}.

Definition scope : string := "/tmp/nekro-check-Ab12Cd".

Fixpoint repeat_char (c : ascii) (n : nat) : string :=
  match n with
  | 0 => ""
  | S n' => String c (repeat_char c n')
  end.

(** A diagnostic of 2033 characters. *)
Definition long_line : string :=
  "src/main.tsx(1,1): error TS2322: " +:+ repeat_char "x" 2000.

(** A diagnostic that names the scope twice, followed by one for a
    module that is not installed. *)
Definition two_references : string :=
  scope +:+ "/src/main.tsx(3,7): error TS2322: Type 'import(" +:+ scope +:+
  "/src/b).T' is not assignable to type 'string'." +:+ JS.nl +:+
  "src/main.tsx(1,20): error TS2307: Cannot find module 'left-pad'.".

(** A checker that fails with nothing but diagnostics for modules that
    are not installed, on its standard output. *)
Definition only_noise : Check.ExecResult :=
  {| Check.exec_error := Some (Error "Command failed");
     Check.stdout :=
       "src/main.tsx(1,20): error TS2307: Cannot find module 'left-pad'." +:+ JS.nl +:+
       "src/main.tsx(2,20): error TS7016: Could not find a declaration file for module 'x'."
       +:+ JS.nl;
     Check.stderr := "" |}.

(** A checker that fails with a type error among such diagnostics, on its
    standard error. *)
Definition noise_and_error : Check.ExecResult :=
  {| Check.exec_error := Some (Error "Command failed");
     Check.stdout := "";
     Check.stderr :=
       "src/main.tsx(1,20): error TS2307: Cannot find module 'left-pad'." +:+ JS.nl +:+
       "src/main.tsx(3,7): error TS2322: Type 'number' is not assignable to type 'string'."
       +:+ JS.nl |}.

(** A checker that fails with one diagnostic of 2033 characters. *)
Definition long_diagnostic : Check.ExecResult :=
  {| Check.exec_error := Some (Error "Command failed");
     Check.stdout := long_line;
     Check.stderr := "" |}.

(** Three files, in the order of a request, and the text of that
    request. *)
Definition three_files : list (string * string) :=
  [ ("b/c/d.css", "body{}"); ("src/a.ts", "export const a=1");
    ("src/main.tsx", "import './a'") ].

Definition three_files_text : string :=
  "{" +:+ JS.JSON_stringify "files" +:+ ": {" +:+
  JS.join ", "
    (map (fun kv => JS.JSON_stringify kv.1 +:+ ": " +:+ JS.JSON_stringify kv.2) three_files)
  +:+ "}}".

End Sample.

(* ===================================================================== *)
(** * Notions used in the proofs *)
(* ===================================================================== *)

(** [define_entry] is the function mapped over the entries of [env_vars]. *)
Definition define_entry (kv : string * string) : string * string :=
  ("process.env." +:+ kv.1, JS.JSON_stringify kv.2).

(** The stack of [normalizeString]: ordinary segments on top of a run of
    [..], which is empty when the path may not climb above its root. *)
Definition stack_ok (allowAboveRoot : bool) (stack : list string) : Prop :=
  ∃ n rest, stack = rest ++ replicate n ".." ∧ Forall Spec.ordinary rest ∧
            (allowAboveRoot = false → n = 0).

(** A string of white space only. *)
Fixpoint blank (s : string) : bool :=
  match s with
  | EmptyString => true
  | String c s' => JS.is_white_space c && blank s'
  end.

(** The calls of check.js that build the scope and start the checker. *)
Definition is_setup (ev : Check.Event) : bool :=
  match ev with
  | Check.Mkdir _ | Check.WriteFile _ _ | Check.WriteTsconfig _
  | Check.Symlink _ _ | Check.Exec _ _ => true
  | _ => false
  end.

(** The state of the handler of check.js once the scope [d] exists, [evs]
    being the calls made since. *)
Definition scoped (d : string) (evs : list Check.Event) : Check.State :=
  {| Check.tmpDir := Some d; Check.trace := Check.Mkdtemp d :: evs |}.

(** How the [try] block of check.js can end. *)
Inductive TryOutcome (w : Check.World)
  : Check.State * (Exc + option Check.ExecResult) -> Prop :=
| threw_before_scope e :
    TryOutcome w (Check.initial, inl e)
| threw_in_scope d evs e :
    d ≠ "" ->
    forallb is_setup evs = true ->
    TryOutcome w (scoped d evs, inl e)
| checker_missing d evs :
    d ≠ "" ->
    forallb is_setup evs = true ->
    Check.find_tsc w = None ->
    TryOutcome w
      (scoped d (evs ++ [Check.Log (Check.ok Check.tsc_missing_warning); Check.Rm d]),
       inr None)
| checker_started d evs tscPath res :
    d ≠ "" ->
    forallb is_setup evs = true ->
    Check.find_tsc w = Some tscPath ->
    Check.exec w (Check.command tscPath) d = inr res ->
    TryOutcome w (scoped d evs, inr (Some res)).

(** The calls of a request of check.js, by the way it ends: rejected
    before a scope exists; rejected with a scope; the checker is not
    installed; the checker ran. *)
Inductive Run (w : Check.World) : list Check.Event -> Prop :=
| rejected_before_scope e :
    Run w [Check.Log (Check.failed (message e) None)]
| rejected_in_scope d evs e :
    d ≠ "" ->
    forallb is_setup evs = true ->
    Run w (Check.Mkdtemp d :: evs
             ++ [Check.Rm d; Check.Log (Check.failed (message e) None)])
| skipped d evs :
    d ≠ "" ->
    forallb is_setup evs = true ->
    Check.find_tsc w = None ->
    Run w (Check.Mkdtemp d :: evs
             ++ [Check.Log (Check.ok Check.tsc_missing_warning); Check.Rm d])
| checked d evs tscPath res :
    d ≠ "" ->
    forallb is_setup evs = true ->
    Check.find_tsc w = Some tscPath ->
    Check.exec w (Check.command tscPath) d = inr res ->
    Run w (Check.Mkdtemp d :: evs
             ++ [Check.Rm d; Check.Log (Check.verdict (Some d) res)]).

(** The world [w] with another answer to the removal of a directory. *)
Definition with_rmSync (rm : string -> option Exc) (w : Check.World) : Check.World :=
  {| Check.JSON_parse := Check.JSON_parse w;
     Check.os_tmpdir := Check.os_tmpdir w;
     Check.__dirname := Check.__dirname w;
     Check.mkdtempSync := Check.mkdtempSync w;
     Check.mkdirSync := Check.mkdirSync w;
     Check.writeFileSync := Check.writeFileSync w;
     Check.existsSync := Check.existsSync w;
     Check.symlinkSync := Check.symlinkSync w;
     Check.rmSync := rm;
     Check.exec := Check.exec w |}.

(* ===================================================================== *)
(** * Further notions *)
(* ===================================================================== *)

(** The key holds text: it is a property of the files whose value is not
    the empty string. *)
Definition has_text (fs : gmap string string) (key : string) : Prop :=
  ∃ content, fs !! key = Some content ∧ content ≠ "".

(** The key names an inherited member: it is no key of the files and it
    is the name of a property of [Object.prototype]. *)
Definition inherited (fs : gmap string string) (key : string) : Prop :=
  fs !! key = None ∧ key ∈ JS.Object_prototype.

(** The resolve call answers [external]. *)
Definition classified_external (a : Build.OnResolveArgs) : bool :=
  Build.res_external (Build.onResolve [] a).1.

(** The specifiers of the calls of a run that were answered [external],
    in the order of the calls. *)
Definition bare_specifiers (calls : list Build.OnResolveArgs) : list string :=
  Build.path <$> filter (fun a => classified_external a = true) calls.

(** The table of the [switch] of [getLoader]: extension and loader. *)
Definition loaders : list (string * string) :=
  [ (".js", "jsx"); (".jsx", "jsx"); (".ts", "ts"); (".tsx", "tsx");
    (".css", "css"); (".json", "json") ].

(** The string holds the character. *)
Definition has_char (c : ascii) (s : string) : Prop := In c (list_ascii_of_string s).

(** An output file of the bundler named [*.js]; one named [*.css] and not
    [*.js]. *)
Definition is_js (f : Build.OutputFile) : Prop := JS.endsWith (Build.out_path f) ".js" = true.
Definition is_css (f : Build.OutputFile) : Prop :=
  JS.endsWith (Build.out_path f) ".js" = false ∧ JS.endsWith (Build.out_path f) ".css" = true.

(** The world [w] with another answer to the linking of [node_modules]. *)
Definition with_symlinkSync (link : string -> string -> option Exc) (w : Check.World)
  : Check.World :=
  {| Check.JSON_parse := Check.JSON_parse w;
     Check.os_tmpdir := Check.os_tmpdir w;
     Check.__dirname := Check.__dirname w;
     Check.mkdtempSync := Check.mkdtempSync w;
     Check.mkdirSync := Check.mkdirSync w;
     Check.writeFileSync := Check.writeFileSync w;
     Check.existsSync := Check.existsSync w;
     Check.symlinkSync := link;
     Check.rmSync := Check.rmSync w;
     Check.exec := Check.exec w |}.

(** The calls that write the files of a request into the scope [d]: for
    each file, its directory is made and its content written, at the key
    joined to the scope. *)
Definition materialized (d : string) (l : list (string * string)) : list Check.Event :=
  flat_map
    (fun '(filepath, content) =>
       [ Check.Mkdir (Path.dirname (Path.join d filepath));
         Check.WriteFile (Path.join d filepath) content ])
    l.

(** The files of a request in the order of its keys: each key with the
    content stored under it. *)
Definition entries_in_order (fs : gmap string string) (keys : list string)
  : list (string * string) :=
  (fun key => (key, default "" (fs !! key))) <$> keys.

(** The messages of the successful responses of check.js. *)
Definition success_messages : list string :=
  [ "No errors found.";
    "No critical errors found (ignored missing modules).";
    Check.tsc_missing_warning ].

(** The calls a request of check.js may make once its scope [d] exists:
    making the directory of a file of the request and writing its content
    at its key joined to the scope; writing the configuration; linking
    [node_modules]; starting the checker found, in the scope; removing the
    scope; logging. *)
Definition expected_call (w : Check.World) (d : string) (fs : gmap string string)
    (ev : Check.Event) : Prop :=
  match ev with
  | Check.Mkdtemp p => p = d
  | Check.Mkdir p => ∃ key content, fs !! key = Some content ∧
                                    p = Path.dirname (Path.join d key)
  | Check.WriteFile p content => ∃ key, fs !! key = Some content ∧ p = Path.join d key
  | Check.WriteTsconfig p => p = Path.join d "tsconfig.json"
  | Check.Symlink target p =>
      target = Path.join (Check.__dirname w) "node_modules" ∧
      p = Path.join d "node_modules"
  | Check.Exec cmd cwd =>
      cwd = d ∧ ∃ tscPath, Check.find_tsc w = Some tscPath ∧
                           Check.existsSync w tscPath = true ∧
                           cmd = Check.command tscPath
  | Check.Rm p => p = d
  | Check.Log _ => True
  end.

(** How the [try] block of check.js can end, with the calls it has made:
    before a scope exists nothing has been called; afterwards every call is
    an expected one. *)
Inductive TryCalls (w : Check.World) (inputData : string)
  : Check.State * (Exc + option Check.ExecResult) → Prop :=
  | calls_none e : TryCalls w inputData (Check.initial, inl e)
  | calls_scoped payload suffix evs r :
      Check.JSON_parse w inputData = inr payload →
      Check.mkdtempSync w (Path.join (Check.os_tmpdir w) "nekro-check-") = inr suffix →
      Forall (expected_call w (Path.join (Check.os_tmpdir w) "nekro-check-" +:+ suffix)
                (default ∅ (files payload))) evs →
      TryCalls w inputData
        (scoped (Path.join (Check.os_tmpdir w) "nekro-check-" +:+ suffix) evs, r).

(* ===================================================================== *)
(** * Facts about strings *)
(* ===================================================================== *)

Section string_facts.

Implicit Types s p t : string.

Lemma append_nil t : "" +:+ t = t.
Proof. reflexivity. Qed.

Lemma append_cons c s t : String c s +:+ t = String c (s +:+ t).
Proof. reflexivity. Qed.

Lemma append_empty_r s : s +:+ "" = s.
Proof. induction s as [|c s IH]; [done | by rewrite append_cons, IH]. Qed.

Lemma append_assoc s t u : (s +:+ t) +:+ u = s +:+ (t +:+ u).
Proof. induction s as [|c s IH]; [done | by rewrite !append_cons, IH]. Qed.

Lemma append_length s t : String.length (s +:+ t) = String.length s + String.length t.
Proof. induction s as [|c s IH]; [done | rewrite append_cons; simpl; by rewrite IH]. Qed.

Lemma append_inv_l p s t : p +:+ s = p +:+ t → s = t.
Proof.
  induction p as [|c p IH]; [done |]. rewrite !append_cons. intros [= H]. auto.
Qed.

Lemma startsWith_append p rest : JS.startsWith (p +:+ rest) p = true.
Proof.
  unfold JS.startsWith. induction p as [|c p IH].
  - by destruct rest.
  - rewrite append_cons. simpl. destruct (ascii_dec c c); [done | congruence].
Qed.

Lemma startsWith_inv s p :
  JS.startsWith s p = true → s = p +:+ JS.substring_from (String.length p) s.
Proof.
  unfold JS.startsWith. revert s. induction p as [|c p IH]; intros s.
  - done.
  - destruct s as [|d s]; [done |]. simpl.
    destruct (ascii_dec c d) as [->|]; [| done].
    intros H. by rewrite append_cons, <- (IH s H).
Qed.

Lemma substring_from_append p rest :
  JS.substring_from (String.length p) (p +:+ rest) = rest.
Proof. induction p as [|c p IH]; [done | rewrite append_cons; exact IH]. Qed.

Lemma startsWith_spec s p :
  JS.startsWith s p = true ↔ ∃ rest, s = p +:+ rest.
Proof.
  split.
  - intros H. eexists. by apply startsWith_inv.
  - intros [rest ->]. apply startsWith_append.
Qed.

Lemma endsWith_unfold s p :
  JS.endsWith s p =
  String.eqb s p || match s with "" => false | String _ s' => JS.endsWith s' p end.
Proof. by destruct s. Qed.

Lemma includes_unfold s p :
  JS.includes s p =
  JS.startsWith s p || match s with "" => false | String _ s' => JS.includes s' p end.
Proof. by destruct s. Qed.

Lemma endsWith_append stem p : JS.endsWith (stem +:+ p) p = true.
Proof.
  induction stem as [|c stem IH].
  - rewrite append_nil, endsWith_unfold. by rewrite String.eqb_refl.
  - rewrite append_cons, endsWith_unfold, IH. apply orb_true_r.
Qed.

Lemma endsWith_spec s p :
  JS.endsWith s p = true ↔ ∃ stem, s = stem +:+ p.
Proof.
  split.
  - induction s as [|c s IH]; rewrite endsWith_unfold.
    + rewrite orb_false_r. intros H%String.eqb_eq. by exists "".
    + intros [H%String.eqb_eq | H]%orb_true_iff.
      * by exists "".
      * destruct (IH H) as [stem ->]. by exists (String c stem).
  - intros [stem ->]. apply endsWith_append.
Qed.

Lemma includes_append pre p post : JS.includes (pre +:+ p +:+ post) p = true.
Proof.
  induction pre as [|c pre IH].
  - rewrite append_nil, includes_unfold. by rewrite startsWith_append.
  - rewrite append_cons, includes_unfold, IH. apply orb_true_r.
Qed.

Lemma includes_spec s p :
  JS.includes s p = true ↔ ∃ pre post, s = pre +:+ p +:+ post.
Proof.
  split.
  - induction s as [|c s IH]; rewrite includes_unfold.
    + rewrite orb_false_r. intros [post H]%startsWith_spec. by exists "", post.
    + intros [[post H]%startsWith_spec | H]%orb_true_iff.
      * by exists "", post.
      * destruct (IH H) as (pre & post & ->). by exists (String c pre), post.
  - intros (pre & post & ->). apply includes_append.
Qed.

Lemma truthy_spec s : JS.truthy s = true ↔ s ≠ "".
Proof.
  unfold JS.truthy. rewrite negb_true_iff. split.
  - intros H ->. by rewrite String.eqb_refl in H.
  - intros H. by apply String.eqb_neq.
Qed.

Lemma truthy_false s : JS.truthy s = false ↔ s = "".
Proof.
  unfold JS.truthy. rewrite negb_false_iff. apply String.eqb_eq.
Qed.

Lemma substring_to_length n s :
  n ≤ String.length s → String.length (JS.substring_to n s) = n.
Proof.
  revert s. induction n as [|n IH]; intros [|c s]; simpl; try done; try lia.
  intros H. rewrite IH; lia.
Qed.

Lemma substring_to_all n s :
  String.length s ≤ n → JS.substring_to n s = s.
Proof.
  revert s. induction n as [|n IH]; intros [|c s]; simpl; try done; try lia.
  intros H. rewrite IH; [done | lia].
Qed.

Lemma substring_to_from n s :
  JS.substring_to n s +:+ JS.substring_from n s = s.
Proof.
  revert s. induction n as [|n IH]; intros [|c s]; simpl; try done.
  by rewrite append_cons, IH.
Qed.

End string_facts.

(* ===================================================================== *)
(** * Normalization of paths *)
(* ===================================================================== *)

Section normalization.

Lemma includes_slash_cons c s :
  JS.includes (String c s) "/" = Path.is_slash c || JS.includes s "/".
Proof.
  rewrite includes_unfold. f_equal.
  unfold JS.startsWith, Path.is_slash, Path.slash.
  change (String.prefix "/" (String c s))
    with (if ascii_dec "/" c then String.prefix "" s else false).
  destruct (ascii_dec "/" c) as [<-|Hne].
  - by destruct s.
  - symmetry. apply Ascii.eqb_neq. congruence.
Qed.

(** The pieces of a split hold no separator. *)
Lemma split_no_slash s seg :
  In seg (JS.split Path.slash s) → JS.includes seg "/" = false.
Proof.
  revert seg. induction s as [|c s IH]; intros seg; simpl.
  - by intros [<-|[]].
  - destruct (Ascii.eqb c Path.slash) eqn:Hc.
    + intros [<-|H]; [done | by apply IH].
    + destruct (JS.split Path.slash s) as [|h t] eqn:Hs.
      * intros [<-|[]]. rewrite includes_slash_cons. unfold Path.is_slash. by rewrite Hc.
      * intros [<-|H].
        -- rewrite includes_slash_cons. unfold Path.is_slash. rewrite Hc. simpl.
           apply IH. by left.
        -- apply IH. by right.
Qed.

Lemma normalize_step_ok allow stack seg :
  stack_ok allow stack → JS.includes seg "/" = false →
  stack_ok allow (Path.normalize_step allow stack seg).
Proof.
  intros (n & rest & -> & Hrest & Hn) Hseg. unfold Path.normalize_step.
  destruct (String.eqb_spec seg "") as [->|Hne]; simpl.
  { by exists n, rest. }
  destruct (String.eqb_spec seg ".") as [->|Hdot]; simpl.
  { by exists n, rest. }
  destruct (String.eqb_spec seg "..") as [->|Hdots].
  - destruct rest as [|top rest]; simpl.
    + destruct n as [|n]; simpl.
      * destruct allow; [by exists 1, [] | by exists 0, []].
      * destruct allow; [by exists (S (S n)), [] | by exists (S n), []].
    + apply Forall_cons in Hrest as [Htop Hrest].
      destruct (String.eqb_spec top "..") as [->|_].
      * by destruct Htop as (_ & _ & ? & _).
      * by exists n, rest.
  - exists n, (seg :: rest). split_and!; [done | | done].
    apply Forall_cons. by split.
Qed.

Lemma fold_normalize_ok allow segs stack :
  stack_ok allow stack → Forall (fun seg => JS.includes seg "/" = false) segs →
  stack_ok allow (fold_left (Path.normalize_step allow) segs stack).
Proof.
  revert stack. induction segs as [|seg segs IH]; intros stack Hst Hsegs; simpl.
  - done.
  - apply Forall_cons in Hsegs as [Hseg Hsegs].
    apply IH; [by apply normalize_step_ok | done].
Qed.

Lemma rev_is_reverse {A} (l : list A) : rev l = reverse l.
Proof. unfold reverse. apply rev_alt. Qed.

(** Normalization collapses the [..] segments; none is left for an
    absolute path. *)
Lemma normalize_segments_collapsed allow s :
  ∃ n rest,
    Path.normalize_segments allow (JS.split Path.slash s) = replicate n ".." ++ rest ∧
    Forall Spec.ordinary rest ∧ (allow = false → n = 0).
Proof.
  destruct (fold_normalize_ok allow (JS.split Path.slash s) []) as (n & rest & H & Hrest & Hn).
  - by exists 0, [].
  - apply Forall_forall. intros seg Hin. apply (split_no_slash s).
    by apply list_elem_of_In.
  - exists n, (rev rest). unfold Path.normalize_segments. rewrite H.
    rewrite rev_app_distr. split_and!; [| | done].
    + f_equal. rewrite rev_is_reverse. apply reverse_replicate.
    + rewrite rev_is_reverse. by apply Forall_reverse.
Qed.

Lemma dirname_truthy p : Path.dirname p ≠ "".
Proof.
  unfold Path.dirname. destruct p as [|c0 rest]; [done |].
  destruct (Path.skip_segment _) as [|? before]; [by destruct (Path.is_slash c0) |].
  by destruct (Path.is_slash c0 && _).
Qed.

Lemma strip_separator_head c s :
  Path.is_slash c = false → Spec.strip_separator (String c s) = String c s.
Proof.
  intros H. destruct c as [[] [] [] [] [] [] [] []]; try done.
Qed.

Lemma strip_separator_slash s : Spec.strip_separator ("/" +:+ s) = s.
Proof. done. Qed.

Lemma join_cons sep x l :
  JS.join sep (x :: l) = match l with [] => x | _ => x +:+ sep +:+ JS.join sep l end.
Proof. by destruct l. Qed.

(** A non-empty collapsed path does not start with a separator. *)
Lemma collapsed_join_head n rest :
  Forall Spec.ordinary rest → JS.join "/" (replicate n ".." ++ rest) ≠ "" →
  ∃ c t, JS.join "/" (replicate n ".." ++ rest) = String c t ∧ Path.is_slash c = false.
Proof.
  intros Hrest Hne.
  assert (∀ seg l, (seg = ".." ∨ Spec.ordinary seg) →
            ∃ c t, JS.join "/" (seg :: l) = String c t ∧ Path.is_slash c = false) as Hhead.
  { intros seg l Hseg. rewrite join_cons.
    assert (∃ c t, seg = String c t ∧ Path.is_slash c = false) as (c & t & -> & Hc).
    { destruct Hseg as [->|(Hne' & _ & _ & Hsl)]; [by exists "."%char, "." |].
      destruct seg as [|c t]; [done |]. exists c, t. split; [done |].
      rewrite includes_slash_cons in Hsl. by apply orb_false_iff in Hsl as [? _]. }
    destruct l; [by exists c, t |]. rewrite append_cons. by eexists c, _. }
  destruct n as [|n]; simpl in *.
  - destruct rest as [|seg rest]; [done |].
    apply Hhead. right. by apply Forall_cons in Hrest as [? _].
  - apply Hhead. by left.
Qed.


End normalization.

(* ===================================================================== *)
(** * The resolver of build.js *)
(* ===================================================================== *)

Section resolver.

Import Build.

Lemma strip_separator_code p :
  (if JS.startsWith p "/" then JS.substring_from 1 p else p) = Spec.strip_separator p.
Proof.
  destruct p as [|c p]; [done |].
  unfold JS.startsWith. simpl.
  destruct (ascii_dec "/" c) as [<-|Hne].
  - by destruct p.
  - by destruct c as [[] [] [] [] [] [] [] []].
Qed.

Lemma starts_with_iff s p : Spec.starts_with s p ↔ JS.startsWith s p = true.
Proof. symmetry. apply startsWith_spec. Qed.

Lemma ends_with_iff s p : Spec.ends_with s p ↔ JS.endsWith s p = true.
Proof. symmetry. apply endsWith_spec. Qed.

Lemma not_starts_with_iff s p : ¬ Spec.starts_with s p ↔ JS.startsWith s p = false.
Proof. rewrite starts_with_iff. apply not_true_iff_false. Qed.

Lemma not_ends_with_iff s p : ¬ Spec.ends_with s p ↔ JS.endsWith s p = false.
Proof. rewrite ends_with_iff. apply not_true_iff_false. Qed.

Lemma alias_not_absolute rest : JS.startsWith ("@/" +:+ rest) "/" = false.
Proof. done. Qed.

Lemma relative_not_absolute s :
  JS.startsWith s "." = true → JS.startsWith s "/" = false ∧ JS.startsWith s "@/" = false.
Proof. intros [rest ->]%startsWith_spec. done. Qed.


(** The policy leaves no choice. *)
Lemma policy_determines collected a r :
  Spec.Resolution a r → r = (onResolve collected a).1.
Proof.
  intros H. unfold onResolve. destruct H as
    [Hk | rest Hk Hp | rest Hk Hp | Hk Hrel | Hk H1 H2 H3 Hcss | Hk H1 H2 H3 Hcss].
  - rewrite Hk. done.
  - apply String.eqb_neq in Hk. rewrite Hk, Hp.
    rewrite startsWith_append. simpl. done.
  - apply String.eqb_neq in Hk. rewrite Hk, Hp.
    rewrite alias_not_absolute, startsWith_append. simpl. done.
  - apply String.eqb_neq in Hk. rewrite Hk.
    apply starts_with_iff in Hrel. destruct (relative_not_absolute _ Hrel) as [-> ->].
    rewrite Hrel. simpl. by rewrite strip_separator_code.
  - apply String.eqb_neq in Hk. rewrite Hk.
    apply not_starts_with_iff in H1, H2, H3. apply ends_with_iff in Hcss.
    by rewrite H1, H2, H3, Hcss.
  - apply String.eqb_neq in Hk. rewrite Hk.
    apply not_starts_with_iff in H1, H2, H3. apply not_ends_with_iff in Hcss.
    by rewrite H1, H2, H3, Hcss.
Qed.

End resolver.


(* ===================================================================== *)
(** * The loader of build.js *)
(* ===================================================================== *)

Section loader.

Import Build.

Implicit Types fs : gmap string string.

Lemma truthy_at_Some fs key content :
  truthy_at fs key = Some (Own content) ↔ fs !! key = Some content ∧ content ≠ "".
Proof.
  unfold truthy_at, get. destruct (fs !! key) as [c|].
  - destruct (JS.truthy c) eqn:Hc.
    + apply truthy_spec in Hc. split; [by intros [= <-] | by intros [[= <-] _]].
    + apply truthy_false in Hc. split; [done | by intros [[= <-] ?]].
  - destruct (bool_decide _); split; try done; by intros [? _].
Qed.

(** A name that is no own key reads as the inherited member, and only
    such a name does. *)
Lemma truthy_at_Inherited fs key member :
  truthy_at fs key = Some (Inherited member) ↔
  fs !! key = None ∧ key ∈ JS.Object_prototype ∧ member = key.
Proof.
  unfold truthy_at, get. destruct (fs !! key) as [c|].
  - destruct (JS.truthy c); split; try done; by intros [? _].
  - destruct (bool_decide_reflect (key ∈ JS.Object_prototype)) as [Hin|Hout].
    + split; [by intros [= <-] | by intros (_ & _ & ->)].
    + split; [done | by intros (_ & ? & _)].
Qed.

Lemma truthy_at_absent fs key :
  fs !! key = None → key ∉ JS.Object_prototype → truthy_at fs key = None.
Proof.
  unfold truthy_at, get. intros -> Hout. by rewrite bool_decide_eq_false_2.
Qed.

(** No inherited name ends with a probed extension. *)
Lemma variant_not_inherited p ext :
  ext ∈ extensions → p +:+ ext ∉ JS.Object_prototype.
Proof.
  intros Hext Hin.
  assert (JS.endsWith (p +:+ ext) ext = true) as He by apply endsWith_append.
  assert (∀ n, n ∈ JS.Object_prototype → ∀ e, e ∈ extensions → JS.endsWith n e = false)
    as Hno.
  { intros n Hn e He'. unfold JS.Object_prototype in Hn. unfold extensions in He'.
    repeat (apply elem_of_cons in Hn as [->|Hn]); try (by apply elem_of_nil in Hn);
      repeat (apply elem_of_cons in He' as [->|He']);
      try (by apply elem_of_nil in He'); by vm_compute. }
  by rewrite (Hno _ Hin _ Hext) in He.
Qed.

(** A key that is present with text is loaded as it is. *)
Lemma onLoad_exact fs p content :
  fs !! p = Some content → content ≠ "" →
  onLoad_vfs (Some fs) p = Loaded content (getLoader p).
Proof.
  intros Hp Hc. unfold onLoad_vfs.
  by rewrite (proj2 (truthy_at_Some fs p content) (conj Hp Hc)).
Qed.

(** The loop stops at the first extension whose key passes. *)
Lemma probe_first fs p before ext after value :
  Forall (fun e => truthy_at fs (p +:+ e) = None) before →
  truthy_at fs (p +:+ ext) = Some value →
  probe fs p (before ++ ext :: after) = Some (loaded value (getLoader (p +:+ ext))).
Proof.
  intros Hbefore Hext. induction Hbefore as [|e before He _ IH]; simpl.
  - by rewrite Hext.
  - by rewrite He.
Qed.

Lemma probe_none fs p exts :
  Forall (fun e => truthy_at fs (p +:+ e) = None) exts → probe fs p exts = None.
Proof.
  intros H. induction H as [|e exts He _ IH]; simpl; [done | by rewrite He].
Qed.

(** A key that is absent and no inherited name, with every probed variant
    absent, is reported as not found under its own name. *)
Lemma onLoad_not_found fs p :
  fs !! p = None → p ∉ JS.Object_prototype →
  (∀ ext, ext ∈ extensions → fs !! (p +:+ ext) = None) →
  onLoad_vfs (Some fs) p = not_found p.
Proof.
  intros Hp Hout Hexts. unfold onLoad_vfs.
  rewrite (truthy_at_absent _ _ Hp Hout), probe_none; [done |].
  apply Forall_forall. intros ext Hext.
  apply truthy_at_absent; [auto | by apply variant_not_inherited].
Qed.

Lemma not_inherited key :
  bool_decide (key ∈ JS.Object_prototype) = false → key ∉ JS.Object_prototype.
Proof. apply bool_decide_eq_false. Qed.

End loader.

(** C2, at the request
    [{ files: { 'src/main.tsx': ..., 'src/empty.css': '' } }]: the key
    [src/empty.css] is present, yet loading it reports the file as not
    found; and with [src/a.tsx] present but empty, loading [src/a] passes
    over it and uses [src/a.ts]. *)
Theorem empty_file_not_loaded :
  Build.onLoad_vfs
    (Some {[ "src/main.tsx" := "import './empty.css'"; "src/empty.css" := "" ]})
    "src/empty.css"
  = Build.LoadErrors
      [ {| text := "File not found in VFS: src/empty.css"; location := None |} ] ∧
  Build.onLoad_vfs
    (Some {[ "src/main.tsx" := "import './a'"; "src/a.tsx" := "";
             "src/a.ts" := "export const x=1" ]})
    "src/a"
  = Build.Loaded "export const x=1" "ts".
Proof. split; by vm_compute. Qed.

(* ===================================================================== *)
(** * The options of the build *)
(* ===================================================================== *)

Section build_options.

Import Build.

Lemma set_properties_other (l : list (string * string)) (base : gmap string string) k :
  k ∉ l.*1 → set_properties base l !! k = base !! k.
Proof.
  revert base. induction l as [|[k' v'] l IH]; intros base Hk.
  - done.
  - apply not_elem_of_cons in Hk as [Hne Hk].
    change (set_properties (<[k':=v']> base) l !! k = base !! k).
    rewrite IH by done. by rewrite lookup_insert_ne.
Qed.

Lemma set_properties_elem (l : list (string * string)) (base : gmap string string) k v :
  NoDup l.*1 → (k, v) ∈ l → set_properties base l !! k = Some v.
Proof.
  revert base. induction l as [|[k' v'] l IH]; intros base Hnd Hin.
  - by apply elem_of_nil in Hin.
  - apply NoDup_cons in Hnd as [Hk' Hnd].
    apply elem_of_cons in Hin as [[= -> ->]|Hin].
    + change (set_properties (<[k':=v']> base) l !! k' = Some v').
      rewrite set_properties_other by done. apply lookup_insert_eq.
    + by apply IH.
Qed.

Lemma define_keys (env : gmap string string) :
  (define_entry <$> map_to_list env).*1 = (String.append "process.env.") <$> (map_to_list env).*1.
Proof. rewrite <- !list_fmap_compose. by apply list_fmap_ext. Qed.

Lemma define_keys_NoDup (env : gmap string string) :
  NoDup (define_entry <$> map_to_list env).*1.
Proof.
  rewrite define_keys. apply NoDup_fmap_2.
  - intros a b. apply append_inv_l.
  - apply NoDup_fst_map_to_list.
Qed.

End build_options.

(** C8.  For every name [K] with value [v] in [env_vars], the [define]
    option maps [process.env.K] to the JSON string literal of [v]; and it
    maps [process.env.NODE_ENV] to the literal of [development] unless
    [env_vars] has a property [NODE_ENV] (then its value is used). *)
Theorem define_replaces_env_vars :
  (∀ (env : gmap string string) K v,
     env !! K = Some v →
     Build.define (Build.options (Some env)) !! ("process.env." +:+ K)
     = Some (JS.JSON_stringify v)) ∧
  (∀ (env : gmap string string),
     env !! "NODE_ENV" = None →
     Build.define (Build.options (Some env)) !! "process.env.NODE_ENV"
     = Some (JS.JSON_stringify "development")) ∧
  Build.define (Build.options None) !! "process.env.NODE_ENV"
  = Some (JS.JSON_stringify "development") ∧
  Build.define
    (Build.options (Some {[ "API_URL" := "https://example.org"; "NODE_ENV" := "production" ]}))
  = {[ "process.env.API_URL" := JS.dq +:+ "https://example.org" +:+ JS.dq;
       "process.env.NODE_ENV" := JS.dq +:+ "production" +:+ JS.dq ]}.
Proof.
  split_and!.
  - intros env K v HK. simpl. unfold Build.make_define, Build.entries.
    apply set_properties_elem; [apply define_keys_NoDup |].
    apply (list_elem_of_fmap_2 define_entry _ (K, v)).
    by apply elem_of_map_to_list.
  - intros env Hnone. simpl. unfold Build.make_define, Build.entries.
    rewrite set_properties_other; [done |].
    fold define_entry. rewrite define_keys. intros Hin.
    apply list_elem_of_fmap in Hin as (K & HK & Hin).
    change "process.env.NODE_ENV" with ("process.env." +:+ "NODE_ENV") in HK.
    apply append_inv_l in HK as <-.
    apply list_elem_of_fmap in Hin as ([K' v] & HK & Hin).
    apply elem_of_map_to_list in Hin. simpl in HK. subst K'. congruence.
  - done.
  - by vm_compute.
Qed.

(* ===================================================================== *)
(** * The bundle pipeline *)
(* ===================================================================== *)

Section bundle.

Import Build.

Lemma onResolve_pure collected collected' a :
  (onResolve collected a).1 = (onResolve collected' a).1.
Proof.
  unfold onResolve.
  repeat match goal with |- context [if ?b then _ else _] => destruct b end; done.
Qed.

(** A call pushes its specifier exactly when it answers [external]. *)
Lemma onResolve_collects collected a :
  ((onResolve collected a).1 = as_external (path a) ∧
   (onResolve collected a).2 = collected ++ [path a]) ∨
  (res_external (onResolve collected a).1 = false ∧
   (onResolve collected a).2 = collected).
Proof.
  unfold onResolve.
  repeat match goal with |- context [if ?b then _ else _] => destruct b end; auto.
Qed.





(** The only envelope of a request that parses and builds. *)
Lemma on_end_success w inputData env :
  on_end w inputData = [env] → success env = true →
  ∃ payload outs jsCode,
    JSON_parse w inputData = inr payload ∧
    run (files payload) (esbuild_build w (options (env_vars payload))) []
    = (Built outs,
       (run (files payload) (esbuild_build w (options (env_vars payload))) []).2) ∧
    env = success_envelope jsCode
            (run (files payload) (esbuild_build w (options (env_vars payload))) []).2.
Proof.
  unfold on_end, try_block.
  destruct (negb (JS.truthy (JS.trim inputData))); [by intros [= <-] |].
  destruct (JSON_parse w inputData) as [e|payload]; [by intros [= <-] |].
  destruct (run _ _ _) as [[outs|e] collected] eqn:Hrun; [| by intros [= <-]].
  destruct (pick_outputs outs) as [jsCode cssCode].
  intros [= <-] _. eexists payload, outs, _. by rewrite Hrun.
Qed.

End bundle.

(** A build that imports [lodash] from two files, [react] from one, and a
    relative module and a stylesheet besides. *)
Lemma externals_of_a_sample_build :
  Build.on_end
    {| Build.JSON_parse := Sample.parsed ∅;
       Build.esbuild_build := fun _ =>
         Sample.scripted
           [ {| Build.path := "src/main.tsx"; Build.importer := "";
                Build.kind := "entry-point" |};
             Sample.import_from "src/main.tsx" "react";
             Sample.import_from "src/main.tsx" "lodash";
             Sample.import_from "src/a.ts" "lodash";
             Sample.import_from "src/a.ts" "./b";
             Sample.import_from "src/a.ts" "theme.css" ]
           [ {| Build.out_path := "bundle.js"; Build.out_text := "export {}" |} ] |}
    Sample.request_text
  = [ {| success := true; output := Some "export {}"; error := None;
         externals := Some ["react"; "lodash"]; raw := None |} ].
Proof. by vm_compute. Qed.


Section bundle_failure.

Import Build.

Lemma join_includes sep l x :
  x ∈ l → ∃ pre post, JS.join sep l = pre +:+ x +:+ post.
Proof.
  induction l as [|y l IH]; [by intros ?%elem_of_nil |].
  rewrite join_cons. intros [->|Hin]%elem_of_cons.
  - destruct l.
    + exists "", "". by rewrite append_nil, append_empty_r.
    + by exists "", (sep +:+ JS.join sep (s :: l)).
  - destruct (IH Hin) as (pre & post & Hj). destruct l; [by apply elem_of_nil in Hin |].
    rewrite Hj. exists (y +:+ sep +:+ pre), post. by rewrite !append_assoc.
Qed.

Lemma format_error_text m : ∃ rest, format_error m = text m +:+ rest.
Proof.
  unfold format_error. destruct (location m) as [loc|].
  - eexists. by rewrite !append_assoc.
  - exists "". by rewrite append_empty_r.
Qed.

(** The reported message holds the text of every error of a rejection. *)
Lemma errorMsg_includes e m :
  m ∈ errors e → JS.includes (errorMsg e) (text m) = true.
Proof.
  intros Hin. unfold errorMsg. destruct (errors e) as [|m0 ms] eqn:He.
  { by apply elem_of_nil in Hin. }
  destruct (join_includes (JS.nl +:+ JS.nl) (map format_error (m0 :: ms)) (format_error m))
    as (pre & post & ->).
  { by apply list_elem_of_fmap_2. }
  destruct (format_error_text m) as [rest ->].
  apply includes_spec. exists pre, (rest +:+ post). by rewrite !append_assoc.
Qed.

Lemma onLoad_in_vfs fs p : onLoad fs "vfs" p = Some (onLoad_vfs fs p).
Proof. done. Qed.

Lemma single_file_starts_at_entry : Spec.starts_at_entry Sample.single_file.
Proof.
  intros opts entry Hentry. unfold Sample.single_file. rewrite Hentry. simpl.
  eexists. split; [done |]. intros p ns. simpl. eexists. split; [done |].
  intros m ms. eexists. split; [done |]. intros m' Hm'. by exists m'.
Qed.

End bundle_failure.

(** C10.  The entry point of the build is [src/main.tsx] whatever the
    request holds; when the files of the request have neither this key nor
    one of its probed variants, the response is a failure whose error names
    [src/main.tsx] as not found. *)
Theorem entry_point_is_fixed w inputData payload (fs : gmap string string) :
  Spec.starts_at_entry (Build.esbuild_build w) →
  JS.trim inputData ≠ "" →
  Build.JSON_parse w inputData = inr payload →
  files payload = Some fs →
  fs !! "src/main.tsx" = None →
  (∀ ext, ext ∈ Build.extensions → fs !! ("src/main.tsx" +:+ ext) = None) →
  Build.entryPoints (Build.options (env_vars payload)) = ["src/main.tsx"] ∧
  ∃ msg,
    Build.on_end w inputData
    = [ {| success := false; output := None; error := Some msg;
           externals := None; raw := None |} ] ∧
    JS.includes msg "File not found in VFS: src/main.tsx" = true.
Proof.
  intros Hengine Hinput Hparse Hfiles Hentry Hexts. split; [done |].
  destruct (Hengine (Build.options (env_vars payload)) "src/main.tsx" eq_refl)
    as (k & Hstart & Hk).
  destruct (Hk "src/main.tsx" "vfs") as (k' & Hload & Hk').
  set (m := {| text := "File not found in VFS: src/main.tsx"; location := None |}).
  destruct (Hk' m []) as (e & Hfinish & Herrs).
  assert ("src/main.tsx" ∉ JS.Object_prototype) as Hown
    by (apply not_inherited; by vm_compute).
  assert (Build.run (Some fs) (Build.esbuild_build w (Build.options (env_vars payload))) []
          = (Build.Rejected e, [])) as Hrun.
  { rewrite Hstart. cbn [Build.run].
    change (Build.onResolve [] _) with (Build.in_namespace "src/main.tsx" "vfs", @nil string).
    cbn iota. rewrite Hload. cbn [Build.run].
    rewrite onLoad_in_vfs, (onLoad_not_found fs "src/main.tsx" Hentry Hown Hexts).
    change (Build.not_found "src/main.tsx") with (Build.LoadErrors [m]).
    by rewrite Hfinish. }
  unfold Build.on_end, Build.try_block.
  apply truthy_spec in Hinput. rewrite Hinput, Hparse, Hfiles, Hrun. simpl.
  exists (Build.errorMsg e). split; [done |].
  destruct (Herrs m) as (m'' & Hin & Htext); [by left |].
  change "File not found in VFS: src/main.tsx" with (text m).
  rewrite <- Htext. by apply errorMsg_includes.
Qed.

Lemma entry_point_is_fixed_witness :
  ∃ msg,
    Build.on_end
      {| Build.JSON_parse := Sample.parsed {[ "src/App.tsx" := "export default 1" ]};
         Build.esbuild_build := Sample.single_file |}
      "{}"
    = [ {| success := false; output := None; error := Some msg;
           externals := None; raw := None |} ] ∧
    JS.includes msg "File not found in VFS: src/main.tsx" = true.
Proof.
  refine (proj2 (entry_point_is_fixed
    {| Build.JSON_parse := Sample.parsed {[ "src/App.tsx" := "export default 1" ]};
       Build.esbuild_build := Sample.single_file |}
    "{}" (Sample.request {[ "src/App.tsx" := "export default 1" ]})
    {[ "src/App.tsx" := "export default 1" ]} single_file_starts_at_entry _ eq_refl eq_refl _ _)).
  - by vm_compute.
  - by vm_compute.
  - intros ext Hext. unfold Build.extensions in Hext.
    repeat (apply elem_of_cons in Hext as [->|Hext]; [by vm_compute |]).
    by apply elem_of_nil in Hext.
Defined.

(* ===================================================================== *)
(** * The handler of check.js *)
(* ===================================================================== *)

Section check_handler.

Import Check.

Variable w : World.

Lemma bind_unfold {A B} (m : M A) (f : A → M B) s :
  (m ≫= f) s = match m s with
               | (s', inr a) => f a s'
               | (s', inl e) => (s', inl e)
               end.
Proof. done. Qed.

Lemma emit_scoped d evs ev : emit ev (scoped d evs) = (scoped d (evs ++ [ev]), inr tt).
Proof. done. Qed.

Lemma write_files_scoped d evs l :
  forallb is_setup evs = true →
  ∃ evs' r, write_files w d l (scoped d evs) = (scoped d evs', r) ∧
            forallb is_setup evs' = true.
Proof.
  revert evs. induction l as [|[filepath content] l IH]; intros evs Hevs.
  - by exists evs, (inr tt).
  - cbn [write_files]. rewrite bind_unfold, emit_scoped, bind_unfold.
    destruct (mkdirSync w _) as [e|]; cbn [check].
    { exists (evs ++ [Mkdir (Path.dirname (Path.join d filepath))]), (inl e).
      split; [done |]. by rewrite forallb_app, Hevs. }
    unfold ret at 1. rewrite bind_unfold, emit_scoped, bind_unfold.
    destruct (writeFileSync w _) as [e|]; cbn [check].
    { eexists _, (inl e). split; [done |]. by rewrite !forallb_app, Hevs. }
    unfold ret at 1. apply IH. by rewrite !forallb_app, Hevs.
Qed.

(** Removing the scope never throws out of its [try], and makes one call. *)
Lemma swallow_rm_scoped d evs :
  swallow (rm_tmpDir w) (scoped d evs) = (scoped d (evs ++ [Rm d]), inr tt).
Proof.
  unfold swallow, try_catch, rm_tmpDir. rewrite bind_unfold. cbn [get_tmpDir scoped tmpDir].
  rewrite bind_unfold. change (emit (Rm d) _) with (scoped d (evs ++ [Rm d]), @inr Exc _ tt).
  cbv beta iota. by destruct (rmSync w d).
Qed.

Lemma append_truthy s t : s ≠ "" → s +:+ t ≠ "".
Proof. by destruct s. Qed.

(** The directory created is never the empty string. *)
Lemma normalize_truthy p : Path.normalize p ≠ "".
Proof.
  unfold Path.normalize. destruct (String.eqb p ""); [done |].
  destruct (String.eqb_spec (Path.normalizeString p (negb (Path.isAbsolute p))) "") as [_|Hne].
  - destruct (Path.isAbsolute p); [done |]. by destruct (Path.trailingSeparator p).
  - destruct (Path.isAbsolute p); [by apply append_truthy |].
    destruct (Path.trailingSeparator p); [by apply append_truthy | done].
Qed.

Lemma join_truthy a b : Path.join a b ≠ "".
Proof.
  unfold Path.join. destruct (JS.truthy a), (JS.truthy b);
    done || apply normalize_truthy.
Qed.

Lemma try_block_outcome inputData : TryOutcome w (try_block w inputData initial).
Proof.
  unfold try_block. rewrite bind_unfold.
  destruct (negb (JS.truthy (JS.trim inputData))); [constructor |].
  unfold ret at 1. rewrite bind_unfold.
  destruct (JSON_parse w inputData) as [e|payload]; [constructor |].
  cbn [of_sum]. unfold ret at 1. rewrite bind_unfold.
  unfold mkdtemp. rewrite bind_unfold.
  destruct (mkdtempSync w _) as [e|suffix]; [constructor |].
  cbn [of_sum]. unfold ret at 1 2. cbv beta iota.
  set (d := Path.join (os_tmpdir w) "nekro-check-" +:+ suffix).
  assert (d ≠ "") as Hd by apply append_truthy, join_truthy.
  rewrite bind_unfold.
  change (emit (Mkdtemp d) initial) with
    ({| tmpDir := None; trace := [Mkdtemp d] |}, @inr Exc _ tt).
  cbv beta iota. rewrite bind_unfold.
  change (set_tmpDir d _) with (scoped d [], @inr Exc _ tt).
  cbv beta iota.
  destruct (files payload) as [fs|]; [| by constructor].
  rewrite bind_unfold.
  destruct (write_files_scoped d [] (Object_entries fs (files_keys payload)) eq_refl) as (evs & r & -> & Hevs).
  destruct r as [e|[]]; [by constructor |].
  rewrite bind_unfold, emit_scoped, bind_unfold.
  assert (forallb is_setup (evs ++ [WriteTsconfig (Path.join d "tsconfig.json")]) = true)
    as Hevs1 by (by rewrite forallb_app, Hevs).
  destruct (writeFileSync w _) as [e|]; cbn [check]; [by constructor |].
  unfold ret at 1. destruct (find_tsc w) as [tscPath|] eqn:Htsc.
  - rewrite bind_unfold.
    set (link := Symlink _ _).
    assert (∃ r, swallow (emit link;; check (symlinkSync w (Path.join (__dirname w) "node_modules")
                                               (Path.join d "node_modules")))
                   (scoped d (evs ++ [WriteTsconfig (Path.join d "tsconfig.json")]))
                 = (scoped d ((evs ++ [WriteTsconfig (Path.join d "tsconfig.json")]) ++ [link]),
                    inr r)) as [[] ->].
    { unfold swallow, try_catch. rewrite bind_unfold, emit_scoped.
      destruct (symlinkSync w _ _); by exists tt. }
    rewrite bind_unfold, emit_scoped, bind_unfold.
    assert (forallb is_setup
              (((evs ++ [WriteTsconfig (Path.join d "tsconfig.json")]) ++ [link])
                 ++ [Exec (command tscPath) d]) = true) as Hevs2.
    { by rewrite !forallb_app, Hevs. }
    destruct (exec w (command tscPath) d) as [e|res] eqn:Hexec; cbn [of_sum].
    + by constructor.
    + unfold ret. by econstructor.
  - rewrite bind_unfold.
    change (console_log _ _) with
      (scoped d ((evs ++ [WriteTsconfig (Path.join d "tsconfig.json")])
                   ++ [Log (ok tsc_missing_warning)]), @inr Exc _ tt).
    cbv beta iota.
    rewrite bind_unfold, swallow_rm_scoped. unfold ret.
    rewrite <- app_assoc. by constructor.
Qed.

Lemma catch_block_initial e :
  catch_block w e initial
  = ({| tmpDir := None; trace := [Log (failed (message e) None)] |}, inr None).
Proof. done. Qed.

Lemma catch_block_scoped d evs e :
  d ≠ "" →
  catch_block w e (scoped d evs)
  = (scoped d (evs ++ [Rm d; Log (failed (message e) None)]), inr None).
Proof.
  intros Hd%truthy_spec.
  unfold catch_block. rewrite bind_unfold. cbn [get_tmpDir scoped tmpDir].
  rewrite Hd, bind_unfold, swallow_rm_scoped, bind_unfold.
  change (console_log (failed (message e) None) (scoped d (evs ++ [Rm d])))
    with (scoped d ((evs ++ [Rm d]) ++ [Log (failed (message e) None)]), @inr Exc _ tt).
  cbv beta iota. unfold ret. by rewrite <- app_assoc.
Qed.

Lemma exec_callback_scoped d evs res :
  exec_callback w res (scoped d evs)
  = (scoped d (evs ++ [Rm d; Log (verdict (Some d) res)]), inr tt).
Proof.
  unfold exec_callback. rewrite bind_unfold, swallow_rm_scoped, bind_unfold.
  cbn [get_tmpDir scoped tmpDir].
  change (console_log ?e (scoped d (evs ++ [Rm d])))
    with (scoped d ((evs ++ [Rm d]) ++ [Log e]), @inr Exc _ tt).
  by rewrite <- app_assoc.
Qed.

Lemma on_end_run inputData : Run w (on_end w inputData).
Proof.
  unfold on_end, handler. rewrite bind_unfold. unfold try_catch.
  destruct (try_block_outcome inputData) as [e | d evs e Hd Hevs | d evs Hd Hevs Htsc
                                             | d evs tscPath res Hd Hevs Htsc Hexec].
  - rewrite catch_block_initial. apply rejected_before_scope.
  - rewrite catch_block_scoped by done. by apply rejected_in_scope.
  - by apply skipped.
  - rewrite exec_callback_scoped. by eapply checked.
Qed.

Lemma logged_setup evs : forallb is_setup evs = true → logged evs = [].
Proof.
  induction evs as [|ev evs IH]; [done |]. simpl.
  intros [Hev Hevs]%andb_true_iff. unfold logged in *. simpl.
  destruct ev; try done; by apply IH.
Qed.

Lemma logged_app t t' : logged (t ++ t') = logged t ++ logged t'.
Proof. apply omap_app. Qed.

Lemma report_well_formed dir err out errout : well_formed (report dir err out errout) = true.
Proof. unfold report. by destruct (negb _). Qed.

Lemma verdict_well_formed dir res : well_formed (verdict dir res) = true.
Proof.
  unfold verdict. destruct (exec_error res); [apply report_well_formed | done].
Qed.

Lemma logged_scoped_run d evs tail :
  forallb is_setup evs = true → logged (Mkdtemp d :: evs ++ tail) = logged tail.
Proof.
  intros Hevs. change (logged (Mkdtemp d :: ?t)) with (logged t).
  by rewrite logged_app, logged_setup.
Qed.

(** Every request logs one envelope, a well-formed one. *)
Lemma on_end_logs_one inputData :
  ∃ env, logged (on_end w inputData) = [env] ∧ well_formed env = true.
Proof.
  destruct (on_end_run inputData) as [e | d evs e Hd Hevs | d evs Hd Hevs Htsc
                                      | d evs tscPath res Hd Hevs Htsc Hexec].
  - by exists (failed (message e) None).
  - exists (failed (message e) None). by rewrite logged_scoped_run.
  - exists (ok tsc_missing_warning). by rewrite logged_scoped_run.
  - exists (verdict (Some d) res). rewrite logged_scoped_run by done.
    split; [done | apply verdict_well_formed].
Qed.

Lemma removed_before_response_setup created removed evs tail :
  forallb is_setup evs = true →
  Spec.removed_before_response created removed (evs ++ tail)
  = Spec.removed_before_response created removed tail.
Proof.
  induction evs as [|ev evs IH]; [done |]. simpl.
  intros [Hev Hevs]%andb_true_iff. destruct ev; try done; by apply IH.
Qed.

(** X19.  With the checker installed, the scope is removed before the
    envelope is logged, however the request ends. *)
Lemma cleanup_first_when_installed inputData :
  find_tsc w ≠ None → Spec.cleanup_before_response (on_end w inputData) = true.
Proof.
  intros Htsc. unfold Spec.cleanup_before_response.
  destruct (on_end_run inputData) as [e | d evs e Hd Hevs | d evs Hd Hevs Hno
                                      | d evs tscPath res Hd Hevs _ Hexec];
    [done | | done |]; simpl; rewrite removed_before_response_setup by done;
    simpl; by rewrite bool_decide_eq_true_2.
Qed.

(** Without it, a request that gets as far as looking for the checker
    logs its envelope first and removes the scope afterwards. *)
Lemma response_first_when_missing inputData :
  find_tsc w = None →
  Spec.cleanup_before_response (on_end w inputData) = true ∨
  ∃ d evs, forallb is_setup evs = true ∧
           on_end w inputData = Mkdtemp d :: evs ++ [Log (ok tsc_missing_warning); Rm d] ∧
           Spec.cleanup_before_response (on_end w inputData) = false.
Proof.
  intros Htsc. unfold Spec.cleanup_before_response.
  destruct (on_end_run inputData) as [e | d evs e Hd Hevs | d evs Hd Hevs Hno
                                      | d evs tscPath res Hd Hevs Hyes Hexec].
  - by left.
  - left. simpl. rewrite removed_before_response_setup by done.
    simpl. by rewrite bool_decide_eq_true_2.
  - right. exists d, evs. split_and!; [done | done |].
    simpl. by rewrite removed_before_response_setup.
  - congruence.
Qed.

(** The callback of the checker, from any state: it tries to remove the
    scope, whatever comes of it, and logs the verdict. *)
Lemma exec_callback_any res s :
  exec_callback w res s
  = ({| tmpDir := tmpDir s;
        trace := trace s ++ match tmpDir s with Some d => [Rm d] | None => [] end
                         ++ [Log (verdict (tmpDir s) res)] |}, inr tt).
Proof.
  destruct s as [[d|] t]; unfold exec_callback.
  - rewrite bind_unfold. unfold swallow, try_catch, rm_tmpDir.
    rewrite bind_unfold. cbn [get_tmpDir tmpDir]. rewrite bind_unfold.
    change (emit (Rm d) ?s) with ({| tmpDir := Some d; trace := t ++ [Rm d] |}, @inr Exc _ tt).
    cbv beta iota.
    destruct (rmSync w d); simpl; rewrite bind_unfold; simpl;
      unfold console_log, emit; simpl; by rewrite <- app_assoc.
  - rewrite bind_unfold. simpl. rewrite bind_unfold. done.
Qed.

End check_handler.

Section cleanup_failure.

Import Check.

Variable w : World.
Variable rm : string → option Exc.

Abbreviation w' := (with_rmSync rm w).

Lemma bind_ext {A B} (m m' : M A) (f f' : A → M B) s :
  m s = m' s → (∀ a s', f a s' = f' a s') → (m ≫= f) s = (m' ≫= f') s.
Proof.
  intros Hm Hf. rewrite !bind_unfold, Hm. by destruct (m' s) as [s' [e|a]].
Qed.

Lemma bind_ext_r {A B} (m : M A) (f f' : A → M B) s :
  (∀ a s', f a s' = f' a s') → (m ≫= f) s = (m ≫= f') s.
Proof. intros Hf. by apply bind_ext. Qed.

(** What the removal answers is lost in its [try]. *)
Lemma swallow_rm_any_answer s : swallow (rm_tmpDir w') s = swallow (rm_tmpDir w) s.
Proof.
  destruct s as [[d|] t]; [| done].
  unfold swallow, try_catch, rm_tmpDir. rewrite !bind_unfold. cbn [get_tmpDir tmpDir].
  rewrite !bind_unfold.
  change (emit (Rm d) ?s) with ({| tmpDir := Some d; trace := t ++ [Rm d] |}, @inr Exc _ tt).
  cbv beta iota. cbn [rmSync with_rmSync]. by destruct (rm d), (rmSync w d).
Qed.

Lemma write_files_any_answer dir l s : write_files w' dir l s = write_files w dir l s.
Proof.
  revert s. induction l as [|[filepath content] l IH]; intros s; [done |].
  cbn [write_files]. do 4 (apply bind_ext_r; intros ? ?). apply IH.
Qed.

Lemma try_block_any_answer inputData s :
  try_block w' inputData s = try_block w inputData s.
Proof.
  unfold try_block. do 5 (apply bind_ext_r; intros ? ?).
  destruct (files _); [| done].
  apply bind_ext; [apply write_files_any_answer |]. intros ? ?.
  do 2 (apply bind_ext_r; intros ? ?).
  change (find_tsc w') with (find_tsc w). destruct (find_tsc w); [done |].
  apply bind_ext_r. intros ? ?. apply bind_ext; [apply swallow_rm_any_answer | done].
Qed.

Lemma catch_block_any_answer e s : catch_block w' e s = catch_block w e s.
Proof.
  unfold catch_block. apply bind_ext_r. intros [d|] ?; [| done].
  destruct (JS.truthy d); [| done].
  apply bind_ext; [apply swallow_rm_any_answer | done].
Qed.

(** X20.  A failure of the removal changes neither the calls made nor the
    envelope logged. *)
Lemma cleanup_failure_swallowed inputData : on_end w' inputData = on_end w inputData.
Proof.
  unfold on_end. f_equal. f_equal. unfold handler. apply bind_ext.
  - unfold try_catch. rewrite try_block_any_answer.
    destruct (try_block w inputData initial) as [s [e|r]]; [| done].
    apply catch_block_any_answer.
  - intros [res|] s; [| done]. unfold exec_callback.
    apply bind_ext; [apply swallow_rm_any_answer | done].
Qed.

End cleanup_failure.

(** C3, at a request for a machine on which the checker is not installed:
    the envelope is logged first, and the scope is removed after it. *)
Theorem response_logged_before_cleanup :
  Check.on_end (Sample.machine false Sample.no_errors) Sample.request_text
  = [ Check.Mkdtemp "/tmp/nekro-check-Ab12Cd";
      Check.Mkdir "/tmp/nekro-check-Ab12Cd/src";
      Check.WriteFile "/tmp/nekro-check-Ab12Cd/src/main.tsx" "export {}";
      Check.WriteTsconfig "/tmp/nekro-check-Ab12Cd/tsconfig.json";
      Check.Log (Check.ok Check.tsc_missing_warning);
      Check.Rm "/tmp/nekro-check-Ab12Cd" ] ∧
  Spec.cleanup_before_response
    (Check.on_end (Sample.machine false Sample.no_errors) Sample.request_text) = false.
Proof. split; by vm_compute. Qed.

(** C5.  Whatever the input, the parser, the bundler, the file system and
    the checker do, each program writes one envelope, in which exactly one
    of [output] (with [success: true]) and [error] (with [success: false])
    is present. *)
Theorem every_outcome_is_an_envelope :
  (∀ w inputData, ∃ env, Build.on_end w inputData = [env] ∧ well_formed env = true) ∧
  (∀ w inputData,
     ∃ env, Check.logged (Check.on_end w inputData) = [env] ∧ well_formed env = true).
Proof.
  split.
  - intros w inputData. unfold Build.on_end.
    destruct (Build.try_block w inputData) as [e|env] eqn:Htry; [by eexists |].
    exists env. split; [done |]. revert Htry. unfold Build.try_block.
    destruct (negb _); [done |].
    destruct (Build.JSON_parse w inputData); [done |].
    destruct (Build.run _ _ _) as [[outs|e] collected]; [| done].
    destruct (Build.pick_outputs outs). by intros [= <-].
  - apply on_end_logs_one.
Qed.

(* ===================================================================== *)
(** * The diagnostics of check.js *)
(* ===================================================================== *)

Section diagnostics.

Import Check.

Lemma trimEnd_blank s : JS.trimEnd s = "" ↔ blank s = true.
Proof.
  induction s as [|c s IH]; [done |]. simpl.
  destruct (JS.trimEnd s) as [|c' r].
  - destruct (JS.is_white_space c); simpl; [| done].
    split; [intros _; by apply IH | done].
  - split; [done |]. intros [_ H]%andb_true_iff. by apply IH in H.
Qed.

Lemma trimStart_blank s : blank (JS.trimStart s) = blank s.
Proof.
  induction s as [|c s IH]; [done |]. simpl.
  destruct (JS.is_white_space c) eqn:Hc; simpl; [done | by rewrite Hc].
Qed.

Lemma trim_blank s : JS.trim s = "" ↔ blank s = true.
Proof. unfold JS.trim. by rewrite trimEnd_blank, trimStart_blank. Qed.

Lemma blank_append s t : blank (s +:+ t) = blank s && blank t.
Proof.
  induction s as [|c s IH]; [done |]. rewrite append_cons. simpl.
  by rewrite IH, andb_assoc.
Qed.

Lemma replace_includes s pat rep :
  JS.includes s pat = true → ∃ pre post, JS.replace s pat rep = pre +:+ rep +:+ post.
Proof.
  induction s as [|c s IH]; rewrite includes_unfold; unfold JS.startsWith.
  - rewrite orb_false_r. intros Hp. exists "", (JS.substring_from (String.length pat) "").
    cbn [JS.replace]. by rewrite Hp.
  - cbn [JS.replace]. destruct (String.prefix pat (String c s)).
    + intros _. by exists "", (JS.substring_from (String.length pat) (String c s)).
    + simpl. intros H. destruct (IH H) as (pre & post & ->). by exists (String c pre), post.
Qed.

(** A kept line is still not blank after the scope has been rewritten. *)
Lemma rewrite_line_not_blank dir ln :
  blank ln = false → blank (rewrite_line dir ln) = false.
Proof.
  intros Hln. unfold rewrite_line. destruct dir as [d|]; [| done].
  destruct (JS.truthy d && JS.includes ln d) eqn:Hd; [| done].
  apply andb_true_iff in Hd as [_ Hinc].
  destruct (replace_includes ln d "vfs:" Hinc) as (pre & post & ->).
  rewrite !blank_append. simpl. apply andb_false_r.
Qed.

Lemma keep_line_spec ln :
  keep_line ln = true ↔
  JS.trim ln ≠ "" ∧ JS.includes ln "error TS2307:" = false ∧
  JS.includes ln "error TS7016:" = false.
Proof.
  unfold keep_line. rewrite <- truthy_spec.
  destruct (JS.truthy (JS.trim ln)); simpl; [| by split; [| intros [? _]]].
  destruct (JS.includes ln "error TS2307:"); [by split; [| intros (_ & ? & _)] |].
  destruct (JS.includes ln "error TS7016:"); [by split; [| intros (_ & _ & ?)] |].
  done.
Qed.

Lemma join_not_blank sep x l : blank x = false → blank (JS.join sep (x :: l)) = false.
Proof.
  intros Hx. rewrite join_cons. destruct l; [done |]. by rewrite blank_append, Hx.
Qed.

(** The cleaned text is blank exactly when every line was dropped. *)
Lemma cleaned_blank dir rawOutput :
  JS.trim (cleaned dir rawOutput) = "" ↔
  List.filter keep_line (JS.split JS.LF rawOutput) = [].
Proof.
  unfold cleaned. split.
  - destruct (List.filter keep_line (JS.split JS.LF rawOutput)) as [|ln lns] eqn:Hf; [done |].
    intros Hblank%trim_blank. exfalso.
    assert (In ln (List.filter keep_line (JS.split JS.LF rawOutput))) as Hin
        by (rewrite Hf; by left).
    apply filter_In in Hin as [_ (Hln & _)%keep_line_spec].
    assert (blank ln = false) as Hnb.
    { apply not_true_iff_false. by rewrite <- trim_blank. }
    rewrite map_cons, join_not_blank in Hblank; [done |].
    by apply rewrite_line_not_blank.
  - by intros ->.
Qed.

Lemma report_cases dir err out errout :
  let rawOutput := raw_output err out errout in
  (List.filter keep_line (JS.split JS.LF rawOutput) = [] ∧
   report dir err out errout = ok "No critical errors found (ignored missing modules).") ∨
  (List.filter keep_line (JS.split JS.LF rawOutput) ≠ [] ∧
   report dir err out errout = failed (truncated (cleaned dir rawOutput)) (Some rawOutput)).
Proof.
  intros rawOutput. unfold report. fold rawOutput.
  destruct (JS.truthy (JS.trim (cleaned dir rawOutput))) eqn:Ht; simpl.
  - right. split; [| done]. apply truthy_spec in Ht. by rewrite <- (cleaned_blank dir).
  - left. split; [| done]. apply truthy_false in Ht. by apply (cleaned_blank dir).
Qed.

(** A line that starts with the scope has it replaced by the marker,
    the separator after it kept. *)
Lemma rewrite_line_leading d rest :
  d ≠ "" → rewrite_line (Some d) (d +:+ rest) = "vfs:" +:+ rest.
Proof.
  intros Hd%truthy_spec. unfold rewrite_line.
  pose proof (includes_append "" d rest) as Hinc. rewrite append_nil in Hinc.
  rewrite Hd, Hinc. simpl.
  assert (JS.startsWith (d +:+ rest) d = true) as Hp by apply startsWith_append.
  unfold JS.startsWith in Hp.
  assert (∀ s, String.prefix d s = true →
               JS.replace s d "vfs:" = "vfs:" +:+ JS.substring_from (String.length d) s) as Hr.
  { intros s Hs. destruct s; cbn [JS.replace]; by rewrite Hs. }
  by rewrite Hr, substring_from_append.
Qed.

Lemma keep_line_suppressed ln : keep_line ln = negb (Spec.suppressed ln).
Proof.
  unfold keep_line, Spec.suppressed, JS.truthy. rewrite negb_involutive.
  destruct (String.eqb (JS.trim ln) ""); [done |]. simpl.
  destruct (JS.includes ln "error TS2307:"); [done |]. simpl.
  by destruct (JS.includes ln "error TS7016:").
Qed.

(** The filter of check.js keeps the reported lines. *)
Lemma filter_keep_line output :
  List.filter keep_line (JS.split JS.LF output) = Spec.reported_lines output.
Proof. unfold Spec.reported_lines. apply filter_ext. intros ln. apply keep_line_suppressed. Qed.

Lemma reported_lines_spec output ln :
  In ln (Spec.reported_lines output) ↔
  In ln (JS.split JS.LF output) ∧ JS.trim ln ≠ "" ∧
  JS.includes ln "error TS2307:" = false ∧ JS.includes ln "error TS7016:" = false.
Proof. rewrite <- filter_keep_line, filter_In, keep_line_spec. tauto. Qed.

(** [stdout || stderr || error.message], case by case. *)
Lemma raw_output_cases err out errout :
  raw_output err out errout
  = if String.eqb out "" then if String.eqb errout "" then message err else errout else out.
Proof.
  unfold raw_output, or_else, JS.truthy.
  by destruct (String.eqb out ""), (String.eqb errout "").
Qed.

(** The fields of the envelope for a checker that exited with an error. *)
Lemma report_fields dir err out errout :
  let rawOutput :=
    if String.eqb out "" then if String.eqb errout "" then message err else errout
    else out in
  let kept := Spec.reported_lines rawOutput in
  let env := report dir err out errout in
  (kept = [] →
   env = {| success := true;
            output := Some "No critical errors found (ignored missing modules).";
            error := None; externals := None; raw := None |}) ∧
  (kept ≠ [] →
   success env = false ∧ output env = None ∧ externals env = None ∧
   raw env = Some rawOutput ∧
   error env = Some (truncated (JS.join JS.nl (map (rewrite_line dir) kept)))).
Proof.
  intros rawOutput kept env. subst env.
  pose proof (report_cases dir err out errout) as Hcases. cbv zeta in Hcases.
  unfold cleaned in Hcases.
  rewrite raw_output_cases, filter_keep_line in Hcases. fold rawOutput kept in Hcases.
  destruct Hcases as [[Hnone ->] | [Hsome ->]].
  - split; [done | by intros ?].
  - split; [by intros ? | done].
Qed.

(** What the callback of the checker logs when the checker exited with an
    error. *)
Lemma callback_logs_report w res err s :
  exec_error res = Some err →
  logged (trace (exec_callback w res s).1)
  = logged (trace s) ++ [report (tmpDir s) err (stdout res) (stderr res)].
Proof.
  intros Herr. rewrite exec_callback_any. cbn [fst trace].
  rewrite !logged_app. unfold verdict. rewrite Herr.
  by destruct (tmpDir s).
Qed.

End diagnostics.

(** C4.  When the checker exits with an error, check.js takes for its
    output the standard output of the checker, its standard error when
    that is empty, and the message of the process error when both are.
    The lines of this output are filtered: a line is kept exactly when it
    is not blank and holds neither [error TS2307:] nor [error TS7016:].
    When no line is kept, the callback logs a success whose message tells
    that the missing modules were ignored, instead of a failure.  When a
    line is kept, it logs a failure: its [error] is made of the kept
    lines, in their order, each with the scope rewritten, joined by line
    feeds and cut at the limit; its [raw] is the output as it was. *)
Theorem missing_module_noise_filtered w res err s :
  Check.exec_error res = Some err →
  let rawOutput :=
    if String.eqb (Check.stdout res) ""
    then if String.eqb (Check.stderr res) "" then message err else Check.stderr res
    else Check.stdout res in
  let kept := Spec.reported_lines rawOutput in
  (∀ ln,
     In ln kept ↔
     In ln (JS.split JS.LF rawOutput) ∧ JS.trim ln ≠ "" ∧
     JS.includes ln "error TS2307:" = false ∧ JS.includes ln "error TS7016:" = false) ∧
  ∃ env,
    Check.logged (Check.trace (Check.exec_callback w res s).1)
    = Check.logged (Check.trace s) ++ [env] ∧
    (kept = [] →
     env = {| success := true;
              output := Some "No critical errors found (ignored missing modules).";
              error := None; externals := None; raw := None |}) ∧
    (kept ≠ [] →
     success env = false ∧ output env = None ∧ externals env = None ∧
     raw env = Some rawOutput ∧
     error env
     = Some (Check.truncated
               (JS.join JS.nl (map (Check.rewrite_line (Check.tmpDir s)) kept)))).
Proof.
  intros Herr rawOutput kept. split.
  - intros ln. apply reported_lines_spec.
  - exists (Check.report (Check.tmpDir s) err (Check.stdout res) (Check.stderr res)).
    split; [by apply callback_logs_report |].
    apply report_fields.
Qed.

Lemma missing_module_noise_filtered_witness :
  Check.logged
    (Check.trace
       (Check.exec_callback (Sample.machine true Sample.no_errors) Sample.only_noise
          (scoped Sample.scope [])).1)
  = [ {| success := true;
         output := Some "No critical errors found (ignored missing modules).";
         error := None; externals := None; raw := None |} ] ∧
  Check.logged
    (Check.trace
       (Check.exec_callback (Sample.machine true Sample.no_errors) Sample.noise_and_error
          (scoped Sample.scope [])).1)
  = [ {| success := false; output := None;
         error := Some "src/main.tsx(3,7): error TS2322: Type 'number' is not assignable to type 'string'.";
         externals := None;
         raw := Some (Check.stderr Sample.noise_and_error) |} ].
Proof.
  split.
  - destruct (missing_module_noise_filtered (Sample.machine true Sample.no_errors)
                Sample.only_noise (Error "Command failed") (scoped Sample.scope []) eq_refl)
      as (_ & env & -> & Hnone & _).
    by rewrite Hnone by (by vm_compute).
  - destruct (missing_module_noise_filtered (Sample.machine true Sample.no_errors)
                Sample.noise_and_error (Error "Command failed") (scoped Sample.scope [])
                eq_refl)
      as (_ & env & -> & _ & Hsome).
    destruct Hsome as (Hs & Ho & Hx & Hr & He); [by vm_compute |].
    destruct env as [su ou er ex ra]. cbn [success output error externals raw] in *.
    rewrite Hs, Ho, Hx, Hr, He. by vm_compute.
Defined.

(** C7, at a checker output whose first line names the scope twice: only
    the first reference is rewritten, the second one is reported as it is
    (and the marker is followed by the separator of the absolute path). *)
Theorem second_reference_not_rewritten :
  Check.report (Some Sample.scope) (Error "Command failed") Sample.two_references ""
  = Check.failed
      ("vfs:/src/main.tsx(3,7): error TS2322: Type 'import(/tmp/nekro-check-Ab12Cd/src/b).T'"
       +:+ " is not assignable to type 'string'.")
      (Some Sample.two_references) ∧
  (∀ msg, error (Check.report (Some Sample.scope) (Error "Command failed")
                   Sample.two_references "") = Some msg →
          JS.includes msg Sample.scope = true).
Proof.
  split; [by vm_compute |]. intros msg. vm_compute. by intros [= <-].
Qed.

(** C9.  When the checker exits with an error and the text left by the
    filter (the reported lines of its output, each with the scope
    rewritten, joined by line feeds) is not blank, the callback logs a
    failure.  If that text is longer than 2000 characters, the [error] is
    its first 2000 characters followed by the truncation marker; otherwise
    it is the text itself.  In both cases [raw] is the whole output of the
    checker, neither filtered nor cut. *)
Theorem long_report_truncated w res err s :
  Check.exec_error res = Some err →
  let rawOutput :=
    if String.eqb (Check.stdout res) ""
    then if String.eqb (Check.stderr res) "" then message err else Check.stderr res
    else Check.stdout res in
  let cleanedOutput :=
    JS.join JS.nl
      (map (Check.rewrite_line (Check.tmpDir s)) (Spec.reported_lines rawOutput)) in
  JS.trim cleanedOutput ≠ "" →
  ∃ env msg,
    Check.logged (Check.trace (Check.exec_callback w res s).1)
    = Check.logged (Check.trace s) ++ [env] ∧
    success env = false ∧ output env = None ∧ externals env = None ∧
    error env = Some msg ∧ raw env = Some rawOutput ∧
    (2000 < JS.length cleanedOutput →
     msg = JS.substring_to 2000 cleanedOutput +:+ JS.nl
           +:+ "... (Status: Truncated due to length)" ∧
     JS.length (JS.substring_to 2000 cleanedOutput) = 2000 ∧
     ∃ rest, cleanedOutput = JS.substring_to 2000 cleanedOutput +:+ rest) ∧
    (JS.length cleanedOutput ≤ 2000 → msg = cleanedOutput).
Proof.
  intros Herr rawOutput cleanedOutput Hne.
  exists (Check.report (Check.tmpDir s) err (Check.stdout res) (Check.stderr res)),
         (Check.truncated cleanedOutput).
  split; [by apply callback_logs_report |].
  destruct (report_fields (Check.tmpDir s) err (Check.stdout res) (Check.stderr res))
    as [_ Hsome]. fold rawOutput in Hsome.
  destruct Hsome as (Hs & Ho & Hx & Hr & He).
  { intros Hnone. apply Hne. subst cleanedOutput. by rewrite Hnone. }
  split_and!; try done.
  - unfold Check.truncated, Check.limit.
    intros Hlong. apply Nat.ltb_lt in Hlong as Hlt. rewrite Hlt. split_and!.
    + done.
    + apply substring_to_length. unfold JS.length in Hlong. lia.
    + exists (JS.substring_from 2000 cleanedOutput). by rewrite substring_to_from.
  - unfold Check.truncated, Check.limit.
    intros Hshort. apply Nat.ltb_ge in Hshort. by rewrite Hshort.
Qed.

Lemma long_report_truncated_witness :
  Check.logged
    (Check.trace
       (Check.exec_callback (Sample.machine true Sample.no_errors) Sample.long_diagnostic
          (scoped Sample.scope [])).1)
  = [ {| success := false; output := None;
         error := Some (JS.substring_to 2000 Sample.long_line +:+ JS.nl
                        +:+ "... (Status: Truncated due to length)");
         externals := None;
         raw := Some Sample.long_line |} ].
Proof.
  destruct (long_report_truncated (Sample.machine true Sample.no_errors)
              Sample.long_diagnostic (Error "Command failed") (scoped Sample.scope [])
              eq_refl)
    as (env & msg & -> & Hs & Ho & Hx & He & Hr & Hlong & _); [by vm_compute |].
  destruct Hlong as (-> & _ & _); [vm_compute; lia |].
  destruct env as [su ou er ex ra]. cbn [success output error externals raw] in *.
  rewrite Hs, Ho, Hx, Hr, He. by vm_compute.
Defined.

(* ===================================================================== *)
(** * More on the loader of build.js *)
(* ===================================================================== *)

Section loader_more.

Import Build.

Implicit Types fs : gmap string string.

Lemma truthy_at_has_text fs key :
  (∃ content, truthy_at fs key = Some (Own content)) ↔ has_text fs key.
Proof.
  unfold has_text. split; intros [content H]; exists content; by apply truthy_at_Some.
Qed.

(** The read of a key gives nothing truthy exactly when the key neither
    holds text nor names an inherited member. *)
Lemma truthy_at_None fs key :
  truthy_at fs key = None ↔ ¬ has_text fs key ∧ ¬ inherited fs key.
Proof.
  destruct (truthy_at fs key) as [[content|member]|] eqn:H.
  - split; [done |]. intros [Hno _]. destruct Hno. apply truthy_at_has_text. by exists content.
  - split; [done |]. intros [_ Hno]. destruct Hno.
    by apply truthy_at_Inherited in H as (? & ? & _).
  - split; [| done]. intros _. split.
    + intros [content Hc]%truthy_at_has_text. congruence.
    + intros [Hk Hin]. pose proof (proj2 (truthy_at_Inherited fs key key)) as Hi.
      rewrite H in Hi. by discriminate Hi.
Qed.

(** A probed variant is never an inherited name. *)
Lemma variant_truthy_at fs p ext :
  ext ∈ extensions →
  (∃ content, truthy_at fs (p +:+ ext) = Some (Own content) ∧
              fs !! (p +:+ ext) = Some content ∧ content ≠ "") ∨
  (truthy_at fs (p +:+ ext) = None ∧ ¬ has_text fs (p +:+ ext)).
Proof.
  intros Hext. destruct (truthy_at fs (p +:+ ext)) as [[content|member]|] eqn:H.
  - left. exists content. by apply truthy_at_Some in H as H'.
  - apply truthy_at_Inherited in H as (_ & Hin & _).
    by apply variant_not_inherited in Hin.
  - right. split; [done |]. by apply truthy_at_None in H as [? _].
Qed.

(** What the loop over the extensions returns. *)
Lemma probe_Some fs p exts r :
  exts ⊆ extensions →
  probe fs p exts = Some r →
  ∃ before ext after content,
    exts = before ++ ext :: after ∧
    Forall (fun e => ¬ has_text fs (p +:+ e)) before ∧
    fs !! (p +:+ ext) = Some content ∧ content ≠ "" ∧
    r = Loaded content (getLoader (p +:+ ext)).
Proof.
  induction exts as [|e exts IH]; [done |]. intros Hsub. simpl.
  assert (e ∈ extensions) as He by (apply Hsub; by left).
  assert (exts ⊆ extensions) as Hsub' by (intros x ?; apply Hsub; by right).
  destruct (variant_truthy_at fs p e He) as [(content & -> & ? & ?) | [-> Hno]].
  - intros [= <-]. by exists [], e, exts, content.
  - intros H. destruct (IH Hsub' H) as (before & ext & after & content & -> & Hb & ? & ? & ->).
    exists (e :: before), ext, after, content. split_and!; try done.
    by apply Forall_cons.
Qed.

Lemma probe_None fs p exts :
  exts ⊆ extensions →
  probe fs p exts = None → Forall (fun e => ¬ has_text fs (p +:+ e)) exts.
Proof.
  induction exts as [|e exts IH]; [by constructor |]. intros Hsub. simpl.
  assert (e ∈ extensions) as He by (apply Hsub; by left).
  assert (exts ⊆ extensions) as Hsub' by (intros x ?; apply Hsub; by right).
  destruct (variant_truthy_at fs p e He) as [(content & -> & ? & ?) | [-> Hno]]; [done |].
  intros H. apply Forall_cons. split; [done | by apply IH].
Qed.

(** The loader of an inherited name is [text]: none has an extension. *)
Lemma inherited_loader key : key ∈ JS.Object_prototype → getLoader key = "text".
Proof.
  unfold JS.Object_prototype. intros Hin.
  repeat (apply elem_of_cons in Hin as [->|Hin]; [by vm_compute |]).
  by apply elem_of_nil in Hin.
Qed.

End loader_more.

(** X1.  A load from the files of the request ends in one of four ways.
    The key itself holds text: its text is loaded with the loader of the
    key.  The key is no key of the files and is the name of a member of
    [Object.prototype]: the read [files[key]] gives that inherited member,
    and it is handed to the bundler as contents, with the loader [text].
    Otherwise, when some probed variant holds text: the text of the first
    such variant, in the order of the extensions, is loaded with the loader
    of that variant.  Otherwise the load reports the key as not found.  So
    text that a load returns is stored under the key or one of its
    variants, and a load never throws. *)
Theorem load_outcomes (fs : gmap string string) p :
  (∃ content,
     fs !! p = Some content ∧ content ≠ "" ∧
     Build.onLoad_vfs (Some fs) p = Build.Loaded content (Build.getLoader p)) ∨
  (fs !! p = None ∧ p ∈ JS.Object_prototype ∧
   Build.onLoad_vfs (Some fs) p = Build.LoadedInherited p "text") ∨
  (¬ has_text fs p ∧ ¬ inherited fs p ∧
   ∃ before ext after content,
     Build.extensions = before ++ ext :: after ∧
     Forall (fun e => ¬ has_text fs (p +:+ e)) before ∧
     fs !! (p +:+ ext) = Some content ∧ content ≠ "" ∧
     Build.onLoad_vfs (Some fs) p
     = Build.Loaded content (Build.getLoader (p +:+ ext))) ∨
  (¬ has_text fs p ∧ ¬ inherited fs p ∧
   Forall (fun e => ¬ has_text fs (p +:+ e)) Build.extensions ∧
   Build.onLoad_vfs (Some fs) p = Build.not_found p).
Proof.
  unfold Build.onLoad_vfs.
  destruct (Build.truthy_at fs p) as [[content|member]|] eqn:Hp.
  - left. apply truthy_at_Some in Hp as [? ?]. by exists content.
  - right. left. apply truthy_at_Inherited in Hp as (? & ? & ->).
    split_and!; [done | done |]. cbn [Build.loaded]. by rewrite inherited_loader.
  - right. right. apply truthy_at_None in Hp as [Hno Hni].
    destruct (Build.probe fs p Build.extensions) as [r|] eqn:Hprobe.
    + left. split_and!; [done | done |].
      destruct (probe_Some fs p _ r (reflexivity _) Hprobe)
        as (before & ext & after & content & ? & ? & ? & ? & ->).
      by exists before, ext, after, content.
    + right. split_and!; [done | done | by apply (probe_None fs p _ (reflexivity _)) | done].
Qed.

(** The read of an inherited name, at the import [../constructor] from a
    file of [src]: the key is [constructor], which the files do not hold,
    and what is loaded is the member inherited under that name. *)
Lemma inherited_member_loaded :
  Build.res_path
    (Build.onResolve [] (Sample.import_from "src/main.tsx" "../constructor")).1
  = "constructor" ∧
  Build.onLoad_vfs (Some {[ "src/main.tsx" := "import '../constructor'" ]}) "constructor"
  = Build.LoadedInherited "constructor" "text".
Proof. split; by vm_compute. Qed.

(** X2.  A bare stylesheet import is resolved and loaded to an empty
    stylesheet whatever the files of the request hold, and it is not
    collected as an external. *)
Theorem bare_stylesheet_is_empty collected a fs :
  Build.kind a ≠ "entry-point" →
  JS.startsWith (Build.path a) "/" = false →
  JS.startsWith (Build.path a) "@/" = false →
  JS.startsWith (Build.path a) "." = false →
  JS.endsWith (Build.path a) ".css" = true →
  ∃ ns,
    Build.res_namespace (Build.onResolve collected a).1 = Some ns ∧
    Build.res_external (Build.onResolve collected a).1 = false ∧
    Build.onLoad fs ns (Build.res_path (Build.onResolve collected a).1)
    = Some (Build.Loaded "" "css") ∧
    (Build.onResolve collected a).2 = collected.
Proof.
  intros Hk%String.eqb_neq H1 H2 H3 Hcss. unfold Build.onResolve.
  rewrite Hk, H1, H2, H3, Hcss. by exists "ignore-css".
Qed.

Lemma bare_stylesheet_is_empty_witness :
  ∃ ns,
    Build.res_namespace
      (Build.onResolve ["react"] (Sample.import_from "src/main.tsx" "normalize.css")).1
    = Some ns ∧
    Build.res_external
      (Build.onResolve ["react"] (Sample.import_from "src/main.tsx" "normalize.css")).1
    = false ∧
    Build.onLoad (Some {[ "normalize.css" := "body { margin: 0 }" ]}) ns
      (Build.res_path
         (Build.onResolve ["react"] (Sample.import_from "src/main.tsx" "normalize.css")).1)
    = Some (Build.Loaded "" "css") ∧
    (Build.onResolve ["react"] (Sample.import_from "src/main.tsx" "normalize.css")).2
    = ["react"].
Proof.
  apply (bare_stylesheet_is_empty ["react"]
           (Sample.import_from "src/main.tsx" "normalize.css")
           (Some {[ "normalize.css" := "body { margin: 0 }" ]})); by vm_compute.
Defined.

(** X3.  The alias [@/rest] and the root-absolute [/src/rest] name the
    same key, [src/rest]; when the files hold text under it, importing
    either from anywhere loads that text with the loader of the key. *)
Theorem alias_is_source_root collected rest from k (fs : gmap string string) content :
  k ≠ "entry-point" →
  fs !! ("src/" +:+ rest) = Some content → content ≠ "" →
  let aliased := {| Build.path := "@/" +:+ rest; Build.importer := from; Build.kind := k |} in
  let rooted := {| Build.path := "/src/" +:+ rest; Build.importer := from; Build.kind := k |} in
  (Build.onResolve collected aliased).1 = Build.in_namespace ("src/" +:+ rest) "vfs" ∧
  (Build.onResolve collected rooted).1 = Build.in_namespace ("src/" +:+ rest) "vfs" ∧
  Build.onLoad (Some fs) "vfs" (Build.res_path (Build.onResolve collected aliased).1)
  = Some (Build.Loaded content (Build.getLoader ("src/" +:+ rest))).
Proof.
  intros Hk Hfs Hc aliased rooted.
  assert ((Build.onResolve collected aliased).1 = Build.in_namespace ("src/" +:+ rest) "vfs")
    as Ha.
  { symmetry. apply policy_determines. by apply Spec.aliased. }
  split_and!; [done | |].
  - symmetry. apply policy_determines. by apply (Spec.root_absolute rooted ("src/" +:+ rest)).
  - rewrite Ha. cbn [Build.res_path Build.in_namespace].
    rewrite onLoad_in_vfs. f_equal. by apply onLoad_exact.
Qed.

Lemma alias_is_source_root_witness :
  Build.onLoad (Some {[ "src/utils/x.ts" := "export const x=1" ]}) "vfs"
    (Build.res_path
       (Build.onResolve []
          {| Build.path := "@/" +:+ "utils/x.ts"; Build.importer := "src/main.tsx";
             Build.kind := "import-statement" |}).1)
  = Some (Build.Loaded "export const x=1" (Build.getLoader ("src/" +:+ "utils/x.ts"))).
Proof.
  refine (proj2 (proj2 (alias_is_source_root [] "utils/x.ts" "src/main.tsx"
    "import-statement" {[ "src/utils/x.ts" := "export const x=1" ]} "export const x=1"
    _ _ _))); by vm_compute.
Defined.

(* ===================================================================== *)
(** * Extensions and loaders *)
(* ===================================================================== *)

Section extensions.

Import Path.

Implicit Types cs ps : list ascii.

Lemma chars_append s t :
  list_ascii_of_string (s +:+ t) = list_ascii_of_string s ++ list_ascii_of_string t.
Proof. induction s as [|c s IH]; [done |]. rewrite append_cons. simpl. by rewrite IH. Qed.

Lemma skip_segment_app cs l :
  Forall (fun c => is_slash c = false) cs → skip_segment (cs ++ l) = skip_segment l.
Proof. induction 1 as [|c cs Hc _ IH]; [done |]. simpl. by rewrite Hc. Qed.

Lemma skip_segment_at_slash l :
  (l = [] ∨ ∃ t, l = slash :: t) → skip_segment l = l.
Proof. by intros [->|[t ->]]. Qed.

(** The last component of a path that ends with a component without
    separator, after nothing or after a separator. *)
Lemma last_component_append prefix comp :
  (prefix = "" ∨ Spec.ends_with prefix "/") →
  comp ≠ "" → ¬ has_char slash comp →
  last_component (prefix +:+ comp) = list_ascii_of_string comp.
Proof.
  intros Hprefix Hne Hns. unfold last_component. rewrite chars_append, rev_app_distr.
  set (cs := list_ascii_of_string comp).
  assert (Forall (fun c => is_slash c = false) (rev cs)) as Hcs.
  { apply Forall_forall. intros c Hc%list_elem_of_In%in_rev. unfold is_slash.
    apply Ascii.eqb_neq. intros ->. by apply Hns. }
  assert (rev (list_ascii_of_string prefix) = []
          ∨ ∃ t, rev (list_ascii_of_string prefix) = slash :: t) as Hps.
  { destruct Hprefix as [->|[stem ->]]; [by left |]. right.
    rewrite chars_append, rev_app_distr. by eexists. }
  assert (skip_slashes (rev cs ++ rev (list_ascii_of_string prefix))
          = rev cs ++ rev (list_ascii_of_string prefix)) as ->.
  { destruct (rev cs) as [|c t] eqn:Hrev.
    - apply (f_equal (@rev _)) in Hrev. rewrite rev_involutive in Hrev. subst cs.
      destruct comp; [done | discriminate].
    - apply Forall_cons in Hcs as [Hc _]. simpl. by rewrite Hc. }
  rewrite skip_segment_app, skip_segment_at_slash by done.
  rewrite length_app, Nat.add_sub, take_app_length. apply rev_involutive.
Qed.

Lemma from_last_dot_none cs : ¬ In dot cs → from_last_dot cs = None.
Proof.
  induction cs as [|c cs IH]; [done |]. simpl. intros H.
  rewrite IH by tauto. destruct (Ascii.eqb_spec c dot) as [->|]; [| done].
  destruct H. by left.
Qed.

Lemma from_last_dot_suffix stem e :
  ¬ In dot e → from_last_dot (stem ++ dot :: e) = Some (dot :: e).
Proof.
  intros He. induction stem as [|c stem IH]; simpl.
  - by rewrite from_last_dot_none.
  - by rewrite IH.
Qed.

(** The extension of a file name with a stem. *)
Lemma extname_with_stem prefix stem e :
  (prefix = "" ∨ Spec.ends_with prefix "/") →
  stem ≠ "" → ¬ has_char slash stem →
  e ≠ "" → ¬ has_char slash e → ¬ has_char dot e →
  extname (prefix +:+ stem +:+ "." +:+ e) = "." +:+ e.
Proof.
  intros Hprefix Hstem Hss He Hes Hed. unfold extname.
  rewrite last_component_append; [| done | by destruct stem |].
  2:{ unfold has_char. rewrite !chars_append. intros [?|[?|?]%in_app_or]%in_app_or; try done.
      simpl in *. by destruct H as [[=]|[]]. }
  rewrite chars_append.
  change (list_ascii_of_string ("." +:+ e)) with (dot :: list_ascii_of_string e).
  rewrite from_last_dot_suffix by done.
  destruct (Nat.eqb_spec (List.length (dot :: list_ascii_of_string e))
              (List.length (list_ascii_of_string stem ++ dot :: list_ascii_of_string e)))
    as [Hlen|_].
  { rewrite length_app in Hlen. destruct stem; [done |]. simpl in Hlen. lia. }
  destruct (String.eqb_spec
              (string_of_list_ascii (list_ascii_of_string stem ++ dot :: list_ascii_of_string e))
              "..") as [Heq|_].
  { apply (f_equal list_ascii_of_string) in Heq.
    rewrite list_ascii_of_string_of_list_ascii in Heq.
    destruct stem as [|c [|c' stem]]; [done | | ]; destruct e; try done;
      simpl in Heq; try discriminate.
    destruct (list_ascii_of_string stem); discriminate. }
  change (dot :: list_ascii_of_string e) with (list_ascii_of_string ("." +:+ e)).
  apply string_of_list_ascii_of_string.
Qed.

(** A file named by a dot and an extension alone has no extension. *)
Lemma extname_dotfile prefix e :
  (prefix = "" ∨ Spec.ends_with prefix "/") →
  ¬ has_char slash e → ¬ has_char dot e →
  extname (prefix +:+ "." +:+ e) = "".
Proof.
  intros Hprefix Hes Hed. unfold extname.
  rewrite last_component_append; [| done | done |].
  2:{ unfold has_char. change (list_ascii_of_string ("." +:+ e)) with (dot :: list_ascii_of_string e).
      intros [[=]|?]; done. }
  change (list_ascii_of_string ("." +:+ e)) with ([] ++ dot :: list_ascii_of_string e).
  rewrite from_last_dot_suffix by done. simpl. by rewrite Nat.eqb_refl.
Qed.

End extensions.

(** X4.  The loader of a file is read off the part of its name after the
    last dot: a file whose name is a stem followed by one of the six
    extensions gets the loader of the table; a file whose whole name is one
    of these extensions (no stem) is taken for text. *)
Theorem loader_by_extension prefix stem :
  (prefix = "" ∨ Spec.ends_with prefix "/") →
  stem ≠ "" → ¬ has_char Path.slash stem →
  ∀ ext loader, (ext, loader) ∈ loaders →
    Build.getLoader (prefix +:+ stem +:+ ext) = loader ∧
    Build.getLoader (prefix +:+ ext) = "text".
Proof.
  intros Hprefix Hstem Hss ext loader Hin. unfold loaders in Hin.
  assert (∀ e, e ≠ "" → ¬ has_char Path.slash e → ¬ has_char Path.dot e →
               Path.extname (prefix +:+ stem +:+ "." +:+ e) = "." +:+ e ∧
               Path.extname (prefix +:+ "." +:+ e) = "") as Hext.
  { intros e ? ? ?. split; [by apply extname_with_stem | by apply extname_dotfile]. }
  assert (∀ e, e ≠ "" → ¬ has_char Path.slash e → ¬ has_char Path.dot e →
               (String "." e, loader) ∈ loaders →
               (ext, loader) = (String "." e, loader) →
               Build.getLoader (prefix +:+ stem +:+ ext) = loader ∧
               Build.getLoader (prefix +:+ ext) = "text") as Hcase.
  { intros e He1 He2 He3 Hl [= ->]. destruct (Hext e He1 He2 He3) as [Hx1 Hx2].
    change ("." +:+ e) with (String "." e) in Hx1, Hx2.
    unfold Build.getLoader. rewrite Hx1, Hx2. split; [| done].
    unfold loaders in Hl.
    repeat (apply elem_of_cons in Hl as [[= -> ->]|Hl]; [done |]).
    by apply elem_of_nil in Hl. }
  repeat (apply elem_of_cons in Hin as [Heq|Hin];
          [ injection Heq as -> ->;
            eapply Hcase; [| | | | reflexivity]; try done;
            (unfold has_char; simpl; intuition discriminate)
            || (unfold loaders; repeat first [apply list_elem_of_here | apply list_elem_of_further]) |]).
  by apply elem_of_nil in Hin.
Qed.

Lemma loader_by_extension_witness :
  Build.getLoader ("src/components/" +:+ "App.test" +:+ ".tsx") = "tsx" ∧
  Build.getLoader ("src/components/" +:+ ".tsx") = "text".
Proof.
  apply (loader_by_extension "src/components/" "App.test").
  - right. by exists "src/components".
  - done.
  - unfold has_char. simpl. intuition discriminate.
  - unfold loaders. repeat first [apply list_elem_of_here | apply list_elem_of_further].
Defined.

(* ===================================================================== *)
(** * More on the bundle pipeline *)
(* ===================================================================== *)

Section bundle_more.

Import Build.

Lemma classified_external_spec collected a :
  classified_external a = res_external (onResolve collected a).1.
Proof. unfold classified_external. by rewrite (onResolve_pure [] collected). Qed.

(** The array of externals after a run: what it held, then the specifiers
    answered [external], call by call. *)
Lemma run_externals fs e collected :
  (run fs e collected).2 = collected ++ bare_specifiers (Spec.requests fs e collected).
Proof.
  revert collected. induction e as [o | a k IH | ns p k IH]; intros collected; simpl.
  - unfold bare_specifiers. simpl. by rewrite app_nil_r.
  - pose proof (classified_external_spec collected a) as Hc.
    destruct (onResolve_collects collected a) as [[Hr Hcol] | [Hr Hcol]];
      destruct (onResolve collected a) as [r c] eqn:E; simpl in *; subst c;
      rewrite IH; unfold bare_specifiers.
    + subst r. rewrite filter_cons_True by done. rewrite fmap_cons, <- app_assoc. done.
    + rewrite filter_cons_False; [done |]. rewrite Hc, Hr. done.
  - apply IH.
Qed.

Lemma set_spread_from_id seen l :
  NoDup l → (∀ x, x ∈ l → x ∉ seen) → set_spread_from seen l = l.
Proof.
  revert seen. induction l as [|x l IH]; intros seen Hnd Hseen; [done |].
  apply NoDup_cons in Hnd as [Hx Hnd]. simpl.
  rewrite bool_decide_eq_false_2; [| apply Hseen; by left].
  f_equal. apply IH; [done |]. intros y Hy [->|?]%elem_of_cons; [done |].
  by apply (Hseen y); [right |].
Qed.

Lemma set_spread_from_sublist seen l : sublist (set_spread_from seen l) l.
Proof.
  revert seen. induction l as [|x l IH]; intros seen; simpl; [done |].
  case_bool_decide; [by apply sublist_cons | by apply sublist_skip].
Qed.

Lemma set_properties_inv (l : list (string * string)) (base : gmap string string) k v :
  set_properties base l !! k = Some v → (k, v) ∈ l ∨ (base !! k = Some v ∧ k ∉ l.*1).
Proof.
  revert base. induction l as [|[k' v'] l IH]; intros base.
  - intros H. right. split; [done | apply not_elem_of_nil].
  - change (set_properties base ((k', v') :: l)) with (set_properties (<[k':=v']> base) l).
    intros [Hin | [Hbase Hout]]%IH.
    + left. by right.
    + destruct (decide (k' = k)) as [->|Hne].
      * rewrite lookup_insert_eq in Hbase. injection Hbase as ->. left. by left.
      * rewrite lookup_insert_ne in Hbase by done. right. split; [done |].
        simpl. by apply not_elem_of_cons.
Qed.

Lemma default_last_cons {A} (d x : A) l : default d (last (x :: l)) = default x (last l).
Proof. rewrite last_cons. by destruct (last l). Qed.

(** The loop over the output files, from any pair of texts. *)
Lemma pick_outputs_from outs js css :
  fold_left
    (fun '(jsCode, cssCode) f =>
       if JS.endsWith (out_path f) ".js" then (out_text f, cssCode)
       else if JS.endsWith (out_path f) ".css" then (jsCode, out_text f)
       else (jsCode, cssCode))
    outs (js, css)
  = (default js (last (out_text <$> filter is_js outs)),
     default css (last (out_text <$> filter is_css outs))).
Proof.
  revert js css. induction outs as [|f outs IH]; intros js css; [done |].
  cbn [fold_left]. cbv beta iota.
  destruct (JS.endsWith (out_path f) ".js") eqn:Hjs.
  - rewrite IH, (filter_cons_True is_js), (filter_cons_False is_css).
    + by rewrite fmap_cons, default_last_cons.
    + unfold is_css. intros [? _]. congruence.
    + done.
  - destruct (JS.endsWith (out_path f) ".css") eqn:Hcss.
    + rewrite IH, (filter_cons_False is_js), (filter_cons_True is_css).
      * by rewrite fmap_cons, default_last_cons.
      * done.
      * unfold is_js. congruence.
    + rewrite IH, (filter_cons_False is_js), (filter_cons_False is_css).
      * done.
      * unfold is_css. intros [_ ?]. congruence.
      * unfold is_js. congruence.
Qed.

End bundle_more.

(** X5.  The [externals] of a successful response are the specifiers
    answered [external] during the build, in the order of their first
    request: the list of these specifiers with every repetition after the
    first removed.  When no such specifier is requested twice, it is that
    list itself. *)
Theorem externals_in_request_order w inputData env :
  Build.on_end w inputData = [env] → success env = true →
  ∃ payload,
    Build.JSON_parse w inputData = inr payload ∧
    let calls := Spec.requests (files payload)
                   (Build.esbuild_build w (Build.options (env_vars payload))) [] in
    externals env = Some (Build.set_spread (bare_specifiers calls)) ∧
    sublist (Build.set_spread (bare_specifiers calls)) (bare_specifiers calls) ∧
    (NoDup (bare_specifiers calls) → externals env = Some (bare_specifiers calls)).
Proof.
  intros Hend Hok.
  destruct (on_end_success w inputData env Hend Hok) as (payload & outs & js & Hp & _ & ->).
  exists payload. split; [done |]. intros calls.
  rewrite run_externals. fold calls. simpl. split_and!.
  - done.
  - apply set_spread_from_sublist.
  - intros Hnd. f_equal. apply set_spread_from_id; [done |].
    intros x _. apply not_elem_of_nil.
Qed.

Lemma externals_in_request_order_witness :
  Build.set_spread
    (bare_specifiers
       (Spec.requests (Some ∅)
          (Sample.scripted
             [ Sample.import_from "src/main.tsx" "zustand";
               Sample.import_from "src/main.tsx" "./a";
               Sample.import_from "src/a.ts" "axios";
               Sample.import_from "src/a.ts" "zustand" ] []) []))
  = ["zustand"; "axios"].
Proof.
  destruct (externals_in_request_order
    {| Build.JSON_parse := Sample.parsed ∅;
       Build.esbuild_build := fun _ =>
         Sample.scripted
           [ Sample.import_from "src/main.tsx" "zustand";
             Sample.import_from "src/main.tsx" "./a";
             Sample.import_from "src/a.ts" "axios";
             Sample.import_from "src/a.ts" "zustand" ] [] |}
    Sample.request_text
    {| success := true; output := Some ""; error := None;
       externals := Some ["zustand"; "axios"]; raw := None |})
    as (payload & Hp & Hext & _ & _); [by vm_compute | done |].
  injection Hp as <-. cbn [externals files env_vars Build.esbuild_build] in Hext.
  apply (inj Some) in Hext. symmetry. exact Hext.
Defined.

(** X6.  The [define] option holds nothing else than the default for
    [process.env.NODE_ENV] (only when [env_vars] has no [NODE_ENV]) and
    one key [process.env.K] per name [K] of [env_vars], with the JSON
    string literal of its value. *)
Theorem define_has_no_other_key env k v :
  Build.define (Build.options env) !! k = Some v →
  (k = "process.env.NODE_ENV" ∧ v = JS.JSON_stringify "development" ∧
   (∀ m : gmap string string, env = Some m → m !! "NODE_ENV" = None)) ∨
  (∃ (m : gmap string string) K v0,
     env = Some m ∧ m !! K = Some v0 ∧ k = "process.env." +:+ K ∧ v = JS.JSON_stringify v0).
Proof.
  simpl. unfold Build.make_define. fold define_entry.
  intros [Hin | [Hbase Hout]]%set_properties_inv.
  - right. destruct env as [m|]; simpl in Hin; [| by apply elem_of_nil in Hin].
    apply list_elem_of_fmap in Hin as ([K v0] & [= -> ->] & Hin).
    apply elem_of_map_to_list in Hin. by exists m, K, v0.
  - left. apply lookup_singleton_Some in Hbase as [<- <-]. split_and!; [done | done |].
    intros m ->. simpl in Hout. rewrite define_keys in Hout.
    destruct (m !! "NODE_ENV") as [v0|] eqn:Hm; [| done]. destruct Hout.
    apply (list_elem_of_fmap_2' _ _ "NODE_ENV"); [| done].
    apply (list_elem_of_fmap_2' fst _ ("NODE_ENV", v0)); [| done].
    by apply elem_of_map_to_list.
Qed.

Lemma define_has_no_other_key_witness :
  ∃ K v0, ({[ "API_URL" := "https://example.org" ]} : gmap string string) !! K = Some v0 ∧
          "process.env.API_URL" = "process.env." +:+ K.
Proof.
  destruct (define_has_no_other_key (Some {[ "API_URL" := "https://example.org" ]})
              "process.env.API_URL" (JS.JSON_stringify "https://example.org"))
    as [(Hk & _) | (m & K & v0 & Hm & HK & Hk & _)]; [by vm_compute | discriminate |].
  injection Hm as <-. by exists K, v0.
Defined.

(** X7.  The program of a successful response is the text of the last
    output file named [*.js] (empty when there is none); when the last
    output file named [*.css] and not [*.js] has text, the program is
    preceded by the script that injects that text, given as its JSON string
    literal, and otherwise it is returned as it is.  The program is always
    the tail of the output. *)
Theorem output_is_last_script w inputData payload outs collected :
  JS.trim inputData ≠ "" →
  Build.JSON_parse w inputData = inr payload →
  Build.run (files payload) (Build.esbuild_build w (Build.options (env_vars payload))) []
  = (Build.Built outs, collected) →
  let jsCode := default "" (last (Build.out_text <$> filter is_js outs)) in
  let cssCode := default "" (last (Build.out_text <$> filter is_css outs)) in
  ∃ out,
    Build.on_end w inputData
    = [ {| success := true; output := Some out; error := None;
           externals := Some (Build.set_spread collected); raw := None |} ] ∧
    (cssCode = "" → out = jsCode) ∧
    (cssCode ≠ "" →
     out = Build.injectScript (JS.JSON_stringify cssCode) +:+ jsCode) ∧
    JS.endsWith out jsCode = true.
Proof.
  intros Hne%truthy_spec Hparse Hrun jsCode cssCode.
  unfold Build.on_end, Build.try_block. rewrite Hne, Hparse, Hrun. simpl.
  unfold Build.pick_outputs. rewrite pick_outputs_from. fold jsCode cssCode.
  eexists. split; [done |].
  destruct (JS.truthy cssCode) eqn:Hcss.
  - apply truthy_spec in Hcss. split_and!; [done | done | apply endsWith_append].
  - apply truthy_false in Hcss. split_and!; [done | done |].
    apply (endsWith_append "" jsCode).
Qed.

Lemma output_is_last_script_witness :
  Build.on_end
    {| Build.JSON_parse := Sample.parsed ∅;
       Build.esbuild_build := fun _ =>
         Sample.scripted []
           [ {| Build.out_path := "bundle.js"; Build.out_text := "console.log(1);" |};
             {| Build.out_path := "bundle.css"; Build.out_text := "body{margin:0}" |} ] |}
    Sample.request_text
  = [ {| success := true;
         output := Some (Build.injectScript (JS.JSON_stringify "body{margin:0}")
                         +:+ "console.log(1);");
         error := None; externals := Some []; raw := None |} ].
Proof.
  destruct (output_is_last_script
    {| Build.JSON_parse := Sample.parsed ∅;
       Build.esbuild_build := fun _ =>
         Sample.scripted []
           [ {| Build.out_path := "bundle.js"; Build.out_text := "console.log(1);" |};
             {| Build.out_path := "bundle.css"; Build.out_text := "body{margin:0}" |} ] |}
    Sample.request_text (Sample.request ∅)
    [ {| Build.out_path := "bundle.js"; Build.out_text := "console.log(1);" |};
      {| Build.out_path := "bundle.css"; Build.out_text := "body{margin:0}" |} ] [])
    as (out & -> & _ & Hcss & _); [by vm_compute | done | done |].
  rewrite Hcss; by vm_compute.
Defined.

(** X8.  A build that the bundler rejects is answered by a failure without
    [externals], whatever had been collected.  Its [error] is the message
    of the rejection when this carries no errors; otherwise it holds, for
    each error, its text, followed for an error with a location by the
    place ([ at file:line:column]), the source line, and a caret under the
    column. *)
Theorem rejected_build_reported w inputData payload e collected :
  JS.trim inputData ≠ "" →
  Build.JSON_parse w inputData = inr payload →
  Build.run (files payload) (Build.esbuild_build w (Build.options (env_vars payload))) []
  = (Build.Rejected e, collected) →
  ∃ msg,
    Build.on_end w inputData
    = [ {| success := false; output := None; error := Some msg;
           externals := None; raw := None |} ] ∧
    (errors e = [] → msg = message e) ∧
    (∀ m, m ∈ errors e → location m = None → JS.includes msg (text m) = true) ∧
    (∀ m loc, m ∈ errors e → location m = Some loc →
       JS.includes msg
         (text m +:+ " at " +:+ file loc +:+ ":" +:+ Build.digits (line loc) +:+ ":"
            +:+ Build.digits (column loc) +:+ JS.nl +:+ lineText loc +:+ JS.nl
            +:+ Build.spaces (column loc) +:+ "^") = true).
Proof.
  intros Hne%truthy_spec Hparse Hrun.
  unfold Build.on_end, Build.try_block. rewrite Hne, Hparse, Hrun. simpl.
  exists (Build.errorMsg e). split; [done |].
  assert (∀ m, m ∈ errors e → JS.includes (Build.errorMsg e) (Build.format_error m) = true)
    as Hfmt.
  { intros m Hin. unfold Build.errorMsg. destruct (errors e) as [|m0 ms] eqn:He.
    { by apply elem_of_nil in Hin. }
    destruct (join_includes (JS.nl +:+ JS.nl) (map Build.format_error (m0 :: ms))
                (Build.format_error m)) as (pre & post & ->).
    { by apply list_elem_of_fmap_2. }
    apply includes_append. }
  split_and!.
  - unfold Build.errorMsg. by intros ->.
  - intros m Hin Hloc. specialize (Hfmt m Hin). unfold Build.format_error in Hfmt.
    by rewrite Hloc in Hfmt.
  - intros m loc Hin Hloc. specialize (Hfmt m Hin). unfold Build.format_error in Hfmt.
    rewrite Hloc in Hfmt. by rewrite !append_assoc in Hfmt.
Qed.

Lemma rejected_build_reported_witness :
  ∃ msg,
    Build.on_end
      {| Build.JSON_parse := Sample.parsed {[ "src/main.tsx" := "const = 1" ]};
         Build.esbuild_build := fun _ =>
           Build.Resolve (Sample.import_from "src/main.tsx" "react")
             (fun _ => Build.Finish (Build.Rejected
                {| message := "Build failed with 1 error";
                   errors := [ {| text := "Unexpected ="; location := Some
                                 {| file := "vfs:src/main.tsx"; line := 1; column := 6;
                                    lineText := "const = 1" |} |} ] |})) |}
      Sample.request_text
    = [ {| success := false; output := None; error := Some msg;
           externals := None; raw := None |} ] ∧
    JS.includes msg
      ("Unexpected = at vfs:src/main.tsx:1:6" +:+ JS.nl +:+ "const = 1" +:+ JS.nl
         +:+ "      ^") = true.
Proof.
  destruct (rejected_build_reported
    {| Build.JSON_parse := Sample.parsed {[ "src/main.tsx" := "const = 1" ]};
       Build.esbuild_build := fun _ =>
         Build.Resolve (Sample.import_from "src/main.tsx" "react")
           (fun _ => Build.Finish (Build.Rejected
              {| message := "Build failed with 1 error";
                 errors := [ {| text := "Unexpected ="; location := Some
                               {| file := "vfs:src/main.tsx"; line := 1; column := 6;
                                  lineText := "const = 1" |} |} ] |})) |}
    Sample.request_text
    (Sample.request {[ "src/main.tsx" := "const = 1" ]})
    {| message := "Build failed with 1 error";
       errors := [ {| text := "Unexpected ="; location := Some
                     {| file := "vfs:src/main.tsx"; line := 1; column := 6;
                        lineText := "const = 1" |} |} ] |}
    ["react"]) as (msg & Hend & _ & _ & Hloc); [by vm_compute | done | done |].
  exists msg. split; [done |].
  apply (Hloc {| text := "Unexpected ="; location := Some
                   {| file := "vfs:src/main.tsx"; line := 1; column := 6;
                      lineText := "const = 1" |} |}
              {| file := "vfs:src/main.tsx"; line := 1; column := 6;
                 lineText := "const = 1" |}); [by left | done].
Defined.

(* ===================================================================== *)
(** * Requests that are refused at once *)
(* ===================================================================== *)

(** X9.  An input of white space only (the empty input with it) is
    refused by both programs with the error [No input data received]:
    build.js asks neither the parser nor the bundler, check.js makes no
    call to the file system. *)
Theorem blank_input_refused inputData :
  blank inputData = true →
  (∀ w, Build.on_end w inputData
        = [ {| success := false; output := None; error := Some "No input data received";
               externals := None; raw := None |} ]) ∧
  (∀ w, Check.on_end w inputData
        = [ Check.Log {| success := false; output := None;
                         error := Some "No input data received";
                         externals := None; raw := None |} ]).
Proof.
  intros Hblank%trim_blank. split; intros w.
  - unfold Build.on_end, Build.try_block. by rewrite Hblank.
  - unfold Check.on_end, Check.handler, Check.try_block.
    rewrite !bind_unfold. unfold Check.try_catch. rewrite bind_unfold.
    by rewrite Hblank.
Qed.

Lemma blank_input_refused_witness :
  Check.on_end (Sample.machine true Sample.no_errors) ("  " +:+ JS.nl)
  = [ Check.Log {| success := false; output := None;
                   error := Some "No input data received";
                   externals := None; raw := None |} ].
Proof.
  apply (proj2 (blank_input_refused ("  " +:+ JS.nl) eq_refl)).
Defined.

(** X10.  An input that the parser refuses is answered with the message
    of the parser's error: build.js does not call the bundler, check.js
    creates no scope and makes no call to the file system. *)
Theorem unparsable_input_refused inputData :
  blank inputData = false →
  (∀ w e, Build.JSON_parse w inputData = inl e → errors e = [] →
          Build.on_end w inputData
          = [ {| success := false; output := None; error := Some (message e);
                 externals := None; raw := None |} ]) ∧
  (∀ w e, Check.JSON_parse w inputData = inl e →
          Check.on_end w inputData
          = [ Check.Log {| success := false; output := None; error := Some (message e);
                           externals := None; raw := None |} ]).
Proof.
  intros Hblank. assert (JS.truthy (JS.trim inputData) = true) as Hne.
  { apply truthy_spec. rewrite trim_blank. by rewrite Hblank. }
  split; intros w e Hparse.
  - intros He. unfold Build.on_end, Build.try_block. rewrite Hne, Hparse. simpl.
    unfold Build.failure_envelope, Build.errorMsg. by rewrite He.
  - unfold Check.on_end, Check.handler, Check.try_block.
    rewrite !bind_unfold. unfold Check.try_catch. rewrite !bind_unfold.
    by rewrite Hne, Hparse.
Qed.

Lemma unparsable_input_refused_witness :
  Check.on_end
    {| Check.JSON_parse := fun _ => inl (Error "Unexpected end of JSON input");
       Check.os_tmpdir := "/tmp"; Check.__dirname := "/app";
       Check.mkdtempSync := fun _ => inr "Ab12Cd";
       Check.mkdirSync := fun _ => None; Check.writeFileSync := fun _ => None;
       Check.existsSync := fun _ => true; Check.symlinkSync := fun _ _ => None;
       Check.rmSync := fun _ => None; Check.exec := fun _ _ => inr Sample.no_errors |}
    "{"
  = [ Check.Log {| success := false; output := None;
                   error := Some "Unexpected end of JSON input";
                   externals := None; raw := None |} ].
Proof.
  apply (proj2 (unparsable_input_refused "{" eq_refl)
           {| Check.JSON_parse := fun _ => inl (Error "Unexpected end of JSON input");
              Check.os_tmpdir := "/tmp"; Check.__dirname := "/app";
              Check.mkdtempSync := fun _ => inr "Ab12Cd";
              Check.mkdirSync := fun _ => None; Check.writeFileSync := fun _ => None;
              Check.existsSync := fun _ => true; Check.symlinkSync := fun _ _ => None;
              Check.rmSync := fun _ => None; Check.exec := fun _ _ => inr Sample.no_errors |}
           (Error "Unexpected end of JSON input") eq_refl).
Defined.

Section relative_keys.

(** The key of a relative import is empty, [.], [./], or starts with a
    character that is no separator. *)
Lemma relative_key_head dir specifier :
  dir ≠ "" → specifier ≠ "" →
  let key := Spec.strip_separator (Path.join dir specifier) in
  key = "" ∨ key = "." ∨ key = "./" ∨ ∃ c t, key = String c t ∧ Path.is_slash c = false.
Proof.
  intros Hdir Hspec. unfold Path.join.
  apply truthy_spec in Hdir as ->. apply truthy_spec in Hspec as ->.
  unfold Path.normalize.
  set (P := dir +:+ "/" +:+ specifier).
  destruct (String.eqb_spec P "") as [_|_]; [simpl; auto |].
  unfold Path.normalizeString.
  destruct (normalize_segments_collapsed (negb (Path.isAbsolute P)) P)
    as (n & rest & -> & Hrest & Hn).
  destruct (String.eqb_spec (JS.join "/" (replicate n ".." ++ rest)) "") as [_|Hne].
  { simpl. destruct (Path.isAbsolute P); [by left |].
    destruct (Path.trailingSeparator P); auto. }
  simpl. destruct (collapsed_join_head n rest Hrest Hne) as (c & t & Hj & Hc).
  do 3 right. destruct (Path.isAbsolute P).
  - rewrite strip_separator_slash, Hj. destruct (Path.trailingSeparator P).
    + rewrite append_cons. by eexists c, _.
    + by exists c, t.
  - rewrite Hj. destruct (Path.trailingSeparator P).
    + rewrite append_cons, strip_separator_head by done. by eexists c, _.
    + rewrite strip_separator_head by done. by exists c, t.
Qed.

End relative_keys.

(** X11.  The key of a relative import never starts with a separator,
    whatever the importer and however many [..] the specifier holds: keys
    of the virtual file set are looked up without a leading [/]. *)
Theorem relative_key_has_no_leading_separator collected a :
  Build.kind a ≠ "entry-point" →
  JS.startsWith (Build.path a) "." = true →
  Build.res_namespace (Build.onResolve collected a).1 = Some "vfs" ∧
  JS.startsWith (Build.res_path (Build.onResolve collected a).1) "/" = false.
Proof.
  intros Hk Hrel%starts_with_iff.
  rewrite <- (policy_determines collected a _ (Spec.relative a Hk Hrel)).
  split; [done |]. cbn [Build.res_path Build.in_namespace].
  destruct (relative_key_head (Path.dirname (Build.importer a)) (Build.path a))
    as [-> | [-> | [-> | (c & t & -> & Hc)]]]; try done.
  - apply dirname_truthy.
  - destruct Hrel as [rest ->]. done.
  - unfold JS.startsWith.
    change (String.prefix "/" (String c t))
      with (if ascii_dec "/" c then String.prefix "" t else false).
    destruct (ascii_dec "/" c) as [<-|]; [| done].
    unfold Path.is_slash, Path.slash in Hc. by rewrite Ascii.eqb_refl in Hc.
Qed.

Lemma relative_key_has_no_leading_separator_witness :
  Build.res_namespace
    (Build.onResolve [] (Sample.import_from "/abs/main.tsx" "../../../x")).1 = Some "vfs" ∧
  JS.startsWith
    (Build.res_path
       (Build.onResolve [] (Sample.import_from "/abs/main.tsx" "../../../x")).1) "/" = false.
Proof.
  apply (relative_key_has_no_leading_separator []
           (Sample.import_from "/abs/main.tsx" "../../../x")); by vm_compute.
Defined.

(* ===================================================================== *)
(** * More on the handler of check.js *)
(* ===================================================================== *)

Section link_failure.

Import Check.

Variable w : World.
Variable link : string → string → option Exc.

Abbreviation wl := (with_symlinkSync link w).

Lemma write_files_any_link dir l s : write_files wl dir l s = write_files w dir l s.
Proof.
  revert s. induction l as [|[filepath content] l IH]; intros s; [done |].
  cbn [write_files]. do 4 (apply bind_ext_r; intros ? ?). apply IH.
Qed.

(** What the linking answers is lost in its [try]. *)
Lemma swallow_link_any_answer target p s :
  swallow (emit (Symlink target p);; check (link target p)) s
  = swallow (emit (Symlink target p);; check (symlinkSync w target p)) s.
Proof.
  unfold swallow, try_catch. rewrite !bind_unfold.
  change (emit (Symlink target p) s)
    with ({| tmpDir := tmpDir s; trace := trace s ++ [Symlink target p] |}, @inr Exc _ tt).
  cbv beta iota. by destruct (link target p), (symlinkSync w target p).
Qed.

Lemma try_block_any_link inputData s : try_block wl inputData s = try_block w inputData s.
Proof.
  unfold try_block. do 5 (apply bind_ext_r; intros ? ?).
  destruct (files _); [| done].
  apply bind_ext; [apply write_files_any_link |]. intros ? ?.
  do 2 (apply bind_ext_r; intros ? ?).
  change (find_tsc wl) with (find_tsc w). destruct (find_tsc w); [| done].
  apply bind_ext; [apply swallow_link_any_answer | done].
Qed.

End link_failure.

(** X12.  Linking [node_modules] into the scope is best effort: whether
    [symlinkSync] throws or not, a request makes the same calls, starts the
    checker the same way and logs the same envelope. *)
Theorem link_failure_ignored w link inputData :
  Check.on_end (with_symlinkSync link w) inputData = Check.on_end w inputData.
Proof.
  unfold Check.on_end. f_equal. f_equal. unfold Check.handler. apply bind_ext.
  - unfold Check.try_catch. rewrite try_block_any_link.
    by destruct (Check.try_block w inputData Check.initial) as [s [e|r]].
  - done.
Qed.

Section check_runs.

Import Check.

Variable w : World.

Lemma write_files_all_written d evs l :
  (∀ p, mkdirSync w p = None) → (∀ p, writeFileSync w p = None) →
  write_files w d l (scoped d evs) = (scoped d (evs ++ materialized d l), inr tt).
Proof.
  intros Hmk Hwr. revert evs. induction l as [|[filepath content] l IH]; intros evs.
  - simpl. by rewrite app_nil_r.
  - cbn [write_files]. rewrite bind_unfold, emit_scoped, bind_unfold, Hmk.
    cbn [check]. unfold ret at 1. rewrite bind_unfold, emit_scoped, bind_unfold, Hwr.
    cbn [check]. unfold ret at 1. rewrite IH. simpl. by rewrite <- !app_assoc.
Qed.

(** An entry that [Object.entries] lists is a property of the object. *)
Lemma Object_entries_elem (fs : gmap string string) keys key content :
  (key, content) ∈ Object_entries fs keys → fs !! key = Some content.
Proof.
  unfold Object_entries. intros (k & _ & Hk)%list_elem_of_omap.
  destruct (fs !! k) as [c|] eqn:Hc; [| done]. by injection Hk as -> ->.
Qed.

(** When the keys are keys of the object, the entries are the keys in
    their order, each with its content. *)
Lemma Object_entries_in_order (fs : gmap string string) keys :
  (∀ key, key ∈ keys → is_Some (fs !! key)) →
  Object_entries fs keys = entries_in_order fs keys.
Proof.
  unfold Object_entries, entries_in_order. induction keys as [|k keys IH]; [done |].
  intros Hkeys. destruct (Hkeys k) as [c Hc]; [by left |].
  cbn [omap list_omap fmap list_fmap]. rewrite Hc. cbn [fmap option_fmap option_map default].
  f_equal. apply IH. intros key ?. apply Hkeys. by right.
Qed.

(** When the keys are the keys of the object, each once, the entries in
    their order are the properties of the object. *)
Lemma entries_in_order_all (fs : gmap string string) keys :
  keys ≡ₚ (map_to_list fs).*1 → entries_in_order fs keys ≡ₚ map_to_list fs.
Proof.
  intros Hperm. unfold entries_in_order. rewrite Hperm, <- list_fmap_compose.
  assert (∀ l : list (string * string),
            (∀ kv, kv ∈ l → fs !! kv.1 = Some kv.2) →
            ((fun key => (key, default "" (fs !! key))) ∘ fst) <$> l = l) as Hid.
  { induction l as [|[key content] l IH]; [done |]. intros Hl.
    pose proof (Hl (key, content) ltac:(by left)) as Hkey. cbn [fst snd] in Hkey.
    cbn [fmap list_fmap]. unfold compose at 1. cbn [fst]. rewrite Hkey.
    cbn [default]. f_equal. apply IH. intros kv ?. apply Hl. by right. }
  rewrite Hid; [done |]. intros [key content] Hin. by apply elem_of_map_to_list.
Qed.

Lemma perm_by_decide (l k : list string) : bool_decide (l ≡ₚ k) = true → l ≡ₚ k.
Proof. intros H. by apply bool_decide_eq_true in H. Qed.

Lemma swallow_link_scoped d evs target p :
  swallow (emit (Symlink target p);; check (symlinkSync w target p)) (scoped d evs)
  = (scoped d (evs ++ [Symlink target p]), inr tt).
Proof.
  unfold swallow, try_catch. rewrite bind_unfold, emit_scoped.
  by destruct (symlinkSync w target p).
Qed.

End check_runs.

(** X13.  On a machine where no call fails and the checker is installed,
    a request makes these calls, in this order: the scope is created; for
    every file of the request, in the order in which the request lists
    its keys, its directory is made and its content is written at the key
    joined to the scope; the configuration is written; [node_modules] is
    linked; the checker is started with the scope as working directory;
    the scope is removed; the verdict is logged.  Every file of the
    request is written, and once. *)
Theorem calls_of_a_checked_request w inputData payload fs suffix tscPath res :
  JS.trim inputData ≠ "" →
  Check.JSON_parse w inputData = inr payload →
  files payload = Some fs →
  files_keys payload ≡ₚ (map_to_list fs).*1 →
  Check.mkdtempSync w (Path.join (Check.os_tmpdir w) "nekro-check-") = inr suffix →
  (∀ p, Check.mkdirSync w p = None) →
  (∀ p, Check.writeFileSync w p = None) →
  Check.find_tsc w = Some tscPath →
  let d := Path.join (Check.os_tmpdir w) "nekro-check-" +:+ suffix in
  Check.exec w (Check.command tscPath) d = inr res →
  Check.on_end w inputData
  = Check.Mkdtemp d :: materialized d (entries_in_order fs (files_keys payload))
    ++ [ Check.WriteTsconfig (Path.join d "tsconfig.json");
         Check.Symlink (Path.join (Check.__dirname w) "node_modules")
                       (Path.join d "node_modules");
         Check.Exec (Check.command tscPath) d;
         Check.Rm d;
         Check.Log (Check.verdict (Some d) res) ] ∧
  entries_in_order fs (files_keys payload) ≡ₚ map_to_list fs.
Proof.
  intros Hne%truthy_spec Hparse Hfiles Hkeys Hmk Hmkdir Hwrite Htsc d Hexec.
  split; [| by apply entries_in_order_all].
  assert (Check.Object_entries fs (files_keys payload)
          = entries_in_order fs (files_keys payload)) as Hentries.
  { apply Object_entries_in_order. intros key Hkey. rewrite Hkeys in Hkey.
    apply list_elem_of_fmap in Hkey as ([k c] & -> & Hin%elem_of_map_to_list).
    by exists c. }
  assert (Check.try_block w inputData Check.initial
          = (scoped d (materialized d (entries_in_order fs (files_keys payload))
                       ++ [ Check.WriteTsconfig (Path.join d "tsconfig.json");
                            Check.Symlink (Path.join (Check.__dirname w) "node_modules")
                                          (Path.join d "node_modules");
                            Check.Exec (Check.command tscPath) d ]),
             inr (Some res))) as Htry.
  { unfold Check.try_block. rewrite bind_unfold, Hne. cbn [negb].
    unfold Check.ret at 1. rewrite bind_unfold, Hparse. cbn [Check.of_sum].
    unfold Check.ret at 1. rewrite bind_unfold. unfold Check.mkdtemp.
    rewrite bind_unfold, Hmk. cbn [Check.of_sum]. unfold Check.ret at 1 2.
    cbv beta iota. fold d. rewrite bind_unfold.
    change (Check.emit (Check.Mkdtemp d) Check.initial) with
      ({| Check.tmpDir := None; Check.trace := [Check.Mkdtemp d] |}, @inr Exc _ tt).
    cbv beta iota. rewrite bind_unfold.
    change (Check.set_tmpDir d _) with (scoped d [], @inr Exc _ tt).
    cbv beta iota. rewrite Hfiles, Hentries, bind_unfold, write_files_all_written by done.
    rewrite bind_unfold, emit_scoped, bind_unfold, Hwrite. cbn [Check.check].
    unfold Check.ret at 1. rewrite Htsc, bind_unfold.
    rewrite swallow_link_scoped, bind_unfold, emit_scoped, bind_unfold, Hexec.
    cbn [Check.of_sum]. unfold Check.ret. by rewrite <- !app_assoc. }
  unfold Check.on_end, Check.handler. rewrite bind_unfold. unfold Check.try_catch.
  rewrite Htry, exec_callback_scoped. simpl. by rewrite <- !app_assoc.
Qed.

Lemma calls_of_a_checked_request_witness :
  Check.on_end
    (Sample.machine_for (Sample.request_in_order Sample.three_files) Sample.no_errors)
    Sample.three_files_text
  = [ Check.Mkdtemp "/tmp/nekro-check-Ab12Cd";
      Check.Mkdir "/tmp/nekro-check-Ab12Cd/b/c";
      Check.WriteFile "/tmp/nekro-check-Ab12Cd/b/c/d.css" "body{}";
      Check.Mkdir "/tmp/nekro-check-Ab12Cd/src";
      Check.WriteFile "/tmp/nekro-check-Ab12Cd/src/a.ts" "export const a=1";
      Check.Mkdir "/tmp/nekro-check-Ab12Cd/src";
      Check.WriteFile "/tmp/nekro-check-Ab12Cd/src/main.tsx" "import './a'";
      Check.WriteTsconfig "/tmp/nekro-check-Ab12Cd/tsconfig.json";
      Check.Symlink "/app/local_compiler/node_modules"
                    "/tmp/nekro-check-Ab12Cd/node_modules";
      Check.Exec (Check.command "/app/local_compiler/node_modules/.bin/tsc")
                 "/tmp/nekro-check-Ab12Cd";
      Check.Rm "/tmp/nekro-check-Ab12Cd";
      Check.Log (Check.ok "No errors found.") ].
Proof.
  rewrite (proj1 (calls_of_a_checked_request
             (Sample.machine_for (Sample.request_in_order Sample.three_files)
                Sample.no_errors)
             Sample.three_files_text
             (Sample.request_in_order Sample.three_files)
             (list_to_map Sample.three_files) "Ab12Cd"
             "/app/local_compiler/node_modules/.bin/tsc" Sample.no_errors
             ltac:(by vm_compute) eq_refl eq_refl
             ltac:(apply perm_by_decide; by vm_compute)
             eq_refl ltac:(done) ltac:(done) ltac:(by vm_compute) ltac:(by vm_compute)));
    by vm_compute.
Defined.

Section check_responses.

Import Check.

Variable w : World.

(** The envelope of a request: a rejection, the warning that the checker
    is not installed, or the verdict of the checker. *)
Lemma logged_envelope inputData :
  ∃ env, logged (on_end w inputData) = [env] ∧
    ((∃ msg, env = failed msg None) ∨ env = ok tsc_missing_warning ∨
     ∃ d res, env = verdict (Some d) res).
Proof.
  destruct (on_end_run w inputData) as [e | d evs e Hd Hevs | d evs Hd Hevs Htsc
                                        | d evs tscPath res Hd Hevs Htsc Hexec].
  - exists (failed (message e) None). split; [done |]. left. by eexists.
  - exists (failed (message e) None). rewrite logged_scoped_run by done.
    split; [done |]. left. by eexists.
  - exists (ok tsc_missing_warning). rewrite logged_scoped_run by done. auto.
  - exists (verdict (Some d) res). rewrite logged_scoped_run by done.
    split; [done |]. right. right. by eexists _, _.
Qed.

Lemma truncated_length s :
  JS.length (truncated s) ≤ limit + JS.length truncation_marker.
Proof.
  unfold truncated. destruct (Nat.ltb_spec limit (JS.length s)) as [Hlong|Hshort].
  - unfold JS.length in *. rewrite append_length, substring_to_length; lia.
  - lia.
Qed.

(** The verdict: one of two successes, or a failure with the cleaned text
    and the raw output. *)
Lemma verdict_cases dir res :
  verdict dir res = ok "No errors found." ∨
  verdict dir res = ok "No critical errors found (ignored missing modules)." ∨
  ∃ err, exec_error res = Some err ∧
    verdict dir res
    = failed (truncated (cleaned dir (raw_output err (stdout res) (stderr res))))
        (Some (raw_output err (stdout res) (stderr res))).
Proof.
  unfold verdict. destruct (exec_error res) as [err|]; [| by left].
  destruct (report_cases dir err (stdout res) (stderr res)) as [[_ ->] | [_ ->]]; [auto |].
  right. right. by exists err.
Qed.

End check_responses.


(** X15.  A successful response of check.js carries one of three fixed
    messages (no errors; only missing modules; the checker is not
    installed) and no [raw] field. *)
Theorem success_messages_are_fixed w inputData :
  ∃ env,
    Check.logged (Check.on_end w inputData) = [env] ∧
    (success env = true →
     raw env = None ∧ ∃ msg, output env = Some msg ∧ msg ∈ success_messages).
Proof.
  destruct (logged_envelope w inputData) as (env & Hlog & Hcases).
  exists env. split; [done |]. intros Hok. unfold success_messages.
  destruct Hcases as [[msg ->] | [-> | (d & res & ->)]]; [done | |].
  - split; [done |]. eexists. split; [done |]. do 2 right. by left.
  - destruct (verdict_cases (Some d) res) as [Hv | [Hv | (err & _ & Hv)]];
      rewrite Hv in *; [| | done].
    + split; [done |]. eexists. split; [done |]. by left.
    + split; [done |]. eexists. split; [done |]. right. by left.
Qed.

(** X16.  A response with a [raw] field is a failure whose [error] is at
    most 2000 characters plus the truncation marker long, however long the
    output of the checker is. *)
Theorem reported_error_is_bounded w inputData :
  ∃ env,
    Check.logged (Check.on_end w inputData) = [env] ∧
    (∀ r, raw env = Some r →
       success env = false ∧
       ∃ msg, error env = Some msg ∧ JS.length msg ≤ 2000 + 38).
Proof.
  destruct (logged_envelope w inputData) as (env & Hlog & Hcases).
  exists env. split; [done |]. intros r Hraw.
  destruct Hcases as [[msg ->] | [-> | (d & res & ->)]]; [done | done |].
  destruct (verdict_cases (Some d) res) as [Hv | [Hv | (err & _ & Hv)]];
    rewrite Hv in *; [done | done |].
  split; [done |]. eexists. split; [done |]. apply truncated_length.
Qed.

Section pass_through.

Import Check.

Lemma split_not_nil c s : JS.split c s ≠ [].
Proof.
  destruct s as [|a s]; [done |]. simpl.
  destruct (Ascii.eqb a c); [done |]. by destruct (JS.split c s).
Qed.

(** Joining the lines of a text gives the text back. *)
Lemma join_split s : JS.join JS.nl (JS.split JS.LF s) = s.
Proof.
  induction s as [|a s IH]; [done |]. simpl.
  pose proof (split_not_nil JS.LF s) as Hne.
  destruct (Ascii.eqb_spec a JS.LF) as [->|Hna].
  - rewrite join_cons. destruct (JS.split JS.LF s) as [|h t]; [done |].
    rewrite IH, append_nil. done.
  - destruct (JS.split JS.LF s) as [|h t]; [done |].
    rewrite join_cons in IH |- *. destruct t.
    + by rewrite IH.
    + rewrite append_cons. by rewrite IH.
Qed.

(** The first line of a text starts it, and every other line is a part
    of it. *)
Lemma split_shape c s :
  ∃ h t, JS.split c s = h :: t ∧ (∃ post, s = h +:+ post) ∧
         ∀ ln, ln ∈ t → ∃ pre post, s = pre +:+ ln +:+ post.
Proof.
  induction s as [|a s (h & t & Hs & [post Hh] & Ht)].
  - exists "", []. split_and!; [done | by exists "" |]. by intros ln ?%elem_of_nil.
  - simpl. rewrite Hs. destruct (Ascii.eqb a c).
    + exists "", (h :: t). split_and!; [done | by exists (String a s) |].
      intros ln [->|Hin]%elem_of_cons.
      * exists (String a ""), post. by rewrite Hh at 1.
      * destruct (Ht ln Hin) as (pre & post' & Heq).
        exists (String a pre), post'. by rewrite Heq at 1.
    + exists (String a h), t. split_and!; [done | exists post; by rewrite Hh at 1 |].
      intros ln Hin. destruct (Ht ln Hin) as (pre & post' & Heq).
      exists (String a pre), post'. by rewrite Heq at 1.
Qed.

(** A line of a text is a part of it. *)
Lemma split_part c s ln :
  ln ∈ JS.split c s → ∃ pre post, s = pre +:+ ln +:+ post.
Proof.
  destruct (split_shape c s) as (h & t & -> & [post Hh] & Ht).
  intros [->|Hin]%elem_of_cons; [by exists "", post | by apply Ht].
Qed.

Lemma includes_part s ln d pre post :
  s = pre +:+ ln +:+ post → JS.includes ln d = true → JS.includes s d = true.
Proof.
  intros -> (a & b & ->)%includes_spec. apply includes_spec.
  exists (pre +:+ a), (b +:+ post). by rewrite !append_assoc.
Qed.

Lemma filter_all {A} (f : A → bool) l : forallb f l = true → List.filter f l = l.
Proof.
  induction l as [|x l IH]; [done |]. simpl. intros [Hx Hl]%andb_true_iff.
  by rewrite Hx, IH.
Qed.

Lemma map_fixed {A} (f : A → A) l : (∀ x, x ∈ l → f x = x) → map f l = l.
Proof.
  induction l as [|x l IH]; [done |]. intros H. simpl.
  rewrite H, IH; [done | | by left]. intros y ?. apply H. by right.
Qed.

End pass_through.

(** X17.  When the checker exits with an error, no line of its output is
    suppressed and the output does not name the scope, the text left by
    the filter is the output itself, line breaks included: the response is
    a failure whose [error] is the output (cut at the limit with the
    marker when it is longer) and whose [raw] is the output. *)
Theorem untouched_output_passes_through dir err out errout :
  let rawOutput :=
    if String.eqb out "" then if String.eqb errout "" then message err else errout
    else out in
  forallb (fun ln => negb (Spec.suppressed ln)) (JS.split JS.LF rawOutput) = true →
  (∀ d, dir = Some d → JS.includes rawOutput d = false) →
  let env := Check.report dir err out errout in
  Check.cleaned dir rawOutput = rawOutput ∧
  success env = false ∧ output env = None ∧ externals env = None ∧
  raw env = Some rawOutput ∧
  (JS.length rawOutput ≤ 2000 → error env = Some rawOutput) ∧
  (2000 < JS.length rawOutput →
   error env = Some (JS.substring_to 2000 rawOutput +:+ JS.nl
                     +:+ "... (Status: Truncated due to length)")).
Proof.
  intros rawOutput Hkept Hdir env.
  assert (Spec.reported_lines rawOutput = JS.split JS.LF rawOutput) as Hall
    by (by apply filter_all).
  assert (map (Check.rewrite_line dir) (JS.split JS.LF rawOutput) = JS.split JS.LF rawOutput)
    as Hsame.
  { apply map_fixed. intros ln Hln. unfold Check.rewrite_line. destruct dir as [d|]; [| done].
    destruct (JS.includes ln d) eqn:Hinc; [| by rewrite andb_false_r].
    destruct (split_part _ _ _ Hln) as (pre & post & Heq).
    specialize (Hdir d eq_refl). by rewrite (includes_part _ _ _ _ _ Heq Hinc) in Hdir. }
  split.
  { unfold Check.cleaned. by rewrite filter_keep_line, Hall, Hsame, join_split. }
  destruct (report_fields dir err out errout) as [_ Hsome].
  fold rawOutput in Hsome. rewrite Hall, Hsame, join_split in Hsome.
  destruct Hsome as (Hs & Ho & Hx & Hr & He); [apply split_not_nil |].
  fold env in Hs, Ho, Hx, Hr, He. split_and!; try done.
  - intros Hshort%Nat.ltb_ge. rewrite He. unfold Check.truncated, Check.limit.
    by rewrite Hshort.
  - intros Hlong%Nat.ltb_lt. rewrite He. unfold Check.truncated, Check.limit.
    by rewrite Hlong.
Qed.

Lemma untouched_output_passes_through_witness :
  Check.report (Some Sample.scope) (Error "Command failed")
    ("src/main.tsx(1,7): error TS2322: Type 'number' is not assignable to type 'string'."
     +:+ JS.nl +:+ "src/a.ts(2,1): error TS2304: Cannot find name 'foo'.") ""
  = {| success := false; output := None;
       error := Some
         ("src/main.tsx(1,7): error TS2322: Type 'number' is not assignable to type 'string'."
          +:+ JS.nl +:+ "src/a.ts(2,1): error TS2304: Cannot find name 'foo'.");
       externals := None;
       raw := Some
         ("src/main.tsx(1,7): error TS2322: Type 'number' is not assignable to type 'string'."
          +:+ JS.nl +:+ "src/a.ts(2,1): error TS2304: Cannot find name 'foo'.") |}.
Proof.
  destruct (untouched_output_passes_through (Some Sample.scope) (Error "Command failed")
    ("src/main.tsx(1,7): error TS2322: Type 'number' is not assignable to type 'string'."
     +:+ JS.nl +:+ "src/a.ts(2,1): error TS2304: Cannot find name 'foo'.") "")
    as (_ & Hs & Ho & Hx & Hr & Hshort & _).
  - by vm_compute.
  - intros d [= <-]. by vm_compute.
  - specialize (Hshort ltac:(vm_compute; lia)).
    destruct (Check.report _ _ _ _) as [su ou er ex ra].
    cbn [success output error externals raw] in *.
    rewrite Hs, Ho, Hx, Hr, Hshort. by vm_compute.
Defined.

(** X18.  A request whose payload has no [files] still gets a scope: the
    scope is created, nothing is written, the scope is removed, and a
    failure is logged. *)
Theorem request_without_files w inputData payload suffix :
  JS.trim inputData ≠ "" →
  Check.JSON_parse w inputData = inr payload →
  files payload = None →
  Check.mkdtempSync w (Path.join (Check.os_tmpdir w) "nekro-check-") = inr suffix →
  let d := Path.join (Check.os_tmpdir w) "nekro-check-" +:+ suffix in
  ∃ msg,
    Check.on_end w inputData
    = [ Check.Mkdtemp d; Check.Rm d; Check.Log (Check.failed msg None) ].
Proof.
  intros Hne%truthy_spec Hparse Hfiles Hmk d.
  assert (d ≠ "") as Hd by apply append_truthy, join_truthy.
  assert (∃ e, Check.try_block w inputData Check.initial = (scoped d [], inl e))
    as [e Htry].
  { unfold Check.try_block. rewrite bind_unfold, Hne. cbn [negb].
    unfold Check.ret at 1. rewrite bind_unfold, Hparse. cbn [Check.of_sum].
    unfold Check.ret at 1. rewrite bind_unfold. unfold Check.mkdtemp.
    rewrite bind_unfold, Hmk. cbn [Check.of_sum]. unfold Check.ret at 1 2.
    cbv beta iota. fold d. rewrite bind_unfold.
    change (Check.emit (Check.Mkdtemp d) Check.initial) with
      ({| Check.tmpDir := None; Check.trace := [Check.Mkdtemp d] |}, @inr Exc _ tt).
    cbv beta iota. rewrite bind_unfold.
    change (Check.set_tmpDir d _) with (scoped d [], @inr Exc _ tt).
    cbv beta iota. rewrite Hfiles. by eexists. }
  exists (message e).
  unfold Check.on_end, Check.handler. rewrite bind_unfold. unfold Check.try_catch.
  by rewrite Htry, catch_block_scoped.
Qed.

Lemma request_without_files_witness :
  ∃ msg,
    Check.on_end
      {| Check.JSON_parse := fun _ => inr {| files := None; env_vars := None; files_keys := [] |};
         Check.os_tmpdir := "/tmp"; Check.__dirname := "/app";
         Check.mkdtempSync := fun _ => inr "Ab12Cd";
         Check.mkdirSync := fun _ => None; Check.writeFileSync := fun _ => None;
         Check.existsSync := fun _ => true; Check.symlinkSync := fun _ _ => None;
         Check.rmSync := fun _ => None; Check.exec := fun _ _ => inr Sample.no_errors |}
      "{}"
    = [ Check.Mkdtemp "/tmp/nekro-check-Ab12Cd"; Check.Rm "/tmp/nekro-check-Ab12Cd";
        Check.Log (Check.failed msg None) ].
Proof.
  apply (request_without_files
    {| Check.JSON_parse := fun _ => inr {| files := None; env_vars := None; files_keys := [] |};
       Check.os_tmpdir := "/tmp"; Check.__dirname := "/app";
       Check.mkdtempSync := fun _ => inr "Ab12Cd";
       Check.mkdirSync := fun _ => None; Check.writeFileSync := fun _ => None;
       Check.existsSync := fun _ => true; Check.symlinkSync := fun _ _ => None;
       Check.rmSync := fun _ => None; Check.exec := fun _ _ => inr Sample.no_errors |}
    "{}" {| files := None; env_vars := None; files_keys := [] |} "Ab12Cd"); by vm_compute.
Defined.

Lemma cleanup_first_when_installed_witness :
  Spec.cleanup_before_response
    (Check.on_end (Sample.machine true Sample.no_errors) Sample.request_text) = true.
Proof.
  apply (cleanup_first_when_installed (Sample.machine true Sample.no_errors)
           Sample.request_text).
  by vm_compute.
Defined.

Section expected_calls.

Import Check.

Variable w : World.

Lemma find_tsc_exists tscPath : find_tsc w = Some tscPath → existsSync w tscPath = true.
Proof.
  unfold find_tsc.
  destruct (existsSync w (resolve (__dirname w) "node_modules/.bin/tsc")) eqn:H1.
  - by intros [= <-].
  - destruct (existsSync w (resolve (__dirname w) "node_modules/typescript/bin/tsc")) eqn:H2;
      [by intros [= <-] | done].
Qed.

Lemma write_files_expected d (fs : gmap string string) evs l :
  (∀ key content, (key, content) ∈ l → fs !! key = Some content) →
  Forall (expected_call w d fs) evs →
  ∃ evs' r, write_files w d l (scoped d evs) = (scoped d evs', r) ∧
            Forall (expected_call w d fs) evs'.
Proof.
  revert evs. induction l as [|[filepath content] l IH]; intros evs Hl Hevs.
  - by exists evs, (inr tt).
  - assert (fs !! filepath = Some content) as Hk by (apply Hl; by left).
    assert (Forall (expected_call w d fs)
              (evs ++ [Mkdir (Path.dirname (Path.join d filepath))])) as H1.
    { apply Forall_app. split; [done |]. apply Forall_singleton. by exists filepath, content. }
    assert (Forall (expected_call w d fs)
              ((evs ++ [Mkdir (Path.dirname (Path.join d filepath))])
                 ++ [WriteFile (Path.join d filepath) content])) as H2.
    { apply Forall_app. split; [done |]. apply Forall_singleton. by exists filepath. }
    cbn [write_files]. rewrite bind_unfold, emit_scoped, bind_unfold.
    destruct (mkdirSync w _) as [e|]; cbn [check]; [by eexists _, (inl e) |].
    unfold ret at 1. rewrite bind_unfold, emit_scoped, bind_unfold.
    destruct (writeFileSync w _) as [e|]; cbn [check]; [by eexists _, (inl e) |].
    unfold ret at 1. apply IH; [| done]. intros key c ?. apply Hl. by right.
Qed.

Lemma try_block_expected inputData : TryCalls w inputData (try_block w inputData initial).
Proof.
  unfold try_block. rewrite bind_unfold.
  destruct (negb (JS.truthy (JS.trim inputData))); [constructor |].
  unfold ret at 1. rewrite bind_unfold.
  destruct (JSON_parse w inputData) as [e|payload] eqn:Hparse; [constructor |].
  cbn [of_sum]. unfold ret at 1. rewrite bind_unfold.
  unfold mkdtemp. rewrite bind_unfold.
  destruct (mkdtempSync w _) as [e|suffix] eqn:Hmk; [constructor |].
  cbn [of_sum]. unfold ret at 1 2. cbv beta iota.
  set (d := Path.join (os_tmpdir w) "nekro-check-" +:+ suffix).
  rewrite bind_unfold.
  change (emit (Mkdtemp d) initial) with
    ({| tmpDir := None; trace := [Mkdtemp d] |}, @inr Exc _ tt).
  cbv beta iota. rewrite bind_unfold.
  change (set_tmpDir d _) with (scoped d [], @inr Exc _ tt).
  cbv beta iota.
  destruct (files payload) as [fs|] eqn:Hfiles.
  2: { apply (calls_scoped w inputData payload suffix); [done | done | constructor]. }
  rewrite bind_unfold.
  destruct (write_files_expected d fs [] (Object_entries fs (files_keys payload)))
    as (evs & r & -> & Hevs).
  { intros key content. apply Object_entries_elem. }
  { constructor. }
  assert (∀ evs' r', Forall (expected_call w d fs) evs' →
                     TryCalls w inputData (scoped d evs', r')) as Hdone.
  { intros evs' r' H. apply (calls_scoped w inputData payload suffix); [done | done |].
    by rewrite Hfiles. }
  destruct r as [e|[]]; [by apply Hdone |].
  rewrite bind_unfold, emit_scoped, bind_unfold.
  assert (Forall (expected_call w d fs)
            (evs ++ [WriteTsconfig (Path.join d "tsconfig.json")])) as H1.
  { apply Forall_app. split; [done |]. by apply Forall_singleton. }
  destruct (writeFileSync w _) as [e|]; cbn [check]; [by apply Hdone |].
  unfold ret at 1. destruct (find_tsc w) as [tscPath|] eqn:Htsc.
  - rewrite bind_unfold, swallow_link_scoped, bind_unfold, emit_scoped, bind_unfold.
    assert (Forall (expected_call w d fs)
              (((evs ++ [WriteTsconfig (Path.join d "tsconfig.json")])
                  ++ [Symlink (Path.join (__dirname w) "node_modules")
                        (Path.join d "node_modules")])
                 ++ [Exec (command tscPath) d])) as H2.
    { apply Forall_app. split; [| apply Forall_singleton].
      + apply Forall_app. split; [done |]. by apply Forall_singleton.
      + split; [done |]. exists tscPath.
        split_and!; [done | by apply find_tsc_exists | done]. }
    destruct (exec w (command tscPath) d) as [e|res]; cbn [of_sum]; by apply Hdone.
  - rewrite bind_unfold.
    change (console_log ?e (scoped d ?evs)) with (scoped d (evs ++ [Log e]), @inr Exc _ tt).
    cbv beta iota. rewrite bind_unfold, swallow_rm_scoped. unfold ret.
    apply Hdone. apply Forall_app. split; [| by apply Forall_singleton].
    apply Forall_app. split; [done |]. by apply Forall_singleton.
Qed.

End expected_calls.

(** X21.  Whatever fails on the way, a request makes no other call than
    these: it creates its scope under the temporary directory with the
    prefix [nekro-check-]; it makes directories and writes contents only for
    files of the request, each at its key joined to the scope; it writes
    the configuration and links [node_modules] inside the scope; it starts
    nothing but the checker it found to exist, with the scope as working
    directory; it removes nothing but its scope. *)
Theorem only_expected_calls w inputData :
  (∃ env, Check.on_end w inputData = [Check.Log env]) ∨
  (∃ payload suffix,
     Check.JSON_parse w inputData = inr payload ∧
     Check.mkdtempSync w (Path.join (Check.os_tmpdir w) "nekro-check-") = inr suffix ∧
     Forall (expected_call w (Path.join (Check.os_tmpdir w) "nekro-check-" +:+ suffix)
               (default ∅ (files payload)))
       (Check.on_end w inputData)).
Proof.
  unfold Check.on_end, Check.handler. rewrite bind_unfold. unfold Check.try_catch.
  destruct (try_block_expected w inputData) as [e | payload suffix evs r Hparse Hmk Hevs].
  - left. rewrite catch_block_initial. by eexists.
  - right. exists payload, suffix. split_and!; [done | done |].
    set (d := Path.join (Check.os_tmpdir w) "nekro-check-" +:+ suffix) in *.
    assert (d ≠ "") as Hd by apply append_truthy, join_truthy.
    destruct r as [e|[res|]].
    + rewrite catch_block_scoped by done. cbn [fst Check.trace scoped].
      apply Forall_cons. split; [done |]. apply Forall_app. split; [done |].
      by repeat constructor.
    + rewrite exec_callback_scoped. cbn [fst Check.trace scoped].
      apply Forall_cons. split; [done |]. apply Forall_app. split; [done |].
      by repeat constructor.
    + cbn [fst Check.trace scoped]. apply Forall_cons. by split.
Qed.

(* ===================================================================== *)
(** * Relative imports *)
(* ===================================================================== *)

Section relative_imports.

Import Path.

Implicit Types segs dirs names : list string.

Lemma slash_free_chars s :
  JS.includes s "/" = false → Forall (λ c, is_slash c = false) (list_ascii_of_string s).
Proof.
  induction s as [|c s IH]; [constructor |].
  rewrite includes_slash_cons. intros [Hc Hs]%orb_false_iff.
  simpl. constructor; [done | by apply IH].
Qed.

Lemma split_slash_free s : JS.includes s "/" = false → JS.split slash s = [s].
Proof.
  induction s as [|c s IH]; [done |].
  rewrite includes_slash_cons. intros [Hc Hs]%orb_false_iff.
  unfold is_slash in Hc. simpl. by rewrite Hc, IH.
Qed.

Lemma split_child s rest :
  JS.includes s "/" = false → JS.split slash (s +:+ "/" +:+ rest) = s :: JS.split slash rest.
Proof.
  induction s as [|c s IH].
  - intros _. by rewrite append_nil.
  - rewrite includes_slash_cons. intros [Hc Hs]%orb_false_iff.
    unfold is_slash in Hc. rewrite append_cons. simpl. by rewrite Hc, IH.
Qed.

(** Splitting at the separator what was joined with it gives the segments
    back. *)
Lemma split_join segs :
  segs ≠ [] → Forall (λ s, JS.includes s "/" = false) segs →
  JS.split slash (JS.join "/" segs) = segs.
Proof.
  induction segs as [|s segs IH]; [done |].
  intros _ [Hs Hsegs]%Forall_cons. rewrite join_cons. destruct segs as [|s' segs].
  - by apply split_slash_free.
  - rewrite split_child by done. f_equal. by apply IH.
Qed.

Lemma join_app sep a b :
  a ≠ [] → b ≠ [] → JS.join sep (a ++ b) = JS.join sep a +:+ sep +:+ JS.join sep b.
Proof.
  induction a as [|x a IH]; [done |]. intros _ Hb. destruct a as [|y a].
  - change ([x] ++ b) with (x :: b). rewrite join_cons. by destruct b.
  - change ((x :: y :: a) ++ b) with (x :: (y :: a ++ b)).
    rewrite (join_cons sep x (y :: a ++ b)), (join_cons sep x (y :: a)).
    change (y :: a ++ b) with ((y :: a) ++ b). rewrite IH by done.
    by rewrite !append_assoc.
Qed.

Lemma normalize_step_ordinary allow stack seg :
  Spec.ordinary seg → normalize_step allow stack seg = seg :: stack.
Proof.
  intros (H1 & H2 & H3 & _). unfold normalize_step.
  destruct (String.eqb_spec seg ""); [done |].
  destruct (String.eqb_spec seg "."); [done |]. simpl.
  by destruct (String.eqb_spec seg "..").
Qed.

(** Ordinary segments are kept, in their order. *)
Lemma fold_ordinary allow segs stack :
  Forall Spec.ordinary segs →
  fold_left (normalize_step allow) segs stack = rev segs ++ stack.
Proof.
  revert stack. induction segs as [|seg segs IH]; intros stack Hsegs; [done |].
  apply Forall_cons in Hsegs as [Hseg Hsegs]. simpl.
  by rewrite normalize_step_ordinary, IH, <- app_assoc.
Qed.

(** A [.] between ordinary segments is dropped. *)
Lemma normalize_segments_here allow dirs names :
  Forall Spec.ordinary dirs → Forall Spec.ordinary names →
  normalize_segments allow (dirs ++ "." :: names) = dirs ++ names.
Proof.
  intros Hdirs Hnames. unfold normalize_segments.
  rewrite fold_left_app, (fold_ordinary allow dirs) by done. cbn [fold_left].
  change (normalize_step allow (rev dirs ++ []) ".") with (rev dirs ++ []).
  rewrite fold_ordinary, app_nil_r by done.
  by rewrite rev_app_distr, !rev_involutive.
Qed.

(** A [..] after an ordinary segment removes it. *)
Lemma normalize_segments_up allow dirs dir names :
  Forall Spec.ordinary dirs → Spec.ordinary dir → Forall Spec.ordinary names →
  normalize_segments allow ((dirs ++ [dir]) ++ ".." :: names) = dirs ++ names.
Proof.
  intros Hdirs Hdir Hnames. unfold normalize_segments.
  rewrite fold_left_app, (fold_ordinary allow (dirs ++ [dir])).
  2: { apply Forall_app. split; [done |]. by apply Forall_singleton. }
  cbn [fold_left]. rewrite rev_app_distr, app_nil_r. cbn [rev app].
  assert (normalize_step allow (dir :: rev dirs) ".." = rev dirs) as ->.
  { destruct Hdir as (_ & _ & Hdir & _). unfold normalize_step. simpl.
    by destruct (String.eqb_spec dir ".."). }
  rewrite fold_ordinary by done.
  by rewrite rev_app_distr, !rev_involutive.
Qed.

(** Whether a text ends with a given character is decided by any
    non-empty end of it. *)
Lemma endsWith_append_r a b c :
  b ≠ "" → JS.endsWith (a +:+ b) (String c "") = JS.endsWith b (String c "").
Proof.
  intros Hb. induction a as [|c' a IH]; [by rewrite append_nil |].
  rewrite append_cons, endsWith_unfold, IH.
  destruct (String.eqb_spec (String c' (a +:+ b)) (String c "")) as [Heq|_]; [| done].
  injection Heq as _ Heq. destruct a; [by rewrite append_nil in Heq | done].
Qed.

Lemma slash_free_no_trailing s : JS.includes s "/" = false → JS.endsWith s "/" = false.
Proof.
  intros Hs. destruct (JS.endsWith s "/") eqn:He; [| done].
  apply endsWith_spec in He as [stem ->].
  pose proof (includes_append stem "/" "") as Hinc.
  rewrite append_empty_r in Hinc. congruence.
Qed.

Lemma join_ends_not_empty segs last : last ≠ "" → JS.join "/" (segs ++ [last]) ≠ "".
Proof.
  intros Hne. destruct segs as [|s segs]; [done |].
  change ((s :: segs) ++ [last]) with (s :: (segs ++ [last])). rewrite join_cons.
  destruct (segs ++ [last]) as [|x l] eqn:Hl; [by destruct segs |].
  intros H%(f_equal String.length). rewrite !append_length in H. simpl in H. lia.
Qed.

(** What was joined from segments, the last one not empty and without
    separator, does not end with a separator. *)
Lemma join_no_trailing segs last :
  last ≠ "" → JS.includes last "/" = false →
  JS.endsWith (JS.join "/" (segs ++ [last])) "/" = false.
Proof.
  intros Hne Hlast. induction segs as [|s segs IH]; [by apply slash_free_no_trailing |].
  change ((s :: segs) ++ [last]) with (s :: (segs ++ [last])). rewrite join_cons.
  destruct (segs ++ [last]) as [|x l] eqn:Hl; [by destruct segs |].
  rewrite <- append_assoc, endsWith_append_r; [done |].
  rewrite <- Hl. by apply join_ends_not_empty.
Qed.

(** What was joined from segments, the first one ordinary, starts with a
    character that is no separator. *)
Lemma join_head seg segs :
  Spec.ordinary seg ∨ seg = "." ∨ seg = ".." →
  ∃ c t, JS.join "/" (seg :: segs) = String c t ∧ is_slash c = false.
Proof.
  intros Hseg.
  assert (∃ c t, seg = String c t ∧ is_slash c = false) as (c & t & -> & Hc).
  { destruct Hseg as [(Hne & _ & _ & Hsl) | [-> | ->]];
      [| by exists "."%char, "" | by exists "."%char, "."].
    destruct seg as [|c t]; [done |]. exists c, t. split; [done |].
    rewrite includes_slash_cons in Hsl. by apply orb_false_iff in Hsl as [? _]. }
  rewrite join_cons. destruct segs; [by exists c, t |].
  rewrite append_cons. by eexists c, _.
Qed.

Lemma not_absolute c t : is_slash c = false → isAbsolute (String c t) = false.
Proof.
  intros Hc. unfold isAbsolute, JS.startsWith.
  change (String.prefix "/" (String c t))
    with (if ascii_dec "/" c then String.prefix "" t else false).
  destruct (ascii_dec "/" c) as [<-|]; [| done].
  unfold is_slash, slash in Hc. by rewrite Ascii.eqb_refl in Hc.
Qed.

(** [path.normalize] of a relative path given by its segments, the first
    one ordinary, [.] or [..] and the last one ordinary, when the segments
    kept are [out]. *)
Lemma normalize_join seg segs last out :
  Spec.ordinary seg ∨ seg = "." ∨ seg = ".." →
  Forall (λ s, JS.includes s "/" = false) (seg :: segs) →
  Spec.ordinary last →
  normalize_segments true ((seg :: segs) ++ [last]) = out →
  JS.join "/" out ≠ "" →
  normalize (JS.join "/" ((seg :: segs) ++ [last])) = JS.join "/" out.
Proof.
  intros Hseg Hsegs (Hne & _ & _ & Hlast) Hout Hnz. unfold normalize.
  destruct (join_head seg (segs ++ [last]) Hseg) as (c & t & Hj & Hc).
  change ((seg :: segs) ++ [last]) with (seg :: (segs ++ [last])) in *.
  assert (isAbsolute (JS.join "/" (seg :: segs ++ [last])) = false) as Habs
    by (rewrite Hj; by apply not_absolute).
  assert (trailingSeparator (JS.join "/" (seg :: segs ++ [last])) = false) as Htr
    by apply (join_no_trailing (seg :: segs) last Hne Hlast).
  rewrite Habs, Htr. simpl negb.
  destruct (String.eqb_spec (JS.join "/" (seg :: segs ++ [last])) "") as [He|_];
    [by rewrite Hj in He |].
  unfold normalizeString. rewrite split_join; [| done |].
  2: { change (seg :: segs ++ [last]) with ((seg :: segs) ++ [last]).
       apply Forall_app. split; [done |]. by apply Forall_singleton. }
  rewrite Hout. by destruct (String.eqb_spec (JS.join "/" out) "").
Qed.

(** [path.dirname] of a file in a directory is the directory. *)
Lemma dirname_of_child c t file :
  is_slash c = false → file ≠ "" → JS.includes file "/" = false →
  dirname (String c t +:+ "/" +:+ file) = String c t.
Proof.
  intros Hc Hne Hfile. rewrite append_cons. unfold dirname. rewrite Hc.
  rewrite chars_append, rev_app_distr.
  change (list_ascii_of_string ("/" +:+ file)) with (slash :: list_ascii_of_string file).
  cbn [rev]. rewrite <- app_assoc. cbn [app].
  pose proof (slash_free_chars file Hfile) as Hcs.
  apply Forall_rev in Hcs.
  assert (skip_slashes (rev (list_ascii_of_string file) ++ slash :: rev (list_ascii_of_string t))
          = rev (list_ascii_of_string file) ++ slash :: rev (list_ascii_of_string t)) as ->.
  { destruct (rev (list_ascii_of_string file)) as [|a l] eqn:Hrev.
    - apply (f_equal (@rev _)) in Hrev. rewrite rev_involutive in Hrev.
      destruct file; [done | discriminate].
    - apply Forall_cons in Hcs as [Ha _]. simpl. by rewrite Ha. }
  rewrite skip_segment_app by done. cbn [skip_segment].
  change (is_slash slash) with true. cbv iota. cbn [andb].
  by rewrite rev_involutive, string_of_list_ascii_of_string.
Qed.

(** [path.dirname] of a file name alone is [.]. *)
Lemma dirname_of_name file :
  file ≠ "" → JS.includes file "/" = false → dirname file = ".".
Proof.
  intros Hne Hfile. destruct file as [|c rest]; [done |].
  rewrite includes_slash_cons in Hfile. apply orb_false_iff in Hfile as [Hc Hrest].
  unfold dirname. rewrite Hc.
  pose proof (slash_free_chars rest Hrest) as Hcs. apply Forall_rev in Hcs.
  assert (skip_slashes (rev (list_ascii_of_string rest)) = rev (list_ascii_of_string rest)) as ->.
  { destruct (rev (list_ascii_of_string rest)) as [|a l]; [done |].
    apply Forall_cons in Hcs as [Ha _]. simpl. by rewrite Ha. }
  rewrite <- (app_nil_r (rev _)), skip_segment_app by done. done.
Qed.

Lemma normalize_segments_dot allow segs :
  normalize_segments allow ("." :: segs) = normalize_segments allow segs.
Proof. done. Qed.

(** The key of a specifier [mid/names/last] taken from the directory
    [front], when normalization keeps [kept] and [last]. *)
Lemma key_from_directory seg front mid names last kept :
  Spec.ordinary seg ∨ seg = "." →
  Forall Spec.ordinary front → mid = "." ∨ mid = ".." →
  Forall Spec.ordinary names → Spec.ordinary last → Forall Spec.ordinary kept →
  normalize_segments true ((seg :: front) ++ mid :: names ++ [last]) = kept ++ [last] →
  Spec.strip_separator
    (join (JS.join "/" (seg :: front)) (mid +:+ "/" +:+ JS.join "/" (names ++ [last])))
  = JS.join "/" (kept ++ [last]).
Proof.
  intros Hseg Hfront Hmid Hnames Hlast Hkept Hout.
  assert (∀ s, Spec.ordinary s → JS.includes s "/" = false) as Hfree by (by intros s (_ & _ & _ & ?)).
  assert (JS.includes mid "/" = false) as Hmidfree by (by destruct Hmid as [-> | ->]).
  assert (JS.includes seg "/" = false) as Hsegfree by (destruct Hseg as [? | ->]; auto).
  assert (names ++ [last] ≠ []) as Hnl by (by destruct names).
  assert (mid +:+ "/" +:+ JS.join "/" (names ++ [last]) = JS.join "/" (mid :: names ++ [last]))
    as -> by (rewrite join_cons; by destruct (names ++ [last])).
  destruct (join_head seg front) as (c & t & Hj & Hc);
    [destruct Hseg as [? | ->]; auto |].
  destruct (join_head mid (names ++ [last])) as (c' & t' & Hj' & _);
    [destruct Hmid as [-> | ->]; auto |].
  unfold join. rewrite Hj, Hj'. cbn [JS.truthy String.eqb negb]. rewrite <- Hj, <- Hj'.
  rewrite <- join_app by done.
  change (mid :: names ++ [last]) with ((mid :: names) ++ [last]).
  rewrite app_assoc.
  change ((seg :: front) ++ mid :: names) with (seg :: (front ++ mid :: names)).
  rewrite (normalize_join seg (front ++ mid :: names) last (kept ++ [last])).
  - destruct (kept ++ [last]) as [|x l] eqn:Hx; [by destruct kept |].
    destruct (join_head x l) as (cx & tx & -> & Hcx); [| by apply strip_separator_head].
    left. destruct kept as [|k kept']; simplify_eq/=; [done |].
    by apply Forall_cons in Hkept as [? _].
  - destruct Hseg as [? | ->]; auto.
  - apply Forall_cons. split; [done |]. apply Forall_app. split.
    + eapply Forall_impl; [exact Hfront | done].
    + apply Forall_cons. split; [done |]. eapply Forall_impl; [exact Hnames | done].
  - done.
  - change (seg :: front ++ mid :: names) with ((seg :: front) ++ mid :: names).
    by rewrite <- app_assoc.
  - apply join_ends_not_empty. by destruct Hlast.
Qed.

End relative_imports.

(** X22.  A relative import is resolved from the directory of the file that
    imports it.  For an importer [dirs/file] and ordinary segments: the
    specifier [./names/last] has the key [dirs/names/last], and the
    specifier [../names/last] the key [parents/names/last] when the
    importer's directory is [parents/dir]; both in the namespace [vfs]. *)
Theorem relative_import_from_importer_directory collected a dirs file names last :
  Build.kind a ≠ "entry-point" →
  Forall Spec.ordinary dirs → file ≠ "" → JS.includes file "/" = false →
  Forall Spec.ordinary names → Spec.ordinary last →
  Build.importer a = JS.join "/" (dirs ++ [file]) →
  (Build.path a = "./" +:+ JS.join "/" (names ++ [last]) →
   (Build.onResolve collected a).1
   = Build.in_namespace (JS.join "/" ((dirs ++ names) ++ [last])) "vfs") ∧
  (∀ parents dir,
     dirs = parents ++ [dir] →
     Build.path a = "../" +:+ JS.join "/" (names ++ [last]) →
     (Build.onResolve collected a).1
     = Build.in_namespace (JS.join "/" ((parents ++ names) ++ [last])) "vfs").
Proof.
  intros Hk Hdirs Hne Hfile Hnames Hlast Himp.
  assert (∀ mid, Build.path a = String "." mid →
            (Build.onResolve collected a).1
            = Build.in_namespace
                (Spec.strip_separator (Path.join (Path.dirname (Build.importer a)) (Build.path a)))
                "vfs") as Hrel.
  { intros mid Hp. symmetry. apply policy_determines. apply Spec.relative; [done |].
    exists mid. by rewrite Hp. }
  assert (Path.dirname (Build.importer a) = JS.join "/" (if dirs is [] then ["."] else dirs))
    as Hdir.
  { rewrite Himp. destruct dirs as [|d ds]; [by apply dirname_of_name |].
    rewrite join_app by done.
    destruct (join_head d ds) as (c & t & -> & Hc).
    { left. by apply Forall_cons in Hdirs as [? _]. }
    by apply dirname_of_child. }
  split.
  - intros Hp. rewrite (Hrel _ Hp), Hdir, Hp. f_equal.
    change ("./" +:+ ?x) with ("." +:+ "/" +:+ x).
    destruct dirs as [|d ds].
    + apply (key_from_directory "." [] "." names last names); auto.
      cbn [app]. rewrite !normalize_segments_dot.
      unfold Path.normalize_segments. rewrite fold_ordinary, app_nil_r, rev_involutive; [done |].
      apply Forall_app. split; [done |]. by apply Forall_singleton.
    + apply Forall_cons in Hdirs as [Hd Hds].
      apply (key_from_directory d ds "." names last ((d :: ds) ++ names)); auto.
      * apply Forall_app. split; [by apply Forall_cons | done].
      * rewrite (normalize_segments_here true (d :: ds) (names ++ [last])).
        -- by rewrite app_assoc.
        -- by apply Forall_cons.
        -- apply Forall_app. split; [done |]. by apply Forall_singleton.
  - intros parents dir -> Hp. rewrite (Hrel _ Hp), Hdir, Hp. f_equal.
    change ("../" +:+ ?x) with (".." +:+ "/" +:+ x).
    pose proof Hdirs as Hdds.
    apply Forall_app in Hdirs as [Hparents Hdir']. apply Forall_cons in Hdir' as [Hdir' _].
    destruct (parents ++ [dir]) as [|d ds] eqn:Hpd; [by destruct parents |].
    apply Forall_cons in Hdds as [Hd Hds].
    apply (key_from_directory d ds ".." names last (parents ++ names)); auto.
    + by apply Forall_app.
    + rewrite <- Hpd, (normalize_segments_up true parents dir (names ++ [last])).
      * by rewrite app_assoc.
      * done.
      * done.
      * apply Forall_app. split; [done |]. by apply Forall_singleton.
Qed.

Lemma relative_import_from_importer_directory_witness :
  (Build.onResolve [] (Sample.import_from "src/pages/Home.tsx" "./parts/Card")).1
  = Build.in_namespace "src/pages/parts/Card" "vfs" ∧
  (Build.onResolve [] (Sample.import_from "src/pages/Home.tsx" "../parts/Card")).1
  = Build.in_namespace "src/parts/Card" "vfs".
Proof.
  assert (∀ s, s ∈ ["src"; "pages"; "parts"; "Card"] → Spec.ordinary s) as Hord.
  { intros s Hs. repeat (apply elem_of_cons in Hs as [-> | Hs]; [by repeat split |]).
    by apply elem_of_nil in Hs. }
  split.
  - refine (proj1 (relative_import_from_importer_directory []
                     (Sample.import_from "src/pages/Home.tsx" "./parts/Card")
                     ["src"; "pages"] "Home.tsx" ["parts"] "Card" _ _ _ _ _ _ _) _);
      try done; repeat constructor; try (apply Hord; set_solver).
  - refine (proj2 (relative_import_from_importer_directory []
                     (Sample.import_from "src/pages/Home.tsx" "../parts/Card")
                     ["src"; "pages"] "Home.tsx" ["parts"] "Card" _ _ _ _ _ _ _)
              ["src"] "pages" _ _);
      try done; repeat constructor; try (apply Hord; set_solver).
Defined.
